(** * askmydocs: chunking, vector index, document store, ingestion and search

    A shallow embedding of the TypeScript sources of the knowledge-management
    server (chunking/fixed.ts, utils/config.ts, utils/validation.ts,
    storage/filesystem.ts, storage/chroma.ts, tools/ingest.ts,
    tools/management.ts, tools/search.ts) and the properties of its
    specification, each proved or refuted on the embedding.

    Conventions of the embedding:
    - a JavaScript string is a [string] of 8-bit code units (the Latin-1
      range); [String.length] counts code units as [.length] does;
    - an integer-valued JavaScript number is a [Z]; a similarity score or a
      vector component is an exact rational [Q] (rounding, overflow and
      underflow are not modelled); no number is NaN: a chunk size or an
      overlap that [parseInt] could not read is outside the embedding;
    - a thrown [Error] is [Throw msg]; a loop that does not terminate is [None];
    - Node and third-party built-ins (Math.sqrt, crypto, JSON.stringify, path,
      fs, the text extractors, the tokenizer, the embedding provider) are the
      fields of a [Host] record: the theorems hold for every host;
    - durable writes of the storage directory are taken to succeed;
    - the map [files] of a [World] holds the document files [<id>.json] of
      the storage directory and [vectorIndex] the index, whose file
      [vector_index.json] lies in the same directory: reading or writing a
      document under the id [vector_index] is outside the embedding. *)

From Stdlib Require Import ZArith QArith Lqa Lia Ascii String Sorting.Sorted.
From stdpp Require Import base option list sorting strings pretty gmap.

Local Open Scope Z_scope.
Set Warnings "-register-all".

(** ** JavaScript values *)

(** The outcome of a call that may throw. *)
Inductive result (A : Type) : Type :=
| Ok (a : A)
| Throw (msg : string).
Arguments Ok {A} a.
Arguments Throw {A} msg.

#[global] Instance result_ret : MRet result := λ A a, Ok a.
#[global] Instance result_bind : MBind result := λ A B k r,
  match r with
  | Ok a => k a
  | Throw msg => Throw msg
  end.

(** [if (cond) throw new Error(msg)] *)
Definition throwIf (cond : bool) (msg : string) : result unit :=
  if cond then Throw msg else Ok tt.

Module JS.

(** WhiteSpace and LineTerminator code units below 256: TAB, LF, VT, FF,
    CR, SP and NBSP. *)
Definition isWhiteSpace (c : ascii) : bool :=
  let n := N_of_ascii c in
  ((9 <=? n)%N && (n <=? 13)%N) || (n =? 32)%N || (n =? 160)%N.

Fixpoint trimStart (s : string) : string :=
  match s with
  | String c s' => if isWhiteSpace c then trimStart s' else s
  | EmptyString => EmptyString
  end.

(** [blank s]: every code unit of [s] is white space. *)
Fixpoint blank (s : string) : bool :=
  match s with
  | String c s' => isWhiteSpace c && blank s'
  | EmptyString => true
  end.

Fixpoint trimEnd (s : string) : string :=
  match s with
  | String c s' => if blank s then EmptyString else String c (trimEnd s')
  | EmptyString => EmptyString
  end.

(** [String.prototype.trim] *)
Definition trim (s : string) : string := trimEnd (trimStart s).

(** [s.length] *)
Definition length (s : string) : Z := Z.of_nat (String.length s).

(** The clamping of a relative index of [slice]. *)
Definition clamp (len i : Z) : Z :=
  if i <? 0 then Z.max (len + i) 0 else Z.min i len.

(** [String.prototype.slice(start, end)] *)
Definition slice (s : string) (start end_ : Z) : string :=
  let len := length s in
  let from := clamp len start in
  let to := clamp len end_ in
  substring (Z.to_nat from) (Z.to_nat (Z.max (to - from) 0)) s.

(** [Array.prototype.slice(start, end)] *)
Definition sliceA {A} (l : list A) (start end_ : Z) : list A :=
  let len := Z.of_nat (List.length l) in
  let from := clamp len start in
  let to := clamp len end_ in
  take (Z.to_nat (Z.max (to - from) 0)) (drop (Z.to_nat from) l).

(** [Array.prototype.includes] on strings *)
Definition includes (l : list string) (x : string) : bool :=
  bool_decide (x ∈ l).

(** [Array.prototype.some] *)
Definition some {A} (f : A → bool) (l : list A) : bool := existsb f l.

(** [String.prototype.toLowerCase], on the Latin-1 range. *)
Definition toLowerChar (c : ascii) : ascii :=
  let n := N_of_ascii c in
  if ((65 <=? n)%N && (n <=? 90)%N)
     || ((192 <=? n)%N && (n <=? 222)%N && negb (n =? 215)%N)
  then ascii_of_N (n + 32) else c.

Fixpoint toLowerCase (s : string) : string :=
  match s with
  | String c s' => String (toLowerChar c) (toLowerCase s')
  | EmptyString => EmptyString
  end.

(** [String.prototype.startsWith] *)
Definition startsWith (s p : string) : bool := String.prefix p s.

(** [String.prototype.includes] *)
Fixpoint str_includes (s p : string) : bool :=
  String.prefix p s ||
  match s with
  | String _ s' => str_includes s' p
  | EmptyString => false
  end.

(** Whether the code unit [c] occurs in [s]. *)
Fixpoint occurs (c : ascii) (s : string) : bool :=
  match s with
  | String c' s' => bool_decide (c' = c) || occurs c s'
  | EmptyString => false
  end.

(** [String.prototype.repeat] *)
Fixpoint repeat (s : string) (count : nat) : string :=
  match count with
  | O => ""
  | S n => s +:+ repeat s n
  end.

(** [Array.prototype.join] *)
Fixpoint join (sep : string) (l : list string) : string :=
  match l with
  | [] => ""
  | [x] => x
  | x :: l' => x +:+ sep +:+ join sep l'
  end.

(** The truthiness of an optional string: [undefined] and [""] are falsy. *)
Definition truthy (o : option string) : bool :=
  match o with
  | Some s => negb (bool_decide (s = ""))
  | None => false
  end.

(** [Array.prototype.sort(cmp)]: a stable sort by the sign of [cmp a b]
    (negative or zero: [a] stays before [b]); for a comparator that is
    consistent, as [b.score - a.score] is, every stable sort gives this
    result. *)
Fixpoint sort_insert {A} (cmp : A → A → Q) (x : A) (l : list A) : list A :=
  match l with
  | [] => [x]
  | y :: l' =>
      if Qle_bool (cmp x y) 0 then x :: y :: l' else y :: sort_insert cmp x l'
  end.

Definition sort {A} (cmp : A → A → Q) (l : list A) : list A :=
  foldr (sort_insert cmp) [] l.

(** An object with string keys in the order of [Object.entries]: insertion
    order, a key that is assigned again keeping its place (keys that spell
    an array index would come first; chunk ids never do). *)
Fixpoint obj_set {V} (k : string) (v : V) (o : list (string * V))
  : list (string * V) :=
  match o with
  | [] => [(k, v)]
  | (k', v') :: o' =>
      if bool_decide (k = k') then (k, v) :: o' else (k', v') :: obj_set k v o'
  end.

End JS.

(** ** Types (types/index.ts) *)

Record ChunkMetadata := {
  startChar : Z;
  endChar : Z;
}.

Record DocumentChunk := {
  chunk_id : string;
  chunk_documentId : string;
  chunk_content : string;
  chunk_index : Z;
  chunk_embedding : option (list Q);
  chunk_metadata : ChunkMetadata;
}.

Record ChunkingOptions := {
  chunkSize : Z;
  chunkOverlap : Z;
  strategy : string;
}.

Record EmbeddingConfig := {
  provider : string;
  model : string;
  apiKey : option string;
}.

Record ServerConfig := {
  storageDir : string;
  chromaDbDir : string;
  embeddingConfig : EmbeddingConfig;
  chunkingOptions : ChunkingOptions;
  maxFileSize : Z;
  allowedFileTypes : list string;
}.

(** ** Fixed-size chunking (chunking/fixed.ts) *)

Module FixedChunking.

(** The state of the [while] loop of [chunk]. *)
Record LoopState := {
  chunks : list DocumentChunk;
  chunkIndex : Z;
  position : Z;
}.

(** One iteration of the loop body. *)
Definition body (text : string) (options : ChunkingOptions) (st : LoopState)
  : LoopState :=
  let textLength := JS.length text in
  let endPosition := Z.min (position st + chunkSize options) textLength in
  let chunkText := JS.slice text (position st) endPosition in
  let '(chunks', chunkIndex') :=
    if 0 <? JS.length (JS.trim chunkText) then
      (chunks st ++ [ {| chunk_id := "";
                         chunk_documentId := "";
                         chunk_content := JS.trim chunkText;
                         chunk_index := chunkIndex st;
                         chunk_embedding := None;
                         chunk_metadata := {| startChar := position st;
                                              endChar := endPosition |} |} ],
       chunkIndex st + 1)
    else (chunks st, chunkIndex st) in
  let position' := position st + (chunkSize options - chunkOverlap options) in
  let position'' := if position' <=? 0 then chunkSize options else position' in
  {| chunks := chunks'; chunkIndex := chunkIndex'; position := position'' |}.

(** [while (position < textLength) body], at most [fuel] iterations. *)
Fixpoint loop (fuel : nat) (text : string) (options : ChunkingOptions)
    (st : LoopState) : option (list DocumentChunk) :=
  if position st <? JS.length text then
    match fuel with
    | O => None
    | S fuel' => loop fuel' text options (body text options st)
    end
  else Some (chunks st).

Definition init : LoopState :=
  {| chunks := []; chunkIndex := 0; position := 0 |}.

(** [FixedChunking.chunk]: [None] when the loop does not terminate (see
    [loop_bound_complete]: a run that has not stopped after
    [length text + 1] iterations never stops). *)
Definition chunk (text : string) (options : ChunkingOptions)
  : option (list DocumentChunk) :=
  loop (S (String.length text)) text options init.

(** What an iteration at [position = p] emits, if any. *)
Definition emitted (text : string) (options : ChunkingOptions) (p i : Z)
  : list DocumentChunk :=
  let e := Z.min (p + chunkSize options) (JS.length text) in
  if JS.blank (JS.slice text p e) then []
  else [ {| chunk_id := ""; chunk_documentId := "";
            chunk_content := JS.trim (JS.slice text p e);
            chunk_index := i; chunk_embedding := None;
            chunk_metadata := {| startChar := p; endChar := e |} |} ].

End FixedChunking.

(** The half-open character range of a chunk. *)
Definition range (c : DocumentChunk) : Z * Z :=
  (startChar (chunk_metadata c), endChar (chunk_metadata c)).

(** The configuration of the scenario: windows of 1000 characters that
    overlap by 200. *)
Definition fixed_1000_200 : ChunkingOptions :=
  {| chunkSize := 1000; chunkOverlap := 200; strategy := "fixed" |}.

(** The windows the loop visits on a text of 2600 characters. *)
Definition windows_2600 : list (Z * Z) :=
  [(0, 1000); (800, 1800); (1600, 2600); (2400, 2600)].

(** [nonblank text w]: the window [w] of [text] is not white space only. *)
Definition nonblank (text : string) (w : Z * Z) : bool :=
  negb (JS.blank (JS.slice text w.1 w.2)).

(** ** Configuration (utils/config.ts) *)

Definition validateConfig (config : ServerConfig) : result unit :=
  throwIf (bool_decide (storageDir config = "")) "STORAGE_DIR is required";;
  throwIf (bool_decide (chromaDbDir config = "")) "CHROMA_DB_DIR is required";;
  throwIf (negb (JS.includes ["transformers"; "openai"; "cohere"]
                   (provider (embeddingConfig config))))
    ("Invalid embedding provider: " +:+ provider (embeddingConfig config));;
  throwIf (negb (bool_decide (provider (embeddingConfig config) = "transformers"))
           && match apiKey (embeddingConfig config) with
              | None => true
              | Some k => bool_decide (k = "")
              end)
    ("API key required for " +:+ provider (embeddingConfig config) +:+ " provider");;
  throwIf (negb (JS.includes ["sentence"; "paragraph"; "fixed"]
                   (strategy (chunkingOptions config))))
    ("Invalid chunking strategy: " +:+ strategy (chunkingOptions config));;
  throwIf (chunkSize (chunkingOptions config) <? 100)
    "Chunk size must be at least 100 characters";;
  throwIf (chunkSize (chunkingOptions config) <=? chunkOverlap (chunkingOptions config))
    "Chunk overlap must be less than chunk size";;
  Ok tt.

(** A value of a [Record<string, any>]. *)
Inductive JValue : Type :=
| JNull
| JBool (b : bool)
| JNumber (q : Q)
| JString (s : string)
| JArray (items : list JValue)
| JObject (fields : list (string * JValue)).

(** ** Documents and search (types/index.ts) *)

Record DocumentMetadata := {
  filename : option string;
  filePath : option string;
  fileType : string;
  tags : list string;
  customMetadata : gmap string JValue;
  size : option Z;
  pageCount : option Z;
}.

(** [Partial<DocumentMetadata>] *)
Record PartialMetadata := {
  p_filename : option string;
  p_filePath : option string;
  p_fileType : option string;
  p_tags : option (list string);
  p_customMetadata : option (gmap string JValue);
  p_size : option Z;
  p_pageCount : option Z;
}.

Record Document := {
  doc_id : string;
  doc_content : string;
  doc_metadata : DocumentMetadata;
  doc_chunks : list DocumentChunk;
  createdAt : Z;
  updatedAt : Z;
}.

Record SearchResult := {
  sr_chunk : DocumentChunk;
  sr_document : Document;
  sr_score : Q;
  sr_distance : Q;
}.

Record SearchOptions := {
  query : string;
  maxResults : option Z;
  similarityThreshold : option Q;
  filterMetadata : option (gmap string JValue);
  filterTags : option (list string);
}.

Inductive Status := success | error.

Record IngestResult := {
  ir_documentId : string;
  chunksCreated : Z;
  status : Status;
  message : option string;
}.

Record BatchIngestResult := {
  totalFiles : Z;
  successCount : Z;
  failedCount : Z;
  documents : list IngestResult;
  errors : list (string * string);
}.

(** ** The host: Node, third-party packages and the outside world *)

Record Stats := {
  isFile : bool;
  isDirectory : bool;
  stat_size : Z;
}.

(** The outcome of an [fs] call: a value, an error whose [code] is
    [ENOENT], or another error. *)
Inductive FsResult (A : Type) : Type :=
| FsOk (a : A)
| FsNoEntry (msg : string)
| FsError (msg : string).
Arguments FsOk {A} a.
Arguments FsNoEntry {A} msg.
Arguments FsError {A} msg.

(** An entry of [fs.readdir(dir, {withFileTypes: true})]; a directory
    carries what reading it in turn gives. *)
Inductive Dirent : Type :=
| FileEntry (name : string)
| DirEntry (name : string) (listing : result (list Dirent))
| OtherEntry (name : string).

Record Host := {
  Math_sqrt : Q → Q;
  (** the value of the n-th reading of the clock, in milliseconds *)
  Date_now : nat → Z;
  (** [crypto.createHash('md5').update(s).digest('hex')] *)
  md5_hex : string → string;
  (** [JSON.stringify(metadata).length] *)
  JSON_stringify_length : gmap string JValue → Z;
  path_resolve : string → string;
  path_basename : string → string;
  path_extname : string → string;
  path_join : string → string → string;
  fs_stat : string → FsResult Stats;
  fs_readFile : string → result string;
  fs_readdir : string → result (list Dirent);
  (** the PDF, DOCX, CSV, JSON and HTML processors, by file type *)
  process_other : string → string → result string;
  (** the sentence and paragraph strategies, which no property below
      inspects *)
  SentenceChunking_chunk : string → ChunkingOptions → result (list DocumentChunk);
  ParagraphChunking_chunk : string → ChunkingOptions → result (list DocumentChunk);
  (** the embedding provider *)
  generateEmbedding : string → result (list Q);
  generateEmbeddings : list string → result (list (list Q));
}.

(** ** Input validation (utils/validation.ts) *)

Definition validateFilePath (h : Host) (filePath : string) : result unit :=
  let resolvedPath := path_resolve h filePath in
  throwIf (JS.str_includes resolvedPath "..")
    "Invalid file path: directory traversal detected";;
  match fs_stat h resolvedPath with
  | FsOk stats =>
      throwIf (negb (isFile stats)) ("Path is not a file: " +:+ filePath)
  | FsNoEntry _ => Throw ("File not found: " +:+ filePath)
  | FsError msg => Throw msg
  end.

Definition validateFileSize (h : Host) (filePath : string) (maxSize : Z)
  : result unit :=
  match fs_stat h filePath with
  | FsOk stats =>
      throwIf (maxSize <? stat_size stats)
        ("File size (" +:+ pretty (stat_size stats)
         +:+ " bytes) exceeds maximum allowed size (" +:+ pretty maxSize
         +:+ " bytes)")
  | FsNoEntry msg | FsError msg => Throw msg
  end.

(** [path.extname(p).toLowerCase().slice(1)] *)
Definition extension (h : Host) (p : string) : string :=
  let lower := JS.toLowerCase (path_extname h p) in
  JS.slice lower 1 (JS.length lower).

Definition validateFileType (h : Host) (filePath : string)
    (allowedTypes : list string) : result unit :=
  let ext := extension h filePath in
  throwIf (negb (JS.includes allowedTypes ext))
    ("File type '" +:+ ext +:+ "' is not allowed. Allowed types: "
     +:+ JS.join ", " allowedTypes).

(** The characters of [/^[a-zA-Z0-9_-]+$/]. *)
Definition isIdChar (c : ascii) : bool :=
  let n := N_of_ascii c in
  ((97 <=? n)%N && (n <=? 122)%N) || ((65 <=? n)%N && (n <=? 90)%N)
  || ((48 <=? n)%N && (n <=? 57)%N) || (n =? 95)%N || (n =? 45)%N.

Definition validateDocumentId (documentId : string) : result unit :=
  throwIf (bool_decide (documentId = ""))
    "Invalid document ID: must be a non-empty string";;
  throwIf (negb (forallb isIdChar (list_ascii_of_string documentId)))
    "Invalid document ID: can only contain alphanumeric characters, hyphens, and underscores".

Definition validateSearchQuery (query : string) : result unit :=
  throwIf (bool_decide (query = ""))
    "Invalid search query: must be a non-empty string";;
  throwIf (JS.length (JS.trim query) =? 0)
    "Invalid search query: cannot be empty or only whitespace";;
  throwIf (10000 <? JS.length query)
    "Invalid search query: exceeds maximum length of 10000 characters".

Definition validateMetadata (h : Host) (metadata : gmap string JValue)
  : result unit :=
  throwIf (100000 <? JSON_stringify_length h metadata)
    "Invalid metadata: exceeds maximum size of 100KB".

Definition validateTags (tags : list string) : result (list string) :=
  throwIf (100 <? Z.of_nat (List.length tags))
    "Invalid tags: cannot exceed 100 tags";;
  Ok (List.filter (λ tag, 0 <? JS.length tag) (map JS.trim tags)).

Definition validateDirectoryPath (h : Host) (dirPath : string) : result unit :=
  let resolvedPath := path_resolve h dirPath in
  match fs_stat h resolvedPath with
  | FsOk stats =>
      throwIf (negb (isDirectory stats)) ("Path is not a directory: " +:+ dirPath)
  | FsNoEntry _ => Throw ("Directory not found: " +:+ dirPath)
  | FsError msg => Throw msg
  end.

(** The characters of [/[^a-zA-Z0-9._-]/] are replaced by an underscore. *)
Definition sanitizeChar (c : ascii) : ascii :=
  if isIdChar c || (N_of_ascii c =? 46)%N then c else "_"%char.

Fixpoint sanitizeFilename (filename : string) : string :=
  match filename with
  | String c s => String (sanitizeChar c) (sanitizeFilename s)
  | EmptyString => EmptyString
  end.

(** ** The stored state *)

(** An entry of the vector index ([embedding] is [chunk.embedding!], which
    is [undefined] when the provider returned too few vectors). *)
Record IndexEntry := {
  ie_embedding : option (list Q);
  ie_documentId : string;
  ie_chunkIndex : Z;
}.

(** The storage directory (one JSON file per document id), the vector index
    in [Object.entries] order, and the number of clock readings so far. *)
Record World := {
  files : gmap string Document;
  vectorIndex : list (string * IndexEntry);
  clockReads : nat;
}.

Definition set_files (f : gmap string Document) (w : World) : World :=
  {| files := f; vectorIndex := vectorIndex w; clockReads := clockReads w |}.

Definition set_vectorIndex (idx : list (string * IndexEntry)) (w : World) : World :=
  {| files := files w; vectorIndex := idx; clockReads := clockReads w |}.

(** [Date.now()] and [new Date()] *)
Definition new_Date (h : Host) (w : World) : Z * World :=
  (Date_now h (clockReads w),
   {| files := files w; vectorIndex := vectorIndex w;
      clockReads := S (clockReads w) |}).

Definition set_updatedAt (t : Z) (d : Document) : Document :=
  {| doc_id := doc_id d; doc_content := doc_content d;
     doc_metadata := doc_metadata d; doc_chunks := doc_chunks d;
     createdAt := createdAt d; updatedAt := t |}.

Definition set_metadata (m : DocumentMetadata) (d : Document) : Document :=
  {| doc_id := doc_id d; doc_content := doc_content d;
     doc_metadata := m; doc_chunks := doc_chunks d;
     createdAt := createdAt d; updatedAt := updatedAt d |}.

(** ** Filesystem storage (storage/filesystem.ts) *)

Module FileSystemStorage.

Definition saveDocument (document : Document) (w : World) : World :=
  set_files (<[doc_id document := document]> (files w)) w.

(** [null] when the file does not exist. *)
Definition loadDocument (documentId : string) (w : World) : option Document :=
  files w !! documentId.

(** [ENOENT] is swallowed: deleting an absent document is not an error. *)
Definition deleteDocument (documentId : string) (w : World) : World :=
  set_files (delete documentId (files w)) w.

Definition updateDocument (h : Host) (document : Document) (w : World) : World :=
  let '(now, w1) := new_Date h w in
  saveDocument (set_updatedAt now document) w1.

End FileSystemStorage.

(** ** The vector storage (storage/chroma.ts)

    The file-based implementation of [ChromaStorage], which keeps the vector
    index in memory and in [vector_index.json] and ranks by cosine
    similarity itself. *)

Record Similarity := {
  chunkId : string;
  score : Q;
  documentId : string;
  chunkIndex : Z;
}.

Module ChromaStorage.

(** [`${documentId}_chunk_${index}`] *)
Definition chunkKey (documentId : string) (index : Z) : string :=
  documentId +:+ "_chunk_" +:+ pretty index.

(** The three sums of the loop of [cosineSimilarity]. *)
Fixpoint sums (a b : list Q) (acc : Q * Q * Q) : Q * Q * Q :=
  match a, b with
  | x :: a', y :: b' =>
      let '(dotProduct, normA, normB) := acc in
      sums a' b' (dotProduct + x * y, normA + x * x, normB + y * y)%Q
  | _, _ => acc
  end.

Definition cosineSimilarity (h : Host) (a b : list Q) : Q :=
  if negb (List.length a =? List.length b)%nat then 0%Q
  else
    let '(dotProduct, normA, normB) := sums a b (0, 0, 0)%Q in
    if Qeq_bool normA 0 || Qeq_bool normB 0 then 0%Q
    else (dotProduct / (Math_sqrt h normA * Math_sqrt h normB))%Q.

Definition storeDocument (document : Document) (w : World) : World :=
  let w1 := FileSystemStorage.saveDocument document w in
  match doc_chunks document with
  | [] => w1
  | _ :: _ =>
      set_vectorIndex
        (foldl (λ idx chunk,
                  JS.obj_set (chunkKey (doc_id document) (chunk_index chunk))
                    {| ie_embedding := chunk_embedding chunk;
                       ie_documentId := doc_id document;
                       ie_chunkIndex := chunk_index chunk |} idx)
           (vectorIndex w1) (doc_chunks document))
        w1
  end.

Definition getDocument (documentId : string) (w : World) : option Document :=
  FileSystemStorage.loadDocument documentId w.

Definition deleteDocument (documentId : string) (w : World) : World :=
  let w1 := FileSystemStorage.deleteDocument documentId w in
  set_vectorIndex
    (List.filter (λ kv, negb (bool_decide (ie_documentId kv.2 = documentId)))
       (vectorIndex w1))
    w1.

(** [{ ...document.metadata, ...metadata }] *)
Definition mergeMetadata (m : DocumentMetadata) (u : PartialMetadata)
  : DocumentMetadata :=
  {| filename := match p_filename u with Some f => Some f | None => filename m end;
     filePath := match p_filePath u with Some f => Some f | None => filePath m end;
     fileType := default (fileType m) (p_fileType u);
     tags := default (tags m) (p_tags u);
     customMetadata := default (customMetadata m) (p_customMetadata u);
     size := match p_size u with Some n => Some n | None => size m end;
     pageCount := match p_pageCount u with Some n => Some n | None => pageCount m end |}.

Definition updateDocumentMetadata (h : Host) (documentId : string)
    (metadata : PartialMetadata) (w : World) : result unit * World :=
  match getDocument documentId w with
  | None =>
      (Throw ("Metadata update failed: Document not found: " +:+ documentId), w)
  | Some document =>
      let document1 := set_metadata (mergeMetadata (doc_metadata document) metadata)
                         document in
      let '(now, w1) := new_Date h w in
      (Ok tt, FileSystemStorage.updateDocument h (set_updatedAt now document1) w1)
  end.

(** The candidate that the first loop of [searchSimilar] builds for an
    entry of the index that carries an embedding. *)
Definition scoredEntry (h : Host) (embedding : list Q) (kv : string * IndexEntry)
  : option Similarity :=
  e ← ie_embedding kv.2;
  Some {| chunkId := kv.1; score := cosineSimilarity h embedding e;
          documentId := ie_documentId kv.2; chunkIndex := ie_chunkIndex kv.2 |}.

(** [options.maxResults || 10] *)
Definition maxResultsOf (options : SearchOptions) : Z :=
  match maxResults options with
  | Some k => if k =? 0 then 10 else k
  | None => 10
  end.

(** [options.similarityThreshold && score < options.similarityThreshold] *)
Definition belowThreshold (options : SearchOptions) (score : Q) : bool :=
  match similarityThreshold options with
  | Some t => negb (Qeq_bool t 0) && negb (Qle_bool t score)
  | None => false
  end.

(** The first loop of [searchSimilar]: score every entry of the index and
    keep those that pass the threshold. *)
Fixpoint similaritiesOf (h : Host) (embedding : list Q) (options : SearchOptions)
    (entries : list (string * IndexEntry)) : result (list Similarity) :=
  match entries with
  | [] => Ok []
  | (chunkId, data) :: rest =>
      match ie_embedding data with
      | None => Throw "Cannot read properties of undefined (reading 'length')"
      | Some e =>
          let score := cosineSimilarity h embedding e in
          similarities ← similaritiesOf h embedding options rest;
          Ok (if belowThreshold options score then similarities
              else {| chunkId := chunkId; score := score;
                      documentId := ie_documentId data;
                      chunkIndex := ie_chunkIndex data |} :: similarities)
      end
  end.

(** [options.filterTags && options.filterTags.length > 0 && !hasMatchingTag] *)
Definition rejectedByTags (options : SearchOptions) (document : Document) : bool :=
  match filterTags options with
  | Some (t :: ts) =>
      negb (JS.some (λ tag, JS.includes (tags (doc_metadata document)) tag) (t :: ts))
  | _ => false
  end.

(** The body of the second loop: [None] stands for [continue]. *)
Definition buildResult (w : World) (options : SearchOptions) (r : Similarity)
  : option SearchResult :=
  match getDocument (documentId r) w with
  | None => None
  | Some document =>
      if rejectedByTags options document then None
      else
        match List.find (λ c, chunk_index c =? chunkIndex r) (doc_chunks document) with
        | None => None
        | Some chunk =>
            Some {| sr_chunk := chunk; sr_document := document;
                    sr_score := score r; sr_distance := (1 - score r)%Q |}
        end
  end.

(** The candidates after sorting and slicing. *)
Definition topResults (options : SearchOptions) (similarities : list Similarity)
  : list Similarity :=
  JS.sliceA (JS.sort (λ a b, (score b - score a)%Q) similarities)
    0 (maxResultsOf options).

Definition searchSimilar (h : Host) (embedding : list Q) (options : SearchOptions)
    (w : World) : result (list SearchResult) :=
  match similaritiesOf h embedding options (vectorIndex w) with
  | Throw msg => Throw ("Search failed: " +:+ msg)
  | Ok similarities =>
      Ok (omap (buildResult w options) (topResults options similarities))
  end.

End ChromaStorage.

(** ** Document processors (processors/index.ts, processors/text.ts) *)

Module Processors.

Definition TextProcessor_process (h : Host) (filePath : string) : result string :=
  match fs_readFile h filePath with
  | Throw msg => Throw ("Text file processing failed: " +:+ msg)
  | Ok content =>
      if bool_decide (content = "") || (JS.length (JS.trim content) =? 0)
      then Throw "Text file processing failed: File is empty"
      else Ok content
  end.

(** [getProcessor] then [process]: the first processor that can process
    the extension. *)
Definition processFile (h : Host) (filePath : string) : result string :=
  let ext := extension h filePath in
  let type := JS.toLowerCase ext in
  if bool_decide (type = "pdf") then process_other h "pdf" filePath
  else if bool_decide (type = "docx") then process_other h "docx" filePath
  else if JS.includes ["txt"; "md"; "markdown"] type then TextProcessor_process h filePath
  else if bool_decide (type = "csv") then process_other h "csv" filePath
  else if bool_decide (type = "json") then process_other h "json" filePath
  else if JS.includes ["html"; "htm"] type then process_other h "html" filePath
  else Throw ("No processor available for file type: " +:+ ext).

End Processors.

(** [getChunkingStrategy(strategy).chunk(text, options)]: [None] when the
    fixed strategy does not terminate. *)
Definition chunkWith (h : Host) (strategy : string) (text : string)
    (options : ChunkingOptions) : option (result (list DocumentChunk)) :=
  let s := JS.toLowerCase strategy in
  if bool_decide (s = "sentence") then Some (SentenceChunking_chunk h text options)
  else if bool_decide (s = "paragraph") then Some (ParagraphChunking_chunk h text options)
  else if bool_decide (s = "fixed") then Ok <$> FixedChunking.chunk text options
  else Some (Throw ("Unknown chunking strategy: " +:+ strategy)).

(** ** The ingestion tool (tools/ingest.ts) *)

Record IngestArgs := {
  file_path : option string;
  text_content : option string;
  arg_metadata : option (gmap string JValue);
  arg_tags : option (list string);
}.

Record BatchArgs := {
  directory_path : string;
  file_patterns : option (list string);
  recursive : option bool;
}.

(** What [ingestDocument] has in hand once its inputs are validated. *)
Record Prepared := {
  pr_content : string;
  pr_filename : string;
  pr_fileType : string;
  pr_filePath : option string;
  pr_customMetadata : gmap string JValue;
  pr_tags : list string;
}.

Module IngestTool.

(** The id of a document named [filename] ingested at [timestamp]. *)
Definition documentIdAt (h : Host) (filename : string) (timestamp : Z) : string :=
  let sanitized := sanitizeFilename filename in
  let hash := JS.slice (md5_hex h (sanitized +:+ "_" +:+ pretty timestamp)) 0 8 in
  "doc_" +:+ pretty timestamp +:+ "_" +:+ hash.

Definition generateDocumentId (h : Host) (filename : string) (w : World)
  : string * World :=
  let '(timestamp, w1) := new_Date h w in
  (documentIdAt h filename timestamp, w1).

(** The first part of [ingestDocument]: input validation and text
    extraction. *)
Definition prepare (h : Host) (config : ServerConfig) (args : IngestArgs)
  : result Prepared :=
  throwIf (negb (JS.truthy (file_path args)) && negb (JS.truthy (text_content args)))
    "Either file_path or text_content must be provided";;
  throwIf (JS.truthy (file_path args) && JS.truthy (text_content args))
    "Cannot provide both file_path and text_content";;
  source ←
    (if JS.truthy (file_path args) then
       let file := default "" (file_path args) in
       validateFilePath h file;;
       validateFileSize h file (maxFileSize config);;
       validateFileType h file (allowedFileTypes config);;
       content ← Processors.processFile h file;
       Ok (content, path_basename h file, extension h file, Some file)
     else Ok (default "" (text_content args), "text_content", "txt", None));
  let '(content, filename, fileType, filePath) := source in
  let customMetadata := default ∅ (arg_metadata args) in
  (if bool_decide (customMetadata = ∅) then Ok tt
   else validateMetadata h customMetadata);;
  tags ← match arg_tags args with
         | Some ts => validateTags ts
         | None => Ok []
         end;
  Ok {| pr_content := content; pr_filename := filename; pr_fileType := fileType;
        pr_filePath := filePath; pr_customMetadata := customMetadata;
        pr_tags := tags |}.

(** [{ ...chunk, id, documentId, embedding: embeddings[index] }] *)
Definition processChunk (documentId : string) (embeddings : list (list Q))
    (index : nat) (chunk : DocumentChunk) : DocumentChunk :=
  {| chunk_id := documentId +:+ "_chunk_" +:+ pretty index;
     chunk_documentId := documentId;
     chunk_content := chunk_content chunk;
     chunk_index := chunk_index chunk;
     chunk_embedding := embeddings !! index;
     chunk_metadata := chunk_metadata chunk |}.

(** The [try] block of [ingestDocument]: the document id and the number of
    chunks, or the error thrown; [None] when chunking does not terminate. *)
Definition ingestBody (h : Host) (config : ServerConfig) (args : IngestArgs)
    (w : World) : option (result (string * Z) * World) :=
  match prepare h config args with
  | Throw msg => Some (Throw msg, w)
  | Ok p =>
      let '(documentId, w1) := generateDocumentId h (pr_filename p) w in
      match chunkWith h (strategy (chunkingOptions config)) (pr_content p)
              (chunkingOptions config) with
      | None => None
      | Some (Throw msg) => Some (Throw msg, w1)
      | Some (Ok chunks) =>
          match generateEmbeddings h (map chunk_content chunks) with
          | Throw msg => Some (Throw msg, w1)
          | Ok embeddings =>
              let processedChunks := imap (processChunk documentId embeddings) chunks in
              let '(created, w2) := new_Date h w1 in
              let '(updated, w3) := new_Date h w2 in
              let document :=
                {| doc_id := documentId;
                   doc_content := pr_content p;
                   doc_metadata :=
                     {| filename := Some (pr_filename p);
                        filePath := pr_filePath p;
                        fileType := pr_fileType p;
                        tags := pr_tags p;
                        customMetadata := pr_customMetadata p;
                        size := Some (JS.length (pr_content p));
                        pageCount := None |};
                   doc_chunks := processedChunks;
                   createdAt := created;
                   updatedAt := updated |} in
              Some (Ok (documentId, Z.of_nat (List.length processedChunks)),
                    ChromaStorage.storeDocument document w3)
          end
      end
  end.

(** [ingestDocument] never throws: every error becomes a result whose
    status is [error]. *)
Definition ingestDocument (h : Host) (config : ServerConfig) (args : IngestArgs)
    (w : World) : option (IngestResult * World) :=
  match ingestBody h config args w with
  | None => None
  | Some (Ok (documentId, n), w') =>
      Some ({| ir_documentId := documentId; chunksCreated := n; status := success;
               message := Some ("Document ingested successfully with "
                                +:+ pretty n +:+ " chunks") |}, w')
  | Some (Throw msg, w') =>
      Some ({| ir_documentId := ""; chunksCreated := 0; status := error;
               message := Some msg |}, w')
  end.

(** Whether [findFiles] keeps the file [name]. *)
Definition keepsFile (h : Host) (config : ServerConfig) (patterns : list string)
    (name : string) : bool :=
  let ext := extension h name in
  JS.some (λ pattern,
             if bool_decide (pattern = "*") then true
             else if JS.startsWith pattern "*." then
               bool_decide (ext = JS.slice pattern 2 (JS.length pattern))
             else JS.str_includes name pattern) patterns
  && JS.includes (allowedFileTypes config) ext.

(** [findFiles] on one entry of the directory [dirPath]. *)
Fixpoint findInEntry (h : Host) (config : ServerConfig) (patterns : list string)
    (recursive : bool) (dirPath : string) (entry : Dirent) : result (list string) :=
  match entry with
  | DirEntry name listing =>
      if recursive then
        match listing with
        | Throw msg => Throw msg
        | Ok entries =>
            (fix go (es : list Dirent) : result (list string) :=
               match es with
               | [] => Ok []
               | e :: es' =>
                   subFiles ← findInEntry h config patterns recursive
                                (path_join h dirPath name) e;
                   files ← go es';
                   Ok (subFiles ++ files)
               end) entries
        end
      else Ok []
  | FileEntry name =>
      Ok (if keepsFile h config patterns name then [path_join h dirPath name] else [])
  | OtherEntry _ => Ok []
  end.

Definition findFiles (h : Host) (config : ServerConfig) (dirPath : string)
    (patterns : list string) (recursive : bool) : result (list string) :=
  entries ← fs_readdir h dirPath;
  foldr (λ e acc, found ← findInEntry h config patterns recursive dirPath e;
                  files ← acc;
                  Ok (found ++ files)) (Ok []) entries.

(** [{ file_path: file }] *)
Definition fileArgs (file : string) : IngestArgs :=
  {| file_path := Some file; text_content := None;
     arg_metadata := None; arg_tags := None |}.

(** [result.message || 'Unknown error'] *)
Definition messageOf (result : IngestResult) : string :=
  if JS.truthy (message result) then default "" (message result)
  else "Unknown error".



(** The accumulators of the loop of [batchIngest]. *)
Record BatchState := {
  results : list IngestResult;
  b_errors : list (string * string);
  b_successCount : Z;
  b_failedCount : Z;
}.

(** One iteration of the loop over the files. *)
Definition batchStep (file : string) (result : IngestResult) (b : BatchState)
  : BatchState :=
  match status result with
  | success =>
      {| results := results b ++ [result]; b_errors := b_errors b;
         b_successCount := b_successCount b + 1;
         b_failedCount := b_failedCount b |}
  | error =>
      {| results := results b ++ [result];
         b_errors := b_errors b ++ [(file, messageOf result)];
         b_successCount := b_successCount b;
         b_failedCount := b_failedCount b + 1 |}
  end.

Fixpoint batchLoop (h : Host) (config : ServerConfig) (files : list string)
    (b : BatchState) (w : World) : option (BatchState * World) :=
  match files with
  | [] => Some (b, w)
  | file :: files' =>
      match ingestDocument h config (fileArgs file) w with
      | None => None
      | Some (result, w') => batchLoop h config files' (batchStep file result b) w'
      end
  end.

Definition batchIngest (h : Host) (config : ServerConfig) (args : BatchArgs)
    (w : World) : option (result BatchIngestResult * World) :=
  match
    validateDirectoryPath h (directory_path args);;
    findFiles h config (directory_path args)
      (default ["*"] (file_patterns args))
      (negb (bool_decide (recursive args = Some false)))
  with
  | Throw msg => Some (Throw msg, w)
  | Ok files =>
      '(b, w') ← batchLoop h config files
                   {| results := []; b_errors := []; b_successCount := 0;
                      b_failedCount := 0 |} w;
      Some (Ok {| totalFiles := Z.of_nat (List.length files);
                  successCount := b_successCount b;
                  failedCount := b_failedCount b;
                  documents := results b;
                  errors := b_errors b |}, w')
  end.

End IngestTool.

(** ** The management tool (tools/management.ts) *)

Record ToolResult := {
  tr_success : bool;
  tr_message : string;
}.

Record UpdateArgs := {
  u_document_id : string;
  u_metadata : option (gmap string JValue);
  u_tags : option (list string);
}.

Module ManagementTool.

Definition deleteDocument (document_id : string) (w : World) : ToolResult * World :=
  match
    validateDocumentId document_id;;
    match ChromaStorage.getDocument document_id w with
    | None => Throw ("Document not found: " +:+ document_id)
    | Some _ => Ok tt
    end
  with
  | Throw msg => ({| tr_success := false; tr_message := msg |}, w)
  | Ok _ =>
      ({| tr_success := true;
          tr_message := "Document " +:+ document_id +:+ " deleted successfully" |},
       ChromaStorage.deleteDocument document_id w)
  end.

Definition updateDocumentMetadata (h : Host) (args : UpdateArgs) (w : World)
  : ToolResult * World :=
  match
    validateDocumentId (u_document_id args);;
    match u_metadata args with
    | Some m => validateMetadata h m
    | None => Ok tt
    end;;
    tags ← match u_tags args with
           | Some ts => validated ← validateTags ts; Ok (Some validated)
           | None => Ok None
           end;
    match ChromaStorage.getDocument (u_document_id args) w with
    | None => Throw ("Document not found: " +:+ u_document_id args)
    | Some document =>
        Ok {| p_filename := None; p_filePath := None; p_fileType := None;
              p_tags := tags;
              p_customMetadata :=
                (λ m, m ∪ customMetadata (doc_metadata document)) <$> u_metadata args;
              p_size := None; p_pageCount := None |}
    end
  with
  | Throw msg => ({| tr_success := false; tr_message := msg |}, w)
  | Ok updates =>
      match ChromaStorage.updateDocumentMetadata h (u_document_id args) updates w with
      | (Throw msg, w') => ({| tr_success := false; tr_message := msg |}, w')
      | (Ok _, w') =>
          ({| tr_success := true;
              tr_message := "Document metadata updated successfully" |}, w')
      end
  end.

End ManagementTool.

(** ** The search tool (tools/search.ts) *)

Record SearchArgs := {
  s_query : string;
  max_results : option Z;
  similarity_threshold : option Q;
  filter_metadata : option (gmap string JValue);
  filter_tags : option (list string);
}.

Record FormattedResult := {
  fr_content : string;
  fr_source : string;
  fr_score : Q;
  fr_metadata : gmap string JValue;
  fr_chunk_index : Z;
}.

Module SearchTool.

(** The [SearchOptions] that [searchKnowledge] builds from its arguments. *)
Definition searchOptions (args : SearchArgs) : SearchOptions :=
  {| query := s_query args;
     maxResults := Some (match max_results args with
                         | Some k => if k =? 0 then 10 else k
                         | None => 10
                         end);
     similarityThreshold := Some (default 0%Q (similarity_threshold args));
     filterMetadata := filter_metadata args;
     filterTags := filter_tags args |}.

Definition format (r : SearchResult) : FormattedResult :=
  let d := sr_document r in
  {| fr_content := chunk_content (sr_chunk r);
     fr_source := if JS.truthy (filename (doc_metadata d))
                  then default "" (filename (doc_metadata d)) else doc_id d;
     fr_score := sr_score r;
     fr_metadata :=
       customMetadata (doc_metadata d)
       ∪ {[ "document_id" := JString (doc_id d);
            "file_type" := JString (fileType (doc_metadata d));
            "tags" := JArray (JString <$> tags (doc_metadata d)) ]};
     fr_chunk_index := chunk_index (sr_chunk r) |}.

(** The [try] block of [searchKnowledge]. *)
Definition searchBody (h : Host) (args : SearchArgs) (w : World)
  : result (list FormattedResult) :=
  validateSearchQuery (s_query args);;
  (match filter_metadata args with
   | Some m => validateMetadata h m
   | None => Ok tt
   end : result unit);;
  queryEmbedding ← generateEmbedding h (s_query args);
  found ← ChromaStorage.searchSimilar h queryEmbedding (searchOptions args) w;
  Ok (map format found).

Definition searchKnowledge (h : Host) (args : SearchArgs) (w : World)
  : result (list FormattedResult) :=
  match searchBody h args w with
  | Throw msg => Throw ("Search failed: " +:+ msg)
  | Ok formatted => Ok formatted
  end.

End SearchTool.

(** ** Sentence-aware and paragraph-aware chunking
    (chunking/sentence.ts, chunking/paragraph.ts)

    The sentence tokenizer of the [natural] library and the split of a
    text at [/\n\s*\n/] are parameters. *)

(** [s ? sep : ''] *)
Definition sepIf (s sep : string) : string :=
  if bool_decide (s = "") then "" else sep.

(** The candidates of the loop of [getOverlapText], in the order in which
    it tries them: the last unit, the last two, ... *)
Definition candidates (sep : string) (units : list string) : list string :=
  map (λ i, JS.join sep (drop i units)) (reverse (seq 0 (List.length units))).

Module SentenceChunking.

Definition createChunk (content : string) (index startChar endChar : Z)
  : DocumentChunk :=
  {| chunk_id := ""; chunk_documentId := "";
     chunk_content := JS.trim content;
     chunk_index := index;
     chunk_embedding := None;
     chunk_metadata := {| startChar := startChar; endChar := endChar |} |}.

Definition getOverlapText (tokenize : string → list string) (text : string)
    (overlapSize : Z) : string :=
  if (overlapSize =? 0) || (JS.length text <=? overlapSize) then text
  else
    let sentences := tokenize text in
    let overlap :=
      default "" (List.find (λ p, JS.length p <=? overlapSize)
                    (candidates " " sentences)) in
    if bool_decide (overlap = "")
    then JS.slice text (- overlapSize) (JS.length text)
    else overlap.

(** The variables of the loop of [chunk]. *)
Record LoopState := {
  chunks : list DocumentChunk;
  currentChunk : string;
  currentStart : Z;
  chunkIndex : Z;
}.

Definition init : LoopState :=
  {| chunks := []; currentChunk := ""; currentStart := 0; chunkIndex := 0 |}.

(** One iteration of the loop over the sentences. *)
Definition body (tokenize : string → list string) (options : ChunkingOptions)
    (st : LoopState) (sentence : string) : LoopState :=
  let potentialChunk :=
    currentChunk st +:+ sepIf (currentChunk st) " " +:+ sentence in
  if (chunkSize options <=? JS.length potentialChunk)
     && (0 <? JS.length (currentChunk st))
  then
    let endChar := currentStart st + JS.length (currentChunk st) in
    let overlapText :=
      getOverlapText tokenize (currentChunk st) (chunkOverlap options) in
    {| chunks := chunks st ++ [createChunk (currentChunk st) (chunkIndex st)
                                 (currentStart st) endChar];
       currentChunk := overlapText +:+ sepIf overlapText " " +:+ sentence;
       currentStart := endChar - JS.length overlapText;
       chunkIndex := chunkIndex st + 1 |}
  else
    {| chunks := chunks st; currentChunk := potentialChunk;
       currentStart := currentStart st; chunkIndex := chunkIndex st |}.

(** The last chunk, if there is text left. *)
Definition finish (st : LoopState) : list DocumentChunk :=
  if 0 <? JS.length (JS.trim (currentChunk st))
  then chunks st ++ [createChunk (currentChunk st) (chunkIndex st) (currentStart st)
                       (currentStart st + JS.length (currentChunk st))]
  else chunks st.

Definition chunk (tokenize : string → list string) (text : string)
    (options : ChunkingOptions) : list DocumentChunk :=
  finish (foldl (body tokenize options) init (tokenize text)).

End SentenceChunking.

Module ParagraphChunking.

(** Two line feeds. *)
Definition blankLine : string := String "010" (String "010" "").

Definition createChunk (content : string) (index startChar endChar : Z)
  : DocumentChunk :=
  {| chunk_id := ""; chunk_documentId := "";
     chunk_content := JS.trim content;
     chunk_index := index;
     chunk_embedding := None;
     chunk_metadata := {| startChar := startChar; endChar := endChar |} |}.

Definition getOverlapText (split : string → list string) (text : string)
    (overlapSize : Z) : string :=
  if (overlapSize =? 0) || (JS.length text <=? overlapSize) then text
  else
    let paragraphs := split text in
    let overlap :=
      default "" (List.find (λ p, JS.length p <=? overlapSize)
                    (candidates blankLine paragraphs)) in
    if bool_decide (overlap = "")
    then JS.slice text (- overlapSize) (JS.length text)
    else overlap.

(** The variables of the loop of [chunk]. *)
Record LoopState := {
  chunks : list DocumentChunk;
  currentChunk : string;
  currentStart : Z;
  chunkIndex : Z;
  charPosition : Z;
}.

Definition init : LoopState :=
  {| chunks := []; currentChunk := ""; currentStart := 0; chunkIndex := 0;
     charPosition := 0 |}.

(** One iteration of the loop over the paragraphs. *)
Definition body (split : string → list string) (options : ChunkingOptions)
    (st : LoopState) (paragraph : string) : LoopState :=
  let trimmedParagraph := JS.trim paragraph in
  let potentialChunk :=
    currentChunk st +:+ sepIf (currentChunk st) blankLine +:+ trimmedParagraph in
  if (chunkSize options <=? JS.length potentialChunk)
     && (0 <? JS.length (currentChunk st))
  then
    let endChar := currentStart st + JS.length (currentChunk st) in
    let overlapText :=
      getOverlapText split (currentChunk st) (chunkOverlap options) in
    {| chunks := chunks st ++ [createChunk (currentChunk st) (chunkIndex st)
                                 (currentStart st) endChar];
       currentChunk := overlapText +:+ sepIf overlapText blankLine +:+ trimmedParagraph;
       currentStart := endChar - JS.length overlapText;
       chunkIndex := chunkIndex st + 1;
       charPosition := charPosition st + JS.length paragraph + 2 |}
  else
    {| chunks := chunks st; currentChunk := potentialChunk;
       currentStart := if bool_decide (currentChunk st = "") then charPosition st
                       else currentStart st;
       chunkIndex := chunkIndex st;
       charPosition := charPosition st + JS.length paragraph + 2 |}.

(** The last chunk, if there is text left. *)
Definition finish (st : LoopState) : list DocumentChunk :=
  if 0 <? JS.length (JS.trim (currentChunk st))
  then chunks st ++ [createChunk (currentChunk st) (chunkIndex st) (currentStart st)
                       (currentStart st + JS.length (currentChunk st))]
  else chunks st.

(** [text.split(/\n\s*\n/).filter(p => p.trim().length > 0)] *)
Definition paragraphsOf (split : string → list string) (text : string)
  : list string :=
  List.filter (λ p, 0 <? JS.length (JS.trim p)) (split text).

Definition chunk (split : string → list string) (text : string)
    (options : ChunkingOptions) : list DocumentChunk :=
  finish (foldl (body split options) init (paragraphsOf split text)).

End ParagraphChunking.

(** ** Reading a document back (tools/management.ts, [getDocument])

    [Date.prototype.toISOString] is a parameter. *)

Record ChunkView := {
  cv_index : Z;
  cv_content : string;
  cv_start_char : Z;
  cv_end_char : Z;
}.

Record DocumentView := {
  dv_id : string;
  dv_content : string;
  dv_filename : string;
  dv_file_type : string;
  dv_tags : list string;
  dv_chunks : list ChunkView;
  dv_created_at : string;
  dv_updated_at : string;
}.

Module ManagementQueries.

Definition viewChunk (chunk : DocumentChunk) : ChunkView :=
  {| cv_index := chunk_index chunk;
     cv_content := chunk_content chunk;
     cv_start_char := startChar (chunk_metadata chunk);
     cv_end_char := endChar (chunk_metadata chunk) |}.

Definition view (toISOString : Z → string) (document : Document) : DocumentView :=
  {| dv_id := doc_id document;
     dv_content := doc_content document;
     dv_filename := if JS.truthy (filename (doc_metadata document))
                    then default "" (filename (doc_metadata document))
                    else "Unknown";
     dv_file_type := fileType (doc_metadata document);
     dv_tags := tags (doc_metadata document);
     dv_chunks := map viewChunk (doc_chunks document);
     dv_created_at := toISOString (createdAt document);
     dv_updated_at := toISOString (updatedAt document) |}.

Definition getDocument (toISOString : Z → string) (document_id : string)
    (w : World) : result DocumentView :=
  match
    validateDocumentId document_id;;
    match ChromaStorage.getDocument document_id w with
    | None => Throw ("Document not found: " +:+ document_id)
    | Some document => Ok (view toISOString document)
    end
  with
  | Throw msg => Throw ("Document retrieval failed: " +:+ msg)
  | Ok v => Ok v
  end.

End ManagementQueries.

(** ** The allowed file types of the loaded configuration
    (utils/config.ts, [loadConfig]) *)

(** [s.split(c)] for a separator of one code unit. *)
Fixpoint splitOn (c : ascii) (s : string) : list string :=
  match s with
  | EmptyString => [""]
  | String x s' =>
      if bool_decide (x = c) then "" :: splitOn c s'
      else match splitOn c s' with
           | piece :: pieces => String x piece :: pieces
           | [] => [String x ""]
           end
  end.

(** The value that [loadConfig] gives to [allowedFileTypes], from the
    environment variable [ALLOWED_FILE_TYPES]. *)
Definition loadAllowedFileTypes (ALLOWED_FILE_TYPES : option string) : list string :=
  if JS.truthy ALLOWED_FILE_TYPES then splitOn "," (default "" ALLOWED_FILE_TYPES)
  else [".pdf"; ".PDF"; ".docx"; ".DOCX"; ".txt"; ".TXT"; ".md"; ".MD";
        ".csv"; ".CSV"; ".json"; ".JSON"; ".html"; ".HTML"].

(** ** A host for the examples *)

(** MD5 (RFC 1321) on the code units of a string, as
    [crypto.createHash('md5').update(s).digest('hex')] computes it for
    ASCII input. *)
Module MD5.

Definition mask32 : N := 4294967295.

Definition add32 (x y : N) : N := N.land (x + y) mask32.

Definition rotl32 (x c : N) : N :=
  N.land (N.lor (N.shiftl x c) (N.shiftr x (32 - c))) mask32.

Definition not32 (x : N) : N := N.lxor x mask32.

Definition K : list N :=
  [ 3614090360; 3905402710; 606105819; 3250441966;
    4118548399; 1200080426; 2821735955; 4249261313;
    1770035416; 2336552879; 4294925233; 2304563134;
    1804603682; 4254626195; 2792965006; 1236535329;
    4129170786; 3225465664; 643717713; 3921069994;
    3593408605; 38016083; 3634488961; 3889429448;
    568446438; 3275163606; 4107603335; 1163531501;
    2850285829; 4243563512; 1735328473; 2368359562;
    4294588738; 2272392833; 1839030562; 4259657740;
    2763975236; 1272893353; 4139469664; 3200236656;
    681279174; 3936430074; 3572445317; 76029189;
    3654602809; 3873151461; 530742520; 3299628645;
    4096336452; 1126891415; 2878612391; 4237533241;
    1700485571; 2399980690; 4293915773; 2240044497;
    1873313359; 4264355552; 2734768916; 1309151649;
    4149444226; 3174756917; 718787259; 3951481745 ]%N.

Definition shifts : list N :=
  [ 7; 12; 17; 22; 7; 12; 17; 22; 7; 12; 17; 22; 7; 12; 17; 22;
    5; 9; 14; 20; 5; 9; 14; 20; 5; 9; 14; 20; 5; 9; 14; 20;
    4; 11; 16; 23; 4; 11; 16; 23; 4; 11; 16; 23; 4; 11; 16; 23;
    6; 10; 15; 21; 6; 10; 15; 21; 6; 10; 15; 21; 6; 10; 15; 21 ]%N.

(** The message bytes, the bit [1], zeros up to 56 modulo 64, and the
    length in bits as 8 little-endian bytes. *)
Definition pad (bytes : list N) : list N :=
  let len := List.length bytes in
  let zeros := ((119 - len mod 64) mod 64)%nat in
  let bits := (8 * N.of_nat len)%N in
  bytes ++ [128%N] ++ replicate zeros 0%N
  ++ map (λ i, N.land (N.shiftr bits (8 * N.of_nat i)) 255) (seq 0 8).

(** Little-endian 32-bit words. *)
Fixpoint words (n : nat) (bytes : list N) : list N :=
  match n, bytes with
  | S n', b0 :: b1 :: b2 :: b3 :: rest =>
      (b0 + N.shiftl b1 8 + N.shiftl b2 16 + N.shiftl b3 24)%N :: words n' rest
  | _, _ => []
  end.

Definition step (M : list N) (st : N * N * N * N) (i : nat) : N * N * N * N :=
  let '(A, B, C, D) := st in
  let '(F, g) :=
    if (i <? 16)%nat then
      (N.lor (N.land B C) (N.land (not32 B) D), i)
    else if (i <? 32)%nat then
      (N.lor (N.land D B) (N.land (not32 D) C), (5 * i + 1) mod 16)%nat
    else if (i <? 48)%nat then
      (N.lxor (N.lxor B C) D, (3 * i + 5) mod 16)%nat
    else
      (N.lxor C (N.lor B (not32 D)), (7 * i) mod 16)%nat in
  let F' := add32 (add32 (add32 F A) (K !!! i)) (M !!! g) in
  (D, add32 B (rotl32 F' (shifts !!! i)), B, C).

Definition block (M : list N) (st : N * N * N * N) : N * N * N * N :=
  let '(a0, b0, c0, d0) := st in
  let '(A, B, C, D) := foldl (step M) st (seq 0 64) in
  (add32 a0 A, add32 b0 B, add32 c0 C, add32 d0 D).

Fixpoint blocks (n : nat) (ws : list N) (st : N * N * N * N) : N * N * N * N :=
  match n with
  | O => st
  | S n' => blocks n' (drop 16 ws) (block (take 16 ws) st)
  end.

Definition hexDigit (n : N) : ascii :=
  ascii_of_N (if (n <? 10)%N then 48 + n else 87 + n).

(** The 8 hexadecimal digits of a word, least significant byte first. *)
Definition hexWord (x : N) : string :=
  foldr (λ i s, let b := N.land (N.shiftr x (8 * N.of_nat i)) 255 in
                String (hexDigit (b / 16)) (String (hexDigit (b mod 16)) s))
    "" (seq 0 4).

Definition hex (s : string) : string :=
  let bytes := pad (map N_of_ascii (list_ascii_of_string s)) in
  let ws := words (List.length bytes / 4) bytes in
  let '(a, b, c, d) :=
    blocks (List.length ws / 16) ws
      (1732584193, 4023233417, 2562383102, 271733878)%N in
  hexWord a +:+ hexWord b +:+ hexWord c +:+ hexWord d.

End MD5.

#[global] Instance result_fmap : FMap result := λ A B f r,
  match r with
  | Ok a => Ok (f a)
  | Throw msg => Throw msg
  end.

Module TestHost.

(** [Math.sqrt] on the rationals whose numerator and denominator are
    perfect squares (exact there). *)
Definition sqrt (q : Q) : Q := Z.sqrt (Qnum q) # Pos.sqrt (Qden q).

(** The part of [p] after its last slash. *)
Fixpoint basename (p : string) : string :=
  match p with
  | String c p' =>
      if JS.str_includes p' "/" then basename p'
      else if bool_decide (c = "/"%char) then p' else p
  | EmptyString => EmptyString
  end.

(** The part of [s] from its last dot on, [""] when there is none. *)
Fixpoint fromLastDot (s : string) : string :=
  match s with
  | String c s' =>
      if JS.str_includes s' "." then fromLastDot s'
      else if bool_decide (c = "."%char) then s else ""
  | EmptyString => EmptyString
  end.

Definition extname (p : string) : string :=
  match basename p with
  | String c rest => fromLastDot rest
  | EmptyString => EmptyString
  end.

(** A directory [/docs] of five text files, the third one empty, and two
    reports of the same name in [/a] and [/b]. *)
Definition disk : list (string * string) :=
  [ ("/docs/one.txt", "The first document.");
    ("/docs/two.txt", "The second document.");
    ("/docs/three.txt", "");
    ("/docs/four.txt", "The fourth document.");
    ("/docs/five.txt", "The fifth document.");
    ("/a/report.txt", "Report of team A.");
    ("/b/report.txt", "Report of team B.") ].

Definition readFile (p : string) : result string :=
  match List.find (λ f, bool_decide (f.1 = p)) disk with
  | Some f => Ok f.2
  | None => Throw ("ENOENT: no such file or directory, open '" +:+ p +:+ "'")
  end.

Definition stat (p : string) : FsResult Stats :=
  match List.find (λ f, bool_decide (f.1 = p)) disk with
  | Some f => FsOk {| isFile := true; isDirectory := false;
                      stat_size := JS.length f.2 |}
  | None =>
      if JS.includes ["/docs"; "/a"; "/b"] p
      then FsOk {| isFile := false; isDirectory := true; stat_size := 4096 |}
      else FsNoEntry ("ENOENT: no such file or directory, stat '" +:+ p +:+ "'")
  end.

Definition readdir (p : string) : result (list Dirent) :=
  if bool_decide (p = "/docs") then
    Ok [ FileEntry "one.txt"; FileEntry "two.txt"; FileEntry "three.txt";
         FileEntry "four.txt"; FileEntry "five.txt" ]
  else if bool_decide (p = "/a") then Ok [ FileEntry "report.txt" ]
  else if bool_decide (p = "/b") then Ok [ FileEntry "report.txt" ]
  else Throw ("ENOENT: no such file or directory, scandir '" +:+ p +:+ "'").

(** A host whose clock stands still, whose provider embeds every text as
    the unit vector [(1, 0)], and which has no processor but the text
    one. *)
Definition host : Host :=
  {| Math_sqrt := sqrt;
     Date_now := λ _, 1700000000000;
     md5_hex := MD5.hex;
     JSON_stringify_length := λ m,
       2 + map_fold (λ k _ n, JS.length k + 8 + n) 0 m;
     path_resolve := λ p, p;
     path_basename := basename;
     path_extname := extname;
     path_join := λ a b, a +:+ "/" +:+ b;
     fs_stat := stat;
     fs_readFile := readFile;
     fs_readdir := readdir;
     process_other := λ type _, Throw ("no " +:+ type +:+ " processor");
     SentenceChunking_chunk := λ _ _, Throw "no sentence tokenizer";
     ParagraphChunking_chunk := λ _ _, Throw "no paragraph splitter";
     generateEmbedding := λ _, Ok [1; 0]%Q;
     generateEmbeddings := λ texts, Ok (map (λ _, [1; 0]%Q) texts) |}.

Definition config : ServerConfig :=
  {| storageDir := "/storage";
     chromaDbDir := "/chroma";
     embeddingConfig := {| provider := "transformers";
                           model := "Xenova/all-MiniLM-L6-v2";
                           apiKey := None |};
     chunkingOptions := fixed_1000_200;
     maxFileSize := 104857600;
     allowedFileTypes := ["pdf"; "docx"; "txt"; "md"; "csv"; "json"; "html"] |}.

Definition empty : World :=
  {| files := ∅; vectorIndex := []; clockReads := 0 |}.

(** A text of 2600 characters without white space. *)
Definition text2600 : string := JS.repeat "a" 2600.

(** A stored document with one chunk per given embedding. *)
Definition document (id : string) (tags : list string)
    (custom : gmap string JValue) (embeddings : list (list Q)) : Document :=
  {| doc_id := id;
     doc_content := "Some text.";
     doc_metadata := {| filename := Some "notes.txt"; filePath := None;
                        fileType := "txt"; tags := tags;
                        customMetadata := custom; size := Some 10;
                        pageCount := None |};
     doc_chunks :=
       imap (λ i e, {| chunk_id := ChromaStorage.chunkKey id (Z.of_nat i);
                       chunk_documentId := id;
                       chunk_content := "Some text.";
                       chunk_index := Z.of_nat i;
                       chunk_embedding := Some e;
                       chunk_metadata := {| startChar := 0; endChar := 10 |} |})
         embeddings;
     createdAt := 1700000000000;
     updatedAt := 1700000000000 |}.

(** Two documents with the same embedding, the one with the greater id
    stored first. *)
Definition tied : World :=
  ChromaStorage.storeDocument (document "doc_1_a" [] ∅ [[1; 0]%Q])
    (ChromaStorage.storeDocument (document "doc_2_b" [] ∅ [[1; 0]%Q]) empty).

(** A document embedded in three dimensions and one embedded in two,
    opposite to the query [(1, 0)]. *)
Definition mixed : World :=
  ChromaStorage.storeDocument (document "doc_2_opposite" [] ∅ [[-1; 0]%Q])
    (ChromaStorage.storeDocument (document "doc_1_mixed" [] ∅ [[1; 0; 0]%Q]) empty).

(** One document tagged [research] whose author is Y. *)
Definition notes : World :=
  ChromaStorage.storeDocument
    (document "doc_1_notes" ["research"] {[ "author" := JString "Y" ]} [[1; 0]%Q])
    empty.

(** The ingestion of a text with the tag [a] given twice, once padded. *)
Definition tagged : IngestArgs :=
  {| file_path := None; text_content := Some "Some text.";
     arg_metadata := None; arg_tags := Some ["a"; " a "; "  "] |}.

(** The options of a search for the [k] best matches. *)
Definition best (k : Z) : SearchOptions :=
  {| query := "text"; maxResults := Some k; similarityThreshold := None;
     filterMetadata := None; filterTags := None |}.

(** What a search returns, or nothing if it throws. *)
Definition found (r : result (list SearchResult)) : list SearchResult :=
  match r with
  | Ok results => results
  | Throw _ => []
  end.

(** The chunk id and the score of a hit. *)
Definition hit (r : SearchResult) : string * Q :=
  (chunk_id (sr_chunk r), Qred (sr_score r)).

End TestHost.

(** ** Predicates of the specification *)

(** An entry of the index that carries an embedding. *)
Definition hasEmbedding (kv : string * IndexEntry) : Prop :=
  is_Some (ie_embedding kv.2).

(** A tag as [validateTags] leaves it: trimmed and not empty. *)
Definition tag_ok (tag : string) : Prop := JS.trim tag = tag ∧ tag ≠ "".

Definition tags_ok (d : Document) : Prop := Forall tag_ok (tags (doc_metadata d)).

(** Every stored document has trimmed, non-empty tags. *)
Definition store_tags_ok (w : World) : Prop :=
  ∀ id d, files w !! id = Some d → tags_ok d.

(** ** Predicates for the further properties *)

(** The stride of the fixed-size window. *)
Definition stride (options : ChunkingOptions) : Z :=
  chunkSize options - chunkOverlap options.

(** What every chunk of [FixedChunking.chunk] looks like: a window that
    starts at a multiple of the stride and is [chunkSize] long or cut at
    the end of the text, with the trimmed, non-empty text of the window as
    content and the fields that the caller sets still empty. *)
Definition fixedChunk (text : string) (options : ChunkingOptions)
    (c : DocumentChunk) : Prop :=
  let s := startChar (chunk_metadata c) in
  let e := endChar (chunk_metadata c) in
  (∃ k, 0 ≤ k ∧ s = k * stride options) ∧
  0 ≤ s ∧ s < e ∧ e ≤ JS.length text ∧
  e = Z.min (s + chunkSize options) (JS.length text) ∧
  chunk_content c = JS.trim (JS.slice text s e) ∧
  chunk_content c ≠ "" ∧
  chunk_id c = "" ∧ chunk_documentId c = "" ∧ chunk_embedding c = None.

(** The indices of a chunk sequence are 0, 1, ..., n-1. *)
Definition contiguous (cs : list DocumentChunk) : Prop :=
  chunk_index <$> cs = Z.of_nat <$> seq 0 (List.length cs).

(** The code unit of [text] at position [i] is not white space. *)
Definition inked (text : string) (i : Z) : Prop :=
  ∃ c, String.get (Z.to_nat i) text = Some c ∧ JS.isWhiteSpace c = false.

(** The chunk [c] covers position [i]. *)
Definition covers (c : DocumentChunk) (i : Z) : Prop :=
  startChar (chunk_metadata c) ≤ i < endChar (chunk_metadata c).

(** The store is consistent: every document is filed under its own id, the
    keys of the vector index are distinct, every key is the chunk key of
    its entry, and every entry belongs to a stored document. *)
Definition store_consistent (w : World) : Prop :=
  (∀ id d, files w !! id = Some d → doc_id d = id) ∧
  NoDup (vectorIndex w).*1 ∧
  Forall (λ kv, kv.1 = ChromaStorage.chunkKey (ie_documentId kv.2) (ie_chunkIndex kv.2)
                ∧ is_Some (files w !! ie_documentId kv.2)) (vectorIndex w).



(** A search result that the index and the store account for: it comes
    from an entry of the index whose document is stored and is the
    document of the result, its chunk is the first chunk of that document
    with the index of the entry, its score is the similarity of the query
    with the entry's embedding, and its distance is one minus its score. *)
Definition accounted (h : Host) (embedding : list Q) (w : World)
    (r : SearchResult) : Prop :=
  ∃ kv e,
    kv ∈ vectorIndex w ∧
    ie_embedding kv.2 = Some e ∧
    ChromaStorage.getDocument (ie_documentId kv.2) w = Some (sr_document r) ∧
    List.find (λ c, chunk_index c =? ie_chunkIndex kv.2) (doc_chunks (sr_document r))
      = Some (sr_chunk r) ∧
    sr_score r = ChromaStorage.cosineSimilarity h embedding e ∧
    sr_distance r = (1 - sr_score r)%Q.

(** A chunk of the stored document [d] as ingestion leaves it: it names
    its document, its id is its key in the vector index, where its entry
    carries its embedding, and its content is the trimmed text of its range
    of the document, not empty. *)
Definition indexedChunk (w : World) (d : Document) (c : DocumentChunk) : Prop :=
  chunk_documentId c = doc_id d ∧
  chunk_id c = ChromaStorage.chunkKey (doc_id d) (chunk_index c) ∧
  (chunk_id c, {| ie_embedding := chunk_embedding c; ie_documentId := doc_id d;
                  ie_chunkIndex := chunk_index c |}) ∈ vectorIndex w ∧
  chunk_content c = JS.trim (JS.slice (doc_content d) (startChar (chunk_metadata c))
                               (endChar (chunk_metadata c))) ∧
  chunk_content c ≠ "".

(** The characters that [sanitizeFilename] keeps: [[a-zA-Z0-9._-]]. *)
Definition isFilenameChar (c : ascii) : bool :=
  isIdChar c || (N_of_ascii c =? 46)%N.

(** Every code unit of [s] satisfies [p]. *)
Definition allChars (p : ascii → bool) (s : string) : bool :=
  forallb p (list_ascii_of_string s).

(** A chunk as the sentence and paragraph strategies make it: no id, no
    document and no embedding yet, a trimmed content that is not longer
    than its range, and a range that starts at 0 or later. *)
Definition rangedChunk (c : DocumentChunk) : Prop :=
  chunk_id c = "" ∧ chunk_documentId c = "" ∧ chunk_embedding c = None ∧
  JS.trim (chunk_content c) = chunk_content c ∧
  0 ≤ startChar (chunk_metadata c) ∧
  JS.length (chunk_content c)
    ≤ endChar (chunk_metadata c) - startChar (chunk_metadata c).

(** Each chunk starts no earlier than the one before it and no later than
    where that one ends: ranges overlap or touch, and leave no gap. *)
Definition chained (cs : list DocumentChunk) : Prop :=
  ∀ i c c', cs !! i = Some c → cs !! S i = Some c' →
    startChar (chunk_metadata c) ≤ startChar (chunk_metadata c')
    ∧ startChar (chunk_metadata c') ≤ endChar (chunk_metadata c).

(** What holds of the variables of the loop of the sentence strategy
    after [n] sentences. *)
Definition sentenceInvariant (n : nat) (st : SentenceChunking.LoopState) : Prop :=
  contiguous (SentenceChunking.chunks st) ∧
  SentenceChunking.chunkIndex st
    = Z.of_nat (List.length (SentenceChunking.chunks st)) ∧
  Forall rangedChunk (SentenceChunking.chunks st) ∧
  chained (SentenceChunking.chunks st) ∧
  0 ≤ SentenceChunking.currentStart st ∧
  (∀ c, head (SentenceChunking.chunks st) = Some c →
        startChar (chunk_metadata c) = 0) ∧
  match last (SentenceChunking.chunks st) with
  | Some c => startChar (chunk_metadata c) ≤ SentenceChunking.currentStart st
              ≤ endChar (chunk_metadata c)
  | None => SentenceChunking.currentStart st = 0
  end ∧
  (List.length (SentenceChunking.chunks st)
   + (if bool_decide (SentenceChunking.currentChunk st = "") then 0 else 1)
   ≤ n)%nat.

(** What holds of the variables of the loop of the paragraph strategy
    after [n] paragraphs. *)
Definition paragraphInvariant (n : nat) (st : ParagraphChunking.LoopState) : Prop :=
  contiguous (ParagraphChunking.chunks st) ∧
  ParagraphChunking.chunkIndex st
    = Z.of_nat (List.length (ParagraphChunking.chunks st)) ∧
  Forall rangedChunk (ParagraphChunking.chunks st) ∧
  chained (ParagraphChunking.chunks st) ∧
  0 ≤ ParagraphChunking.currentStart st ∧
  (∀ c, head (ParagraphChunking.chunks st) = Some c →
        startChar (chunk_metadata c) = 0) ∧
  match last (ParagraphChunking.chunks st) with
  | Some c => startChar (chunk_metadata c) ≤ ParagraphChunking.currentStart st
              ≤ endChar (chunk_metadata c)
  | None => ParagraphChunking.currentStart st = 0
  end ∧
  (ParagraphChunking.currentChunk st = "" →
   ParagraphChunking.charPosition st = 0 ∧ ParagraphChunking.chunks st = []) ∧
  (List.length (ParagraphChunking.chunks st)
   + (if bool_decide (ParagraphChunking.currentChunk st = "") then 0 else 1)
   ≤ n)%nat.

(** What [path.extname] returns: nothing, or a dot followed by text
    without a dot. *)
Definition extnameShape (e : string) : Prop :=
  e = "" ∨ ∃ rest, e = String "." rest ∧ JS.occurs "." rest = false.

(** Whether [s] starts with a dot. *)
Definition startsWithDot (s : string) : bool :=
  match s with
  | String c _ => bool_decide (c = "."%char)
  | EmptyString => false
  end.

(** * Properties *)

(** ** MD5 test vectors (RFC 1321) *)

Example md5_empty : MD5.hex "" = "d41d8cd98f00b204e9800998ecf8427e".
Proof. vm_compute. reflexivity. Qed.

Example md5_abc : MD5.hex "abc" = "900150983cd24fb0d6963f7d28e17f72".
Proof. vm_compute. reflexivity. Qed.

Example md5_message_digest :
  MD5.hex "message digest" = "f96b697d7cb7938d525a2f31aaf161d0".
Proof. vm_compute. reflexivity. Qed.

Example md5_two_blocks :
  MD5.hex "12345678901234567890123456789012345678901234567890123456789012345678901234567890"
  = "57edf4a22be3c955ac49da2e2107b67a".
Proof. vm_compute. reflexivity. Qed.

(** ** Strings *)

Lemma trimStart_blank s : JS.blank s = true → JS.trimStart s = "".
Proof.
  induction s as [|c s IH]; simpl; [done|].
  destruct (JS.isWhiteSpace c); simpl; [exact IH | discriminate].
Qed.

Lemma blank_trimStart s : JS.blank (JS.trimStart s) = JS.blank s.
Proof.
  induction s as [|c s IH]; simpl; [done|].
  destruct (JS.isWhiteSpace c) eqn:Hc; simpl; [exact IH | by rewrite Hc].
Qed.

Lemma trimEnd_empty_iff s : JS.trimEnd s = "" ↔ JS.blank s = true.
Proof.
  destruct s as [|c s]; [done|].
  cbn [JS.trimEnd]. destruct (JS.blank (String c s)); split; congruence.
Qed.

Lemma trim_empty_iff s : JS.trim s = "" ↔ JS.blank s = true.
Proof. unfold JS.trim. by rewrite trimEnd_empty_iff, blank_trimStart. Qed.

(** [s.trim().length > 0] holds exactly for the strings that are not blank. *)
Lemma trim_length_pos s : (0 <? JS.length (JS.trim s)) = negb (JS.blank s).
Proof.
  destruct (JS.blank s) eqn:Hb; simpl.
  - apply trim_empty_iff in Hb. by rewrite Hb.
  - destruct (JS.trim s) as [|c t] eqn:Ht.
    + apply trim_empty_iff in Ht. congruence.
    + unfold JS.length. simpl String.length. apply Z.ltb_lt. lia.
Qed.

(** ** Fixed-size chunking *)

Module FixedChunkingFacts.
Import FixedChunking.

Lemma loop_step fuel text options st :
  position st < JS.length text →
  loop (S fuel) text options st = loop fuel text options (body text options st).
Proof. intros H. simpl. apply Z.ltb_lt in H. by rewrite H. Qed.

Lemma loop_stop fuel text options st :
  JS.length text ≤ position st →
  loop fuel text options st = Some (chunks st).
Proof.
  intros H. apply Z.ltb_ge in H. destruct fuel; simpl; by rewrite H.
Qed.

Lemma body_chunks text options st :
  chunks (body text options st) =
  chunks st ++ emitted text options (position st) (chunkIndex st).
Proof.
  unfold body, emitted. rewrite trim_length_pos.
  destruct (JS.blank _); simpl; [by rewrite app_nil_r | done].
Qed.

Lemma body_chunkIndex text options st :
  chunkIndex (body text options st) =
  chunkIndex st +
  Z.of_nat (List.length (emitted text options (position st) (chunkIndex st))).
Proof.
  unfold body, emitted. rewrite trim_length_pos.
  destruct (JS.blank _); simpl; lia.
Qed.

Lemma body_position text options st :
  position (body text options st) =
  let p := position st + (chunkSize options - chunkOverlap options) in
  if p <=? 0 then chunkSize options else p.
Proof. unfold body. by destruct (0 <? _). Qed.

(** One iteration from an explicit state whose position advances. *)
Lemma loop_advance fuel text options cs i p :
  p < JS.length text →
  0 < p + (chunkSize options - chunkOverlap options) →
  loop (S fuel) text options {| chunks := cs; chunkIndex := i; position := p |} =
  loop fuel text options
    {| chunks := cs ++ emitted text options p i;
       chunkIndex := i + Z.of_nat (List.length (emitted text options p i));
       position := p + (chunkSize options - chunkOverlap options) |}.
Proof.
  intros Hlt Hpos. rewrite loop_step by done. f_equal.
  pose proof (body_chunks text options {| chunks := cs; chunkIndex := i; position := p |}) as Hc.
  pose proof (body_chunkIndex text options {| chunks := cs; chunkIndex := i; position := p |}) as Hi.
  pose proof (body_position text options {| chunks := cs; chunkIndex := i; position := p |}) as Hp.
  cbn [chunks chunkIndex position] in Hc, Hi, Hp.
  apply Z.leb_gt in Hpos. cbv zeta in Hp. rewrite Hpos in Hp.
  destruct (body _ _ _) as [cs' i' p']. cbn [chunks chunkIndex position] in *.
  by subst.
Qed.

(** With a positive stride the loop stops within [length - position]
    further iterations. *)
Lemma loop_terminates fuel text options st :
  0 < chunkSize options - chunkOverlap options →
  0 ≤ position st →
  JS.length text - position st < Z.of_nat fuel →
  is_Some (loop fuel text options st).
Proof.
  intros Hstride. revert st.
  induction fuel as [|fuel IH]; intros st Hp Hfuel.
  - rewrite loop_stop by lia. done.
  - destruct (Z.lt_ge_cases (position st) (JS.length text)) as [Hlt|Hge].
    + rewrite loop_step by done.
      pose proof (body_position text options st) as Hb. cbv zeta in Hb.
      destruct (Z.leb_spec (position st + (chunkSize options - chunkOverlap options)) 0);
        [lia|].
      apply IH; rewrite Hb; lia.
    + rewrite loop_stop by done. done.
Qed.

(** With a stride that is not positive the position never passes
    [max 0 chunkSize]. *)
Lemma loop_diverges fuel text options st :
  chunkSize options - chunkOverlap options ≤ 0 →
  position st ≤ Z.max 0 (chunkSize options) →
  Z.max 0 (chunkSize options) < JS.length text →
  loop fuel text options st = None.
Proof.
  intros Hstride. revert st.
  induction fuel as [|fuel IH]; intros st Hp Hlen.
  - simpl. destruct (Z.ltb_spec (position st) (JS.length text)); [done|lia].
  - rewrite loop_step by lia. apply IH; [|done].
    rewrite body_position. cbv zeta.
    destruct (Z.leb_spec (position st + (chunkSize options - chunkOverlap options)) 0);
      lia.
Qed.

(** The bound of [chunk] loses nothing: a run that has not stopped after
    [length text + 1] iterations never stops. *)
Lemma loop_bound_complete text options :
  chunk text options = None →
  ∀ fuel, loop fuel text options init = None.
Proof.
  unfold chunk. intros Hnone fuel.
  destruct (Z.lt_ge_cases 0 (chunkSize options - chunkOverlap options)) as [Hs|Hs].
  - assert (is_Some (loop (S (String.length text)) text options init)) as [? Hsome].
    { apply loop_terminates; [done| unfold init; simpl; lia |].
      unfold JS.length, init. simpl position. lia. }
    congruence.
  - destruct (Z.lt_ge_cases (Z.max 0 (chunkSize options)) (JS.length text)) as [Hl|Hl].
    + apply loop_diverges; [lia | unfold init; simpl; lia | done].
    + exfalso. destruct (String.length text) as [|n] eqn:Hn.
      * rewrite loop_stop in Hnone; [done|]. unfold JS.length. rewrite Hn. simpl. lia.
      * assert (0 < JS.length text) by (unfold JS.length; lia).
        rewrite loop_step in Hnone by (simpl; lia).
        rewrite loop_stop in Hnone; [done|].
        rewrite body_position. cbv zeta. simpl position.
        destruct (Z.leb_spec (0 + (chunkSize options - chunkOverlap options)) 0); lia.
Qed.

(** [chunk] returns whenever the overlap is smaller than the size. *)
Lemma chunk_terminates text options :
  chunkOverlap options < chunkSize options →
  is_Some (chunk text options).
Proof.
  intros H. apply loop_terminates; [lia | simpl; lia |].
  unfold JS.length. simpl. lia.
Qed.

End FixedChunkingFacts.

(** C1, as amended. On a text of exactly 2600 characters, fixed chunking with
    size 1000 and overlap 200 visits the four windows [0,1000), [800,1800),
    [1600,2600) and [2400,2600) and returns one chunk for each window that
    is not white space only, in this order: the loop runs while
    [position < length], so the last 200 characters come again as a short
    fourth chunk. *)
Theorem fixed_chunk_2600 text :
  String.length text = 2600%nat →
  map range <$> FixedChunking.chunk text fixed_1000_200 =
  Some (List.filter (nonblank text) windows_2600).
Proof.
  intros Hlen.
  assert (HL : JS.length text = 2600) by (unfold JS.length; rewrite Hlen; done).
  unfold FixedChunking.chunk. rewrite Hlen.
  change (S 2600) with (4 + 2597)%nat.
  generalize 2597%nat as fuel. intros fuel.
  cbn [Nat.add]. unfold FixedChunking.init.
  do 4 (rewrite FixedChunkingFacts.loop_advance
          by (rewrite ?HL; cbn [chunkSize chunkOverlap fixed_1000_200]; lia)).
  rewrite FixedChunkingFacts.loop_stop
    by (rewrite HL; cbn [FixedChunking.position chunkSize chunkOverlap fixed_1000_200]; lia).
  cbn [FixedChunking.chunks fmap option_fmap option_map]. f_equal.
  unfold FixedChunking.emitted, windows_2600, nonblank. rewrite !HL.
  cbn [chunkSize chunkOverlap fixed_1000_200 List.filter fst snd].
  change (0 + (1000 - 200)) with 800.
  change (800 + (1000 - 200)) with 1600.
  change (1600 + (1000 - 200)) with 2400.
  change (Z.min (0 + 1000) 2600) with 1000.
  change (Z.min (800 + 1000) 2600) with 1800.
  change (Z.min (1600 + 1000) 2600) with 2600.
  change (Z.min (2400 + 1000) 2600) with 2600.
  destruct (JS.blank (JS.slice text 0 1000)),
    (JS.blank (JS.slice text 800 1800)),
    (JS.blank (JS.slice text 1600 2600)),
    (JS.blank (JS.slice text 2400 2600)); reflexivity.
Qed.

(** The theorem at a text of 2600 letters: all four windows give a chunk. *)
Lemma fixed_chunk_2600_witness :
  String.length TestHost.text2600 = 2600%nat ∧
  map range <$> FixedChunking.chunk TestHost.text2600 fixed_1000_200 =
  Some [(0, 1000); (800, 1800); (1600, 2600); (2400, 2600)].
Proof.
  split; [reflexivity|].
  rewrite (fixed_chunk_2600 TestHost.text2600 eq_refl).
  vm_compute. reflexivity.
Defined.

(** C1 as stated fails: 2600 letters give four chunks, not three. *)
Lemma fixed_chunk_2600_not_three :
  String.length TestHost.text2600 = 2600%nat ∧
  (List.length <$> FixedChunking.chunk TestHost.text2600 fixed_1000_200) = Some 4%nat ∧
  map range <$> FixedChunking.chunk TestHost.text2600 fixed_1000_200 ≠
  Some [(0, 1000); (800, 1800); (1600, 2600)].
Proof.
  split; [reflexivity|]. split; [vm_compute; reflexivity|].
  vm_compute. discriminate.
Qed.

(** ** Configuration *)

(** What a configuration that passes [validateConfig] satisfies. *)
Lemma validateConfig_ok config :
  validateConfig config = Ok tt →
  100 ≤ chunkSize (chunkingOptions config) ∧
  chunkOverlap (chunkingOptions config) < chunkSize (chunkingOptions config).
Proof.
  unfold validateConfig, throwIf, mbind, result_bind.
  repeat (match goal with
          | |- context [if ?b then _ else _] => destruct b eqn:?
          end; try discriminate).
  intros _. split; [apply Z.ltb_ge | apply Z.leb_gt]; assumption.
Qed.

(** A text longer than [max 0 size] makes [chunk] loop forever when the
    overlap is not smaller than the size. *)
Lemma chunk_diverges text options :
  chunkSize options ≤ chunkOverlap options →
  Z.max 0 (chunkSize options) < JS.length text →
  FixedChunking.chunk text options = None.
Proof.
  intros Hle Hlen. apply FixedChunkingFacts.loop_diverges; [lia | simpl; lia | done].
Qed.

(** With size = overlap = 100 a text of 2600 characters is never chunked
    to the end. *)
Example chunk_diverges_2600 :
  FixedChunking.chunk TestHost.text2600
    {| chunkSize := 100; chunkOverlap := 100; strategy := "fixed" |} = None.
Proof. apply chunk_diverges; vm_compute; done. Qed.

(** C2, as amended. For every configuration with size ≤ overlap,
    [validateConfig], which the server runs once at start-up before it
    reads any document, throws an error; when the checks before it pass
    (both directories named, one of the three providers, an API key for a
    provider other than transformers, one of the three strategies, a chunk
    size of at least 100), the error is "Chunk overlap must be less than
    chunk size". ([chunk] itself checks nothing.) *)
Theorem validateConfig_rejects_overlap config :
  chunkSize (chunkingOptions config) ≤ chunkOverlap (chunkingOptions config) →
  (∃ msg, validateConfig config = Throw msg) ∧
  (storageDir config ≠ "" → chromaDbDir config ≠ "" →
   provider (embeddingConfig config) ∈ ["transformers"; "openai"; "cohere"] →
   (provider (embeddingConfig config) ≠ "transformers" →
    ∃ key, apiKey (embeddingConfig config) = Some key ∧ key ≠ "") →
   strategy (chunkingOptions config) ∈ ["sentence"; "paragraph"; "fixed"] →
   100 ≤ chunkSize (chunkingOptions config) →
   validateConfig config = Throw "Chunk overlap must be less than chunk size").
Proof.
  intros Hle. split.
  - destruct (validateConfig config) as [[]|msg] eqn:Hv; [|by eexists].
    apply validateConfig_ok in Hv. lia.
  - intros Hs Hc Hp Hkey Hst Hsize. unfold validateConfig.
    rewrite (bool_decide_eq_false_2 (storageDir config = "")) by done.
    rewrite (bool_decide_eq_false_2 (chromaDbDir config = "")) by done.
    unfold JS.includes.
    rewrite (bool_decide_eq_true_2 (provider _ ∈ _)) by done.
    rewrite (bool_decide_eq_true_2 (strategy _ ∈ _)) by done.
    assert (negb (bool_decide (provider (embeddingConfig config) = "transformers"))
            && match apiKey (embeddingConfig config) with
               | None => true
               | Some k => bool_decide (k = "")
               end = false) as ->.
    { case_bool_decide as Hprovider; [done|].
      destruct (Hkey Hprovider) as (key & -> & Hne).
      by rewrite bool_decide_eq_false_2. }
    apply Z.ltb_ge in Hsize. apply Z.leb_le in Hle.
    simpl. rewrite Hsize. simpl. rewrite Hle. reflexivity.
Qed.

(** The theorem at a configuration for the OpenAI provider, with an API
    key, whose overlap is raised to the chunk size. *)
Lemma validateConfig_rejects_overlap_witness :
  validateConfig
    {| storageDir := "/storage"; chromaDbDir := "/chroma";
       embeddingConfig := {| provider := "openai";
                             model := "text-embedding-3-small";
                             apiKey := Some "sk-key" |};
       chunkingOptions := {| chunkSize := 1000; chunkOverlap := 1000;
                             strategy := "fixed" |};
       maxFileSize := 104857600; allowedFileTypes := ["txt"] |}
  = Throw "Chunk overlap must be less than chunk size".
Proof.
  refine (proj2 (validateConfig_rejects_overlap _ _) _ _ _ _ _ _);
    simpl; try done; try lia.
  - constructor 2. constructor 1.
  - intros _. by exists "sk-key".
  - do 2 constructor 2. constructor 1.
Defined.

(** C2 as stated fails: with size = overlap = 100, [chunk] neither throws
    nor diverges on a short text; it returns one chunk. *)
Lemma chunk_returns_with_overlap_not_below_size :
  map range <$> FixedChunking.chunk "hello"
    {| chunkSize := 100; chunkOverlap := 100; strategy := "fixed" |}
  = Some [(0, 5)].
Proof. vm_compute. reflexivity. Qed.

(** ** Sorting and slicing *)

Section sort_descending.
Context {A : Type} (key : A → Q).

(** The comparator [(a, b) => key(b) - key(a)]. *)
Let cmp (a b : A) : Q := (key b - key a)%Q.
Let desc (a b : A) : Prop := (key b <= key a)%Q.

Lemma cmp_keeps a b : Qle_bool (cmp a b) 0 = true ↔ desc a b.
Proof. unfold cmp, desc. rewrite Qle_bool_iff. split; intros; lra. Qed.

Lemma cmp_swaps a b : Qle_bool (cmp a b) 0 = false → (key a < key b)%Q.
Proof.
  intros H. apply Qnot_le_lt. intros Hle.
  apply (proj2 (cmp_keeps a b)) in Hle. congruence.
Qed.

Lemma sort_insert_perm x l : JS.sort_insert cmp x l ≡ₚ x :: l.
Proof.
  induction l as [|y l IH]; simpl; [done|].
  destruct (Qle_bool (cmp x y) 0); [done|].
  rewrite IH. apply Permutation_swap.
Qed.

Lemma sort_perm l : JS.sort cmp l ≡ₚ l.
Proof.
  induction l as [|x l IH]; simpl; [done|].
  unfold JS.sort in *. simpl. by rewrite sort_insert_perm, IH.
Qed.

Lemma sort_insert_sorted x l :
  StronglySorted desc l → StronglySorted desc (JS.sort_insert cmp x l).
Proof.
  induction 1 as [|y l Hl IH Hy]; simpl.
  - repeat constructor.
  - destruct (Qle_bool (cmp x y) 0) eqn:Hc.
    + apply cmp_keeps in Hc. constructor; [by constructor|].
      constructor; [done|].
      eapply Forall_impl; [exact Hy|]. unfold desc in *. intros z Hz. lra.
    + apply cmp_swaps in Hc. constructor; [done|].
      rewrite sort_insert_perm. constructor; [|done].
      unfold desc. lra.
Qed.

Lemma sort_sorted l : StronglySorted desc (JS.sort cmp l).
Proof.
  induction l as [|x l IH]; [constructor|].
  apply sort_insert_sorted, IH.
Qed.

(** The sort is stable: elements of equal key keep their order. *)
Lemma sort_insert_stable s x l :
  List.filter (λ y, Qeq_bool (key y) s) (JS.sort_insert cmp x l) =
  List.filter (λ y, Qeq_bool (key y) s) (x :: l).
Proof.
  induction l as [|y l IH]; [done|].
  cbn [JS.sort_insert]. destruct (Qle_bool (cmp x y) 0) eqn:Hc; [done|].
  apply cmp_swaps in Hc.
  cbn [List.filter] in *. rewrite IH.
  destruct (Qeq_bool (key x) s) eqn:Hx, (Qeq_bool (key y) s) eqn:Hy; try done.
  apply Qeq_bool_eq in Hx, Hy. rewrite Hx, Hy in Hc.
  by apply Qlt_irrefl in Hc.
Qed.

Lemma sort_stable s l :
  List.filter (λ y, Qeq_bool (key y) s) (JS.sort cmp l) =
  List.filter (λ y, Qeq_bool (key y) s) l.
Proof.
  induction l as [|x l IH]; [done|].
  change (JS.sort cmp (x :: l)) with (JS.sort_insert cmp x (JS.sort cmp l)).
  rewrite sort_insert_stable. cbn [List.filter]. by rewrite IH.
Qed.

End sort_descending.

(** [slice(0, k)] is a prefix, of at most [k] elements when [k] is not
    negative. *)
Lemma sliceA_0_take {A} (l : list A) k :
  JS.sliceA l 0 k = take (Z.to_nat (JS.clamp (Z.of_nat (List.length l)) k)) l.
Proof.
  unfold JS.sliceA.
  assert (JS.clamp (Z.of_nat (List.length l)) 0 = 0) as ->.
  { unfold JS.clamp. simpl. lia. }
  simpl drop. f_equal. unfold JS.clamp. destruct (k <? 0) eqn:Hk; lia.
Qed.

Lemma sliceA_0_length {A} (l : list A) k :
  0 ≤ k → (List.length (JS.sliceA l 0 k) ≤ Z.to_nat k)%nat.
Proof.
  intros Hk. rewrite sliceA_0_take, length_take. unfold JS.clamp.
  destruct (Z.ltb_spec k 0); lia.
Qed.

Lemma filter_take_prefix {A} (p : A → bool) n (l : list A) :
  List.filter p (take n l) `prefix_of` List.filter p l.
Proof.
  exists (List.filter p (drop n l)).
  by rewrite <- List.filter_app, take_drop.
Qed.

Lemma StronglySorted_take {A} (R : A → A → Prop) n (l : list A) :
  StronglySorted R l → StronglySorted R (take n l).
Proof.
  intros H. rewrite <- (take_drop n l) in H.
  by apply StronglySorted_app_1_l in H.
Qed.

(** A partial map that preserves the keys preserves the order. *)
Lemma StronglySorted_omap {A B} (R : A → A → Prop) (R' : B → B → Prop)
    (f : A → option B) (l : list A) :
  (∀ x y x' y', R x y → f x = Some x' → f y = Some y' → R' x' y') →
  StronglySorted R l → StronglySorted R' (omap f l).
Proof.
  intros Hf. induction 1 as [|x l Hl IH Hx]; simpl; [constructor|].
  destruct (f x) as [x'|] eqn:Hfx; [|done].
  constructor; [done|].
  apply Forall_forall. intros y' Hy'.
  apply list_elem_of_omap in Hy' as (y & Hy & Hfy).
  rewrite Forall_forall in Hx. eauto.
Qed.

Lemma length_omap_le {A B} (f : A → option B) (l : list A) :
  (List.length (omap f l) ≤ List.length l)%nat.
Proof.
  induction l as [|x l IH]; [done|].
  cbn [omap list_omap]. destruct (f x); cbn [List.length]; lia.
Qed.

(** In a sorted list an element comes before the elements it strictly
    precedes in the order. *)
Lemma StronglySorted_lookup_lt {A} (R : A → A → Prop) (l : list A) i j x y :
  StronglySorted R l → l !! i = Some x → l !! j = Some y →
  ¬ R y x → x ≠ y → (i < j)%nat.
Proof.
  intros Hs Hi Hj Hn Hne.
  destruct (Nat.lt_trichotomy i j) as [?|[->|Hlt]]; [done|congruence|].
  exfalso. apply Hn.
  revert i j Hi Hj Hlt. induction Hs as [|z l Hl IH Hz]; intros i j Hi Hj Hlt.
  - done.
  - destruct j as [|j]; simpl in *.
    + destruct i as [|i]; [lia|]. simplify_eq. simpl in Hi.
      rewrite Forall_forall in Hz. apply Hz. by eapply list_elem_of_lookup_2.
    + destruct i as [|i]; [lia|]. simpl in Hi. eapply IH; eauto with lia.
Qed.

(** ** Similarity search *)

Module SearchFacts.
Import ChromaStorage.

(** The first loop throws exactly when an entry has no embedding;
    otherwise it keeps, in index order, the candidates that pass the
    threshold. *)
Lemma similaritiesOf_ok h embedding options entries :
  Forall hasEmbedding entries →
  similaritiesOf h embedding options entries =
  Ok (List.filter (λ x, negb (belowThreshold options (score x)))
        (omap (scoredEntry h embedding) entries)).
Proof.
  induction 1 as [|[key data] entries [e He] _ IH]; [done|].
  cbn [similaritiesOf]. simpl in He. rewrite He, IH.
  assert (scoredEntry h embedding (key, data) =
          Some {| chunkId := key; score := cosineSimilarity h embedding e;
                  documentId := ie_documentId data;
                  chunkIndex := ie_chunkIndex data |}) as Hs
    by (unfold scoredEntry; simpl; by rewrite He).
  cbn [omap list_omap]. rewrite Hs. cbn [List.filter score mbind result_bind].
  by destruct (belowThreshold options _).
Qed.

Lemma similaritiesOf_inv h embedding options entries similarities :
  similaritiesOf h embedding options entries = Ok similarities →
  Forall hasEmbedding entries.
Proof.
  revert similarities. induction entries as [|[key data] entries IH];
    intros similarities Hs; [constructor|].
  cbn [similaritiesOf] in Hs.
  destruct (ie_embedding data) as [e|] eqn:He; [|done].
  destruct (similaritiesOf h embedding options entries) as [rest|] eqn:Hrest; [|done].
  constructor; [by exists e | by eapply IH].
Qed.

Lemma maxResultsOf_pos options k :
  maxResults options = Some k → 1 ≤ k → maxResultsOf options = k.
Proof.
  intros Hk Hpos. unfold maxResultsOf. rewrite Hk.
  destruct (Z.eqb_spec k 0); [lia|done].
Qed.

Lemma belowThreshold_false options t x :
  similarityThreshold options = Some t → ¬ (t == 0)%Q →
  belowThreshold options x = false → (t <= x)%Q.
Proof.
  intros Ht Hne. unfold belowThreshold. rewrite Ht.
  destruct (Qeq_bool t 0) eqn:Hz; [by apply Qeq_bool_eq in Hz|].
  simpl. intros Hle. apply negb_false_iff in Hle. by apply Qle_bool_iff.
Qed.

Lemma buildResult_score w options r result :
  buildResult w options r = Some result → sr_score result = score r.
Proof.
  unfold buildResult. intros H.
  repeat case_match; by simplify_eq.
Qed.

Lemma survivors_sublist h embedding (p : Similarity → bool) entries :
  (chunkId <$> List.filter p (omap (scoredEntry h embedding) entries))
  `sublist_of` entries.*1.
Proof.
  induction entries as [|[key data] entries IH]; [done|].
  cbn [omap list_omap].
  destruct (scoredEntry h embedding (key, data)) as [x|] eqn:Hx.
  - assert (chunkId x = key) as Hkey.
    { unfold scoredEntry in Hx. simpl in Hx.
      destruct (ie_embedding data); by simplify_eq/=. }
    cbn [List.filter]. destruct (p x); cbn [fmap list_fmap].
    + rewrite Hkey. by apply sublist_skip.
    + by apply sublist_cons.
  - by apply sublist_cons.
Qed.

Lemma topResults_elem options similarities x :
  x ∈ topResults options similarities → x ∈ similarities.
Proof.
  unfold topResults. rewrite sliceA_0_take. intros Hx.
  apply elem_of_take in Hx as (i & Hi & _).
  apply list_elem_of_lookup_2 in Hi.
  by rewrite (sort_perm score) in Hi.
Qed.

End SearchFacts.

(** C3, as amended. For every index, query embedding, k ≥ 1 and non-zero
    threshold: a search that returns drops the entries scoring below the
    threshold, orders the survivors by descending score, leaves survivors
    of equal score in the order of the index (the sort is stable; chunk ids
    are not compared), and returns at most k results. *)
Theorem searchSimilar_ranking h embedding options w results :
  ChromaStorage.searchSimilar h embedding options w = Ok results →
  ∃ survivors,
    let ranked := ChromaStorage.topResults options survivors in
    ChromaStorage.similaritiesOf h embedding options (vectorIndex w) = Ok survivors ∧
    (chunkId <$> survivors) `sublist_of` (vectorIndex w).*1 ∧
    results = omap (ChromaStorage.buildResult w options) ranked ∧
    (∀ t, similarityThreshold options = Some t → ¬ (t == 0)%Q →
       Forall (λ x, (t <= score x)%Q) survivors ∧
       Forall (λ r, (t <= sr_score r)%Q) results) ∧
    StronglySorted (λ a b, (score b <= score a)%Q) ranked ∧
    StronglySorted (λ a b, (sr_score b <= sr_score a)%Q) results ∧
    (∀ s, List.filter (λ x, Qeq_bool (score x) s) ranked
          `prefix_of` List.filter (λ x, Qeq_bool (score x) s) survivors) ∧
    (∀ k, maxResults options = Some k → 1 ≤ k →
       (List.length ranked ≤ Z.to_nat k)%nat ∧
       (List.length results ≤ Z.to_nat k)%nat).
Proof.
  unfold ChromaStorage.searchSimilar. intros Hsearch.
  destruct (ChromaStorage.similaritiesOf h embedding options (vectorIndex w))
    as [survivors|] eqn:Hsim; [|done].
  injection Hsearch as <-. exists survivors. cbv zeta.
  pose proof (SearchFacts.similaritiesOf_inv _ _ _ _ _ Hsim) as Hemb.
  rewrite (SearchFacts.similaritiesOf_ok _ _ _ _ Hemb) in Hsim.
  injection Hsim as Hsurv.
  assert (Hsorted : StronglySorted (λ a b, (score b <= score a)%Q)
                      (ChromaStorage.topResults options survivors)).
  { unfold ChromaStorage.topResults. rewrite sliceA_0_take.
    apply StronglySorted_take, (sort_sorted score). }
  assert (Hthreshold : ∀ t, similarityThreshold options = Some t → ¬ (t == 0)%Q →
            Forall (λ x, (t <= score x)%Q) survivors).
  { intros t Ht Hne. rewrite <- Hsurv. apply Forall_forall. intros x Hx.
    apply list_elem_of_In, filter_In in Hx as [_ Hx].
    apply negb_true_iff in Hx.
    by eapply SearchFacts.belowThreshold_false. }
  split_and!.
  - done.
  - rewrite <- Hsurv. apply SearchFacts.survivors_sublist.
  - done.
  - intros t Ht Hne. split; [by apply Hthreshold|].
    apply Forall_forall. intros r Hr.
    apply list_elem_of_omap in Hr as (x & Hx & Hb).
    rewrite (SearchFacts.buildResult_score _ _ _ _ Hb).
    apply SearchFacts.topResults_elem in Hx.
    specialize (Hthreshold t Ht Hne). rewrite Forall_forall in Hthreshold. auto.
  - done.
  - eapply StronglySorted_omap; [|exact Hsorted].
    intros x y x' y' Hxy Hx Hy. simpl.
    by rewrite (SearchFacts.buildResult_score _ _ _ _ Hx),
      (SearchFacts.buildResult_score _ _ _ _ Hy).
  - intros s. unfold ChromaStorage.topResults. rewrite sliceA_0_take.
    rewrite <- (sort_stable score s survivors). apply filter_take_prefix.
  - intros k Hk Hpos.
    assert ((List.length (ChromaStorage.topResults options survivors) ≤ Z.to_nat k)%nat).
    { unfold ChromaStorage.topResults.
      rewrite (SearchFacts.maxResultsOf_pos _ _ Hk Hpos).
      apply sliceA_0_length. lia. }
    split; [done|].
    etrans; [apply length_omap_le|done].
Qed.

(** The theorem at a search for the 3 best matches among two entries of
    equal score. *)
Lemma searchSimilar_ranking_witness :
  let results := TestHost.found
    (ChromaStorage.searchSimilar TestHost.host [1; 0]%Q (TestHost.best 3) TestHost.tied) in
  ChromaStorage.searchSimilar TestHost.host [1; 0]%Q (TestHost.best 3) TestHost.tied
    = Ok results ∧
  StronglySorted (λ a b, (sr_score b <= sr_score a)%Q) results ∧
  (List.length results ≤ 3)%nat.
Proof.
  cbv zeta.
  assert (ChromaStorage.searchSimilar TestHost.host [1; 0]%Q (TestHost.best 3) TestHost.tied
          = Ok (TestHost.found (ChromaStorage.searchSimilar TestHost.host [1; 0]%Q
                                  (TestHost.best 3) TestHost.tied))) as Hs
    by (vm_compute; reflexivity).
  destruct (searchSimilar_ranking _ _ _ _ _ Hs)
    as (survivors & _ & _ & _ & _ & _ & Hsorted & _ & Hk).
  split; [exact Hs|]. split; [exact Hsorted|].
  apply (Hk 3); [reflexivity | lia].
Defined.

(** C3 as stated fails: two entries of equal score come out in the order
    in which they were stored, the greater chunk id first. *)
Lemma searchSimilar_ties_in_index_order :
  map TestHost.hit <$> ChromaStorage.searchSimilar TestHost.host [1; 0]%Q
                         (TestHost.best 3) TestHost.tied
  = Ok [("doc_2_b_chunk_0", 1%Q); ("doc_1_a_chunk_0", 1%Q)] ∧
  String.ltb "doc_1_a_chunk_0" "doc_2_b_chunk_0" = true.
Proof. split; vm_compute; reflexivity. Qed.

(** [cosineSimilarity] of two vectors of unequal length is exactly 0. *)
Lemma cosineSimilarity_mismatch h (a b : list Q) :
  List.length a ≠ List.length b → ChromaStorage.cosineSimilarity h a b = 0%Q.
Proof.
  intros Hne. unfold ChromaStorage.cosineSimilarity.
  by rewrite (proj2 (Nat.eqb_neq _ _) Hne).
Qed.

(** A search throws only when an entry of the index has no embedding. *)
Lemma searchSimilar_returns h embedding options w :
  Forall hasEmbedding (vectorIndex w) →
  ∃ results, ChromaStorage.searchSimilar h embedding options w = Ok results.
Proof.
  intros Hemb. unfold ChromaStorage.searchSimilar.
  rewrite (SearchFacts.similaritiesOf_ok _ _ _ _ Hemb). by eexists.
Qed.

(** C10, as amended. [cosineSimilarity] of two vectors of unequal length is
    exactly 0; so, on an index whose entries all carry an embedding, a
    search never throws, and an entry whose embedding has another dimension
    than the query is scored 0 and kept (unless a positive threshold drops
    it), ranked by that score: after every candidate of positive score and
    before every candidate of negative score. *)
Theorem search_dimension_mismatch h embedding options w :
  Forall hasEmbedding (vectorIndex w) →
  (∀ a b : list Q, List.length a ≠ List.length b →
     ChromaStorage.cosineSimilarity h a b = 0%Q) ∧
  ∃ results survivors,
    let ranked := ChromaStorage.topResults options survivors in
    ChromaStorage.searchSimilar h embedding options w = Ok results ∧
    ChromaStorage.similaritiesOf h embedding options (vectorIndex w) = Ok survivors ∧
    results = omap (ChromaStorage.buildResult w options) ranked ∧
    (∀ key data e,
       (key, data) ∈ vectorIndex w → ie_embedding data = Some e →
       List.length e ≠ List.length embedding →
       ChromaStorage.belowThreshold options 0 = false →
       {| chunkId := key; score := 0; documentId := ie_documentId data;
          chunkIndex := ie_chunkIndex data |} ∈ survivors) ∧
    (∀ i j x y, ranked !! i = Some x → ranked !! j = Some y →
       (0 < score x)%Q → (score y == 0)%Q → (i < j)%nat) ∧
    (∀ i j x y, ranked !! i = Some x → ranked !! j = Some y →
       (score x == 0)%Q → (score y < 0)%Q → (i < j)%nat).
Proof.
  intros Hemb. split; [apply cosineSimilarity_mismatch|].
  unfold ChromaStorage.searchSimilar.
  rewrite (SearchFacts.similaritiesOf_ok _ _ _ _ Hemb).
  eexists _, _. cbv zeta. split; [reflexivity|]. split; [reflexivity|].
  split; [reflexivity|].
  set (survivors := List.filter _ _).
  assert (Hsorted : StronglySorted (λ a b, (score b <= score a)%Q)
                      (ChromaStorage.topResults options survivors)).
  { unfold ChromaStorage.topResults. rewrite sliceA_0_take.
    apply StronglySorted_take, (sort_sorted score). }
  split_and!.
  - intros key data e Hin He Hlen Hkeep.
    apply list_elem_of_In, filter_In. split.
    + apply list_elem_of_In, list_elem_of_omap. exists (key, data). split; [done|].
      unfold ChromaStorage.scoredEntry. simpl. rewrite He. simpl.
      rewrite cosineSimilarity_mismatch by done. done.
    + simpl. by rewrite Hkeep.
  - intros i j x y Hi Hj Hx Hy.
    eapply (StronglySorted_lookup_lt _ _ i j x y Hsorted Hi Hj).
    + simpl. rewrite Hy. lra.
    + intros ->. rewrite Hy in Hx. by apply Qlt_irrefl in Hx.
  - intros i j x y Hi Hj Hx Hy.
    eapply (StronglySorted_lookup_lt _ _ i j x y Hsorted Hi Hj).
    + simpl. rewrite Hx. lra.
    + intros ->. rewrite Hx in Hy. by apply Qlt_irrefl in Hy.
Qed.

(** The theorem at the index that holds a three-dimensional entry and a
    two-dimensional one, searched with a two-dimensional query. *)
Lemma search_dimension_mismatch_witness :
  Forall hasEmbedding (vectorIndex TestHost.mixed) ∧
  ∃ results,
    ChromaStorage.searchSimilar TestHost.host [1; 0]%Q (TestHost.best 3) TestHost.mixed
    = Ok results.
Proof.
  assert (Forall hasEmbedding (vectorIndex TestHost.mixed)) as Hemb.
  { repeat constructor; by eexists. }
  split; [exact Hemb|].
  destruct (search_dimension_mismatch TestHost.host [1; 0]%Q (TestHost.best 3)
              TestHost.mixed Hemb) as (_ & results & _ & Hres & _).
  by exists results.
Defined.

(** C10 as stated fails in its last part: the entry of another dimension
    is scored 0 and ranked above an entry whose similarity is negative, not
    at the bottom. *)
Lemma mismatched_entry_not_at_the_bottom :
  map TestHost.hit <$> ChromaStorage.searchSimilar TestHost.host [1; 0]%Q
                         (TestHost.best 3) TestHost.mixed
  = Ok [("doc_1_mixed_chunk_0", 0%Q); ("doc_2_opposite_chunk_0", (-1)%Q)].
Proof. vm_compute. reflexivity. Qed.

(** ** Filters *)

(** [searchSimilar] never reads [filterMetadata]. *)
Lemma searchSimilar_ignores_filterMetadata h embedding options w fm :
  ChromaStorage.searchSimilar h embedding
    {| query := query options; maxResults := maxResults options;
       similarityThreshold := similarityThreshold options;
       filterMetadata := fm; filterTags := filterTags options |} w
  = ChromaStorage.searchSimilar h embedding options w.
Proof.
  unfold ChromaStorage.searchSimilar.
  set (options' := {| query := query options; filterMetadata := fm |}).
  assert (∀ entries, ChromaStorage.similaritiesOf h embedding options' entries
                     = ChromaStorage.similaritiesOf h embedding options entries) as ->.
  { induction entries as [|[key data] entries IH]; [done|].
    cbn [ChromaStorage.similaritiesOf]. by rewrite IH. }
  by destruct (ChromaStorage.similaritiesOf _ _ _ _).
Qed.

(** The tag filter is any-of: every hit's document carries one of the
    tags of a non-empty [filterTags]. *)
Lemma searchSimilar_tags_any_of h embedding options w results t ts :
  ChromaStorage.searchSimilar h embedding options w = Ok results →
  filterTags options = Some (t :: ts) →
  Forall (λ r, ∃ tag, tag ∈ t :: ts ∧ tag ∈ tags (doc_metadata (sr_document r)))
    results.
Proof.
  unfold ChromaStorage.searchSimilar. intros Hs Htags.
  destruct (ChromaStorage.similaritiesOf _ _ _ _) as [sims|]; [|done].
  injection Hs as <-. apply Forall_forall. intros r Hr.
  apply list_elem_of_omap in Hr as (x & _ & Hb).
  unfold ChromaStorage.buildResult in Hb.
  destruct (ChromaStorage.getDocument _ _) as [document|]; [|done].
  destruct (ChromaStorage.rejectedByTags options document) eqn:Hrej; [done|].
  destruct (List.find _ _); [|done]. injection Hb as <-. simpl.
  unfold ChromaStorage.rejectedByTags in Hrej. rewrite Htags in Hrej.
  apply negb_false_iff, existsb_exists in Hrej as (tag & Hin & Hinc).
  exists tag. split; [by apply list_elem_of_In|].
  by apply bool_decide_eq_true_1 in Hinc.
Qed.

(** C5 at the failing input: a search filtered by author X returns the hit
    of a document whose author is Y. *)
Theorem searchSimilar_returns_other_author :
  map (λ r, (doc_id (sr_document r),
             customMetadata (doc_metadata (sr_document r)) !! "author"))
    <$> ChromaStorage.searchSimilar TestHost.host [1; 0]%Q
          {| query := "text"; maxResults := Some 3; similarityThreshold := None;
             filterMetadata := Some {[ "author" := JString "X" ]};
             filterTags := Some ["research"] |}
          TestHost.notes
  = Ok [("doc_1_notes", Some (JString "Y"))].
Proof. vm_compute. reflexivity. Qed.

(** ** Deleting documents *)

Lemma filter_idemp {A} (p : A → bool) (l : list A) :
  List.filter p (List.filter p l) = List.filter p l.
Proof.
  induction l as [|x l IH]; [done|].
  simpl. destruct (p x) eqn:Hp; simpl; [by rewrite Hp, IH | done].
Qed.

Lemma storage_deleteDocument_lookup id w :
  files (ChromaStorage.deleteDocument id w) !! id = None.
Proof. simpl. apply lookup_delete_eq. Qed.

(** The storage-level delete is idempotent. *)
Lemma storage_deleteDocument_idemp id w :
  ChromaStorage.deleteDocument id (ChromaStorage.deleteDocument id w) =
  ChromaStorage.deleteDocument id w.
Proof.
  unfold ChromaStorage.deleteDocument, FileSystemStorage.deleteDocument,
    set_vectorIndex, set_files. simpl.
  by rewrite filter_idemp, (delete_id (delete id (files w))) by apply lookup_delete_eq.
Qed.

(** C6, as amended. After a successful [deleteDocument] of the management
    tool, a second call for the same id does not throw and leaves the store
    and the vector index unchanged, but it reports a failure: success is
    false and the message is "Document not found: <id>" (the tool checks
    that the document exists before it deletes). The delete of the storage
    layer is idempotent: repeated on the state that the first call left,
    it changes nothing. *)
Theorem deleteDocument_twice id w r1 w1 :
  ManagementTool.deleteDocument id w = (r1, w1) →
  tr_success r1 = true →
  ManagementTool.deleteDocument id w1 =
    ({| tr_success := false; tr_message := "Document not found: " +:+ id |}, w1) ∧
  ChromaStorage.deleteDocument id w1 = w1.
Proof.
  unfold ManagementTool.deleteDocument.
  destruct (validateDocumentId id) as [[]|msg] eqn:Hid; simpl;
    [|intros [= <- <-]; done].
  destruct (ChromaStorage.getDocument id w) as [document|] eqn:Hdoc; simpl;
    [|intros [= <- <-]; done].
  intros [= <- <-] _.
  unfold ChromaStorage.getDocument, FileSystemStorage.loadDocument.
  rewrite storage_deleteDocument_lookup. simpl.
  split; [done | apply storage_deleteDocument_idemp].
Qed.

(** The theorem at the store that holds the document [doc_1_notes]. *)
Lemma deleteDocument_twice_witness :
  let first := ManagementTool.deleteDocument "doc_1_notes" TestHost.notes in
  tr_success first.1 = true ∧
  ManagementTool.deleteDocument "doc_1_notes" first.2 =
    ({| tr_success := false; tr_message := "Document not found: doc_1_notes" |},
     first.2).
Proof.
  cbv zeta. split; [reflexivity|].
  refine (proj1 (deleteDocument_twice "doc_1_notes" TestHost.notes _ _ _ _));
    [apply surjective_pairing | reflexivity].
Defined.

(** C6 as stated fails: the second call reports a failure. *)
Lemma second_deleteDocument_reports_failure :
  let first := ManagementTool.deleteDocument "doc_1_notes" TestHost.notes in
  first.1 = {| tr_success := true;
               tr_message := "Document doc_1_notes deleted successfully" |} ∧
  (ManagementTool.deleteDocument "doc_1_notes" first.2).1 =
    {| tr_success := false; tr_message := "Document not found: doc_1_notes" |}.
Proof. split; vm_compute; reflexivity. Qed.

(** ** Updating metadata *)

Lemma validateTags_ok ts :
  (List.length ts ≤ 100)%nat →
  validateTags ts = Ok (List.filter (λ tag, 0 <? JS.length tag) (map JS.trim ts)).
Proof.
  intros Hlen. unfold validateTags.
  by rewrite (proj2 (Z.ltb_ge _ _)) by lia.
Qed.

Lemma validateTags_inv ts validated :
  validateTags ts = Ok validated →
  validated = List.filter (λ tag, 0 <? JS.length tag) (map JS.trim ts).
Proof.
  unfold validateTags. destruct (100 <? _); simpl; [done|]. by intros [= <-].
Qed.

(** C8. For an existing document and arguments that pass validation,
    [updateDocumentMetadata] succeeds and the stored document has the
    supplied customMetadata merged over the existing one (keys that are not
    supplied keep their value, supplied keys are added or overwritten) and,
    if tags are supplied, the supplied tags (trimmed, empty ones dropped)
    in place of the old ones; content, chunks, the other documents and the
    vector index are unchanged. Merging {"author":"X"} into {"year":2024}
    gives {"year":2024,"author":"X"}. *)
Theorem updateDocumentMetadata_merges h args w document :
  validateDocumentId (u_document_id args) = Ok tt →
  (∀ m, u_metadata args = Some m → validateMetadata h m = Ok tt) →
  (∀ ts, u_tags args = Some ts → (List.length ts ≤ 100)%nat) →
  files w !! u_document_id args = Some document →
  doc_id document = u_document_id args →
  ∃ document' w',
    ManagementTool.updateDocumentMetadata h args w =
      ({| tr_success := true;
          tr_message := "Document metadata updated successfully" |}, w') ∧
    files w' !! u_document_id args = Some document' ∧
    customMetadata (doc_metadata document') =
      match u_metadata args with
      | Some m => m ∪ customMetadata (doc_metadata document)
      | None => customMetadata (doc_metadata document)
      end ∧
    (∀ key, customMetadata (doc_metadata document') !! key =
            match u_metadata args ≫= (.!! key) with
            | Some v => Some v
            | None => customMetadata (doc_metadata document) !! key
            end) ∧
    tags (doc_metadata document') =
      match u_tags args with
      | Some ts => List.filter (λ tag, 0 <? JS.length tag) (map JS.trim ts)
      | None => tags (doc_metadata document)
      end ∧
    doc_id document' = doc_id document ∧
    doc_content document' = doc_content document ∧
    doc_chunks document' = doc_chunks document ∧
    (∀ id, id ≠ u_document_id args → files w' !! id = files w !! id) ∧
    vectorIndex w' = vectorIndex w ∧
    (u_metadata args = Some {[ "author" := JString "X" ]} →
     customMetadata (doc_metadata document) = {[ "year" := JNumber 2024 ]} →
     customMetadata (doc_metadata document') =
       {[ "year" := JNumber 2024; "author" := JString "X" ]}).
Proof.
  intros Hid Hmeta Htags Hdoc Hkey.
  unfold ManagementTool.updateDocumentMetadata.
  rewrite Hid. cbn [mbind result_bind].
  assert (match u_metadata args with
          | Some m => validateMetadata h m
          | None => Ok tt
          end = Ok tt) as ->.
  { destruct (u_metadata args) as [m|]; [by apply Hmeta | done]. }
  assert (match u_tags args with
          | Some ts => validateTags ts ≫= λ validated, Ok (Some validated)
          | None => Ok None
          end = Ok ((λ ts, List.filter (λ tag, 0 <? JS.length tag) (map JS.trim ts))
                      <$> u_tags args)) as ->.
  { destruct (u_tags args) as [ts|]; [|done].
    by rewrite (validateTags_ok ts) by auto. }
  unfold ChromaStorage.updateDocumentMetadata, ChromaStorage.getDocument,
    FileSystemStorage.loadDocument.
  rewrite Hdoc. simpl.
  eexists _, _. split; [reflexivity|]. simpl. rewrite Hkey.
  rewrite lookup_insert_eq. split; [reflexivity|]. simpl.
  assert (Hmerged :
    default (customMetadata (doc_metadata document))
      ((λ m, m ∪ customMetadata (doc_metadata document)) <$> u_metadata args) =
    match u_metadata args with
    | Some m => m ∪ customMetadata (doc_metadata document)
    | None => customMetadata (doc_metadata document)
    end) by by destruct (u_metadata args).
  split_and!; try done.
  - intros key. rewrite Hmerged.
    destruct (u_metadata args) as [m|]; simpl; [|done].
    rewrite lookup_union. by destruct (m !! key), (_ !! key).
  - by destruct (u_tags args).
  - intros id Hne. by rewrite lookup_insert_ne.
  - intros Hm Hold. rewrite Hmerged, Hm, Hold.
    apply map_eq. intros key. rewrite lookup_union.
    destruct (decide (key = "author")) as [->|]; [done|].
    destruct (decide (key = "year")) as [->|]; [done|].
    by rewrite lookup_insert_ne, !lookup_singleton_ne.
Qed.

(** The theorem at the scenario: a document whose customMetadata is
    {"year":2024} is updated with {"author":"X"}. *)
Lemma updateDocumentMetadata_merges_witness :
  let w := ChromaStorage.storeDocument
             (TestHost.document "doc_1_notes" ["research"]
                {[ "year" := JNumber 2024 ]} [[1; 0]%Q]) TestHost.empty in
  let args := {| u_document_id := "doc_1_notes";
                 u_metadata := Some {[ "author" := JString "X" ]};
                 u_tags := None |} in
  ∃ document' w',
    ManagementTool.updateDocumentMetadata TestHost.host args w =
      ({| tr_success := true;
          tr_message := "Document metadata updated successfully" |}, w') ∧
    files w' !! "doc_1_notes" = Some document' ∧
    customMetadata (doc_metadata document') =
      {[ "year" := JNumber 2024; "author" := JString "X" ]} ∧
    tags (doc_metadata document') = ["research"].
Proof.
  cbv zeta.
  edestruct (updateDocumentMetadata_merges TestHost.host
               {| u_document_id := "doc_1_notes";
                  u_metadata := Some {[ "author" := JString "X" ]};
                  u_tags := None |}
               (ChromaStorage.storeDocument
                  (TestHost.document "doc_1_notes" ["research"]
                     {[ "year" := JNumber 2024 ]} [[1; 0]%Q]) TestHost.empty))
    as (document' & w' & Hrun & Hlookup & _ & _ & Htags & _ & _ & _ & _ & _ & Hscenario).
  - reflexivity.
  - intros m [= <-]. reflexivity.
  - intros ts [=].
  - reflexivity.
  - reflexivity.
  - exists document', w'. split_and!; [exact Hrun | exact Hlookup | | exact Htags].
    apply Hscenario; reflexivity.
Defined.

(** ** Tags *)

Lemma blank_trimEnd s : JS.blank (JS.trimEnd s) = JS.blank s.
Proof.
  induction s as [|c s IH]; [done|].
  cbn [JS.trimEnd]. destruct (JS.blank (String c s)) eqn:Hb; [done|].
  cbn [JS.blank] in *. by rewrite IH.
Qed.

Lemma trimEnd_idemp s : JS.trimEnd (JS.trimEnd s) = JS.trimEnd s.
Proof.
  induction s as [|c s IH]; [done|].
  cbn [JS.trimEnd]. destruct (JS.blank (String c s)) eqn:Hb; [done|].
  cbn [JS.trimEnd]. cbn [JS.blank] in *. by rewrite blank_trimEnd, Hb, IH.
Qed.

(** A string that does not start with white space is left by [trimStart]. *)
Lemma trimStart_trimEnd_trimStart s :
  JS.trimStart (JS.trimEnd (JS.trimStart s)) = JS.trimEnd (JS.trimStart s).
Proof.
  induction s as [|c s IH]; [done|].
  cbn [JS.trimStart]. destruct (JS.isWhiteSpace c) eqn:Hc; [done|].
  cbn [JS.trimEnd JS.blank]. rewrite Hc. simpl. by rewrite Hc.
Qed.

Lemma trim_idemp s : JS.trim (JS.trim s) = JS.trim s.
Proof.
  unfold JS.trim. by rewrite trimStart_trimEnd_trimStart, trimEnd_idemp.
Qed.

Lemma validateTags_tag_ok ts validated :
  validateTags ts = Ok validated → Forall tag_ok validated.
Proof.
  intros ->%validateTags_inv. apply Forall_forall. intros tag Htag.
  apply list_elem_of_In, filter_In in Htag as [Hin Hlen].
  apply in_map_iff in Hin as (raw & <- & _). split; [apply trim_idemp|].
  intros Hempty. rewrite Hempty in Hlen. discriminate.
Qed.

(** ** Ingestion *)

Lemma bind_Ok {A B} (r : result A) (k : A → result B) b :
  r ≫= k = Ok b → ∃ a, r = Ok a ∧ k a = Ok b.
Proof. destruct r as [a|]; [by exists a | done]. Qed.

Lemma bind_Throw {A B} (r : result A) (k : A → result B) msg :
  r = Throw msg → r ≫= k = Throw msg.
Proof. by intros ->. Qed.

(** The tags of a prepared ingestion are the validated tags of the
    arguments. *)
Lemma prepare_tags h config args p :
  IngestTool.prepare h config args = Ok p →
  match arg_tags args with
  | Some ts => validateTags ts = Ok (pr_tags p)
  | None => pr_tags p = []
  end.
Proof.
  unfold IngestTool.prepare. intros H.
  apply bind_Ok in H as (_ & _ & H).
  apply bind_Ok in H as (_ & _ & H).
  apply bind_Ok in H as ([[[content name] type] path] & _ & H).
  apply bind_Ok in H as (_ & _ & H).
  apply bind_Ok in H as (validated & Htags & H).
  injection H as <-. simpl.
  destruct (arg_tags args); [done | by injection Htags].
Qed.

Lemma storeDocument_files d w :
  files (ChromaStorage.storeDocument d w) = <[doc_id d := d]> (files w).
Proof. unfold ChromaStorage.storeDocument. by destruct (doc_chunks d). Qed.

(** What a call of [ingestDocument] that returns has done: either it
    reports an error and has stored nothing, or it reports success and has
    stored one document, under the id that it returns. *)
Lemma ingestDocument_inv h config args w r w' :
  IngestTool.ingestDocument h config args w = Some (r, w') →
  (status r = error ∧ files w' = files w ∧ vectorIndex w' = vectorIndex w) ∨
  (status r = success ∧
   ∃ p d, IngestTool.prepare h config args = Ok p ∧
          doc_id d = ir_documentId r ∧
          tags (doc_metadata d) = pr_tags p ∧
          customMetadata (doc_metadata d) = pr_customMetadata p ∧
          doc_content d = pr_content p ∧
          files w' = <[ir_documentId r := d]> (files w)).
Proof.
  unfold IngestTool.ingestDocument, IngestTool.ingestBody.
  destruct (IngestTool.prepare h config args) as [p|msg] eqn:Hp;
    [|intros [= <- <-]; by left].
  unfold IngestTool.generateDocumentId. simpl.
  destruct (chunkWith h _ _ _) as [[chunks|msg]|]; [| intros [= <- <-]; by left | done].
  destruct (generateEmbeddings h _) as [embeddings|msg]; [| intros [= <- <-]; by left].
  intros [= <- <-]. right. split; [done|].
  match goal with
  | |- context [ChromaStorage.storeDocument ?D _] => exists p, D
  end.
  by rewrite storeDocument_files.
Qed.



Lemma ingestDocument_tags_ok h config args w r w' :
  store_tags_ok w →
  IngestTool.ingestDocument h config args w = Some (r, w') →
  store_tags_ok w'.
Proof.
  intros Hok Hrun.
  destruct (ingestDocument_inv _ _ _ _ _ _ Hrun)
    as [(_ & Hfiles & _)|(_ & p & d & Hp & _ & Htags & _ & _ & Hfiles)];
    unfold store_tags_ok; rewrite Hfiles; [done|].
  intros id d' Hd'. apply lookup_insert_Some in Hd' as [[_ <-]|[_ Hd']]; [|by eapply Hok].
  unfold tags_ok. rewrite Htags.
  apply prepare_tags in Hp. destruct (arg_tags args) as [ts|].
  - by eapply validateTags_tag_ok.
  - rewrite Hp. constructor.
Qed.

Lemma batchLoop_tags_ok h config files b w b' w' :
  store_tags_ok w →
  IngestTool.batchLoop h config files b w = Some (b', w') →
  store_tags_ok w'.
Proof.
  revert b w. induction files as [|file files IH]; intros b w Hok Hrun.
  - by injection Hrun as _ <-.
  - cbn [IngestTool.batchLoop] in Hrun.
    destruct (IngestTool.ingestDocument h config (IngestTool.fileArgs file) w)
      as [[r w1]|] eqn:Hone; [|done].
    eapply IH; [|exact Hrun]. by eapply ingestDocument_tags_ok.
Qed.

Lemma batchIngest_tags_ok h config args w r w' :
  store_tags_ok w →
  IngestTool.batchIngest h config args w = Some (r, w') →
  store_tags_ok w'.
Proof.
  intros Hok. unfold IngestTool.batchIngest.
  destruct (validateDirectoryPath _ _ ≫= _) as [files|msg]; [|by intros [= _ <-]].
  destruct (IngestTool.batchLoop _ _ _ _ _) as [[b w1]|] eqn:Hloop; [|done].
  simpl. intros [= _ <-]. by eapply batchLoop_tags_ok.
Qed.

Lemma updateDocumentMetadata_tags_ok h args w r w' :
  store_tags_ok w →
  ManagementTool.updateDocumentMetadata h args w = (r, w') →
  store_tags_ok w'.
Proof.
  intros Hok. unfold ManagementTool.updateDocumentMetadata.
  destruct (_ ≫= _) as [updates|msg] eqn:Hupdates; [|by intros [= _ <-]].
  apply bind_Ok in Hupdates as (_ & _ & Hupdates).
  apply bind_Ok in Hupdates as (_ & _ & Hupdates).
  apply bind_Ok in Hupdates as (validated & Hvalidated & Hupdates).
  unfold ChromaStorage.updateDocumentMetadata.
  destruct (ChromaStorage.getDocument (u_document_id args) w) as [document|] eqn:Hdoc;
    [|done].
  injection Hupdates as <-. simpl. intros [= _ <-].
  intros id d Hd. simpl in Hd.
  apply lookup_insert_Some in Hd as [[_ <-]|[_ Hd]]; [|by eapply Hok].
  unfold tags_ok. simpl.
  destruct (u_tags args) as [ts|].
  - apply bind_Ok in Hvalidated as (ts' & Hts' & [= <-]). simpl.
    by eapply validateTags_tag_ok.
  - injection Hvalidated as <-. simpl. by eapply Hok.
Qed.

Lemma deleteDocument_tags_ok id w r w' :
  store_tags_ok w →
  ManagementTool.deleteDocument id w = (r, w') →
  store_tags_ok w'.
Proof.
  intros Hok. unfold ManagementTool.deleteDocument.
  destruct (_ ≫= _); intros [= _ <-]; [|done].
  intros id' d Hd. simpl in Hd.
  apply lookup_delete_Some in Hd as [_ Hd]. by eapply Hok.
Qed.

(** C9, as amended. The stored tags of every document are trimmed and not
    empty, and every operation keeps it so: [ingestDocument] (which stores
    the validated tags of its arguments), [batchIngest], the tag update of
    [updateDocumentMetadata] and [deleteDocument]. (Duplicate tags are not
    removed.) *)
Theorem stored_tags_trimmed h config w :
  store_tags_ok w →
  (∀ args r w',
     IngestTool.ingestDocument h config args w = Some (r, w') →
     store_tags_ok w' ∧
     (status r = success →
      ∃ d, files w' !! ir_documentId r = Some d ∧
           tags (doc_metadata d) =
             match arg_tags args with
             | Some ts => List.filter (λ tag, 0 <? JS.length tag) (map JS.trim ts)
             | None => []
             end)) ∧
  (∀ args r w',
     IngestTool.batchIngest h config args w = Some (r, w') → store_tags_ok w') ∧
  (∀ args r w',
     ManagementTool.updateDocumentMetadata h args w = (r, w') → store_tags_ok w') ∧
  (∀ id r w',
     ManagementTool.deleteDocument id w = (r, w') → store_tags_ok w').
Proof.
  intros Hok. split_and!.
  - intros args r w' Hrun. split; [by eapply ingestDocument_tags_ok|].
    intros Hsuccess.
    destruct (ingestDocument_inv _ _ _ _ _ _ Hrun)
      as [(Herror & _)|(_ & p & d & Hp & _ & Htags & _ & _ & Hfiles)];
      [congruence|].
    exists d. rewrite Hfiles, lookup_insert_eq. split; [done|].
    rewrite Htags. apply prepare_tags in Hp.
    destruct (arg_tags args) as [ts|]; [by apply validateTags_inv | done].
  - intros. by eapply batchIngest_tags_ok.
  - intros. by eapply updateDocumentMetadata_tags_ok.
  - intros. by eapply deleteDocument_tags_ok.
Qed.

Lemma empty_tags_ok : store_tags_ok TestHost.empty.
Proof. intros id d Hd. simpl in Hd. by rewrite lookup_empty in Hd. Qed.

(** The theorem at the ingestion, into the empty store, of a text tagged
    ["a", " a ", "  "]. *)
Lemma stored_tags_trimmed_witness :
  ∃ r w',
    IngestTool.ingestDocument TestHost.host TestHost.config TestHost.tagged
      TestHost.empty = Some (r, w') ∧
    store_tags_ok w'.
Proof.
  destruct (IngestTool.ingestDocument TestHost.host TestHost.config TestHost.tagged
              TestHost.empty) as [[r w']|] eqn:Hrun; [|by vm_compute in Hrun].
  exists r, w'. split; [reflexivity|].
  exact (proj1 (proj1 (stored_tags_trimmed TestHost.host TestHost.config
                         TestHost.empty empty_tags_ok) _ _ _ Hrun)).
Defined.

(** C9 as stated fails in its uniqueness part: a tag given twice is stored
    twice. *)
Lemma ingested_tags_keep_duplicates :
  (λ run, (status run.1,
           tags ∘ doc_metadata <$> files run.2 !! ir_documentId run.1))
    <$> IngestTool.ingestDocument TestHost.host TestHost.config TestHost.tagged
          TestHost.empty
  = Some (success, Some ["a"; "a"]) ∧
  ¬ NoDup ["a"; "a"].
Proof.
  split; [vm_compute; reflexivity|].
  intros Hdup. apply NoDup_cons in Hdup as [Hnotin _]. apply Hnotin. by left.
Qed.

(** ** Batch ingestion *)



Lemma length_filter_split {A} (p : A → bool) (l : list A) :
  (List.length (List.filter p l) + List.length (List.filter (negb ∘ p) l)
   = List.length l)%nat.
Proof.
  induction l as [|x l IH]; [done|].
  simpl. destruct (p x); simpl; lia.
Qed.




(** ** Document ids *)

Lemma pretty_N_go_no_underscore x s :
  JS.occurs "_" s = false → JS.occurs "_" (pretty_N_go x s) = false.
Proof.
  revert s. induction (N.lt_wf_0 x) as [x _ IH]; intros s Hs.
  destruct (decide (x = 0%N)) as [->|Hx]; [by rewrite pretty_N_go_0|].
  rewrite pretty_N_go_step by lia.
  apply IH; [apply N.div_lt; lia|].
  cbn [JS.occurs]. rewrite Hs, orb_false_r.
  apply bool_decide_eq_false. unfold pretty_N_char. by repeat case_match.
Qed.

Lemma pretty_Z_no_underscore (t : Z) : JS.occurs "_" (pretty t) = false.
Proof.
  assert (∀ n : N, JS.occurs "_" (pretty n) = false) as HN.
  { intros n. unfold pretty, pretty_N. case_decide; [done|].
    by apply pretty_N_go_no_underscore. }
  destruct t as [|p|p]; unfold pretty, pretty_Z; [done|apply HN|].
  apply (HN (N.pos p)).
Qed.

(** Two strings cut at their first underscore have the same part before
    it. *)
Lemma app_underscore_inj s1 s2 r1 r2 :
  JS.occurs "_" s1 = false → JS.occurs "_" s2 = false →
  s1 +:+ String "_" r1 = s2 +:+ String "_" r2 → s1 = s2.
Proof.
  revert s2. induction s1 as [|c s1 IH]; intros [|c' s2] H1 H2 Heq;
    simplify_eq/=; try done.
  apply orb_false_iff in H1 as [_ H1], H2 as [_ H2].
  f_equal. by eapply IH.
Qed.

(** What [generateDocumentId] computes:
    doc_<timestamp>_<first 8 hex digits of md5(sanitized name _ timestamp)>,
    a function of the sanitized file name and of the clock reading. Nothing
    else enters it, so different clock readings give different ids and the
    same clock reading gives the same id to names that sanitize to the same
    string. *)
Lemma documentId_determined h :
  (∀ filename w,
     (IngestTool.generateDocumentId h filename w).1 =
     IngestTool.documentIdAt h filename (Date_now h (clockReads w))) ∧
  (∀ f1 f2 t,
     sanitizeFilename f1 = sanitizeFilename f2 →
     IngestTool.documentIdAt h f1 t = IngestTool.documentIdAt h f2 t) ∧
  (∀ f1 f2 t1 t2,
     t1 ≠ t2 →
     IngestTool.documentIdAt h f1 t1 ≠ IngestTool.documentIdAt h f2 t2).
Proof.
  split_and!.
  - done.
  - intros f1 f2 t Hsame. unfold IngestTool.documentIdAt. by rewrite Hsame.
  - intros f1 f2 t1 t2 Hne Heq. apply Hne.
    unfold IngestTool.documentIdAt in Heq. cbv zeta in Heq.
    cbn [String.append] in Heq. injection Heq as Heq.
    apply (inj pretty).
    eapply app_underscore_inj; [apply pretty_Z_no_underscore..|exact Heq].
Qed.

(** C4, a defect of the code. Ids are not free of collisions: the tool's
    [generateDocumentId] has no random part (the generators of the
    command-line ingesters append one), so two files of the same basename
    ingested within the same millisecond both report success under the same
    id, and the second document replaces the first in the store, which then
    holds one document instead of two. *)
Lemma same_basename_same_instant_collide :
  let first := IngestTool.ingestDocument TestHost.host TestHost.config
                 (IngestTool.fileArgs "/a/report.txt") TestHost.empty in
  let second := first ≫= λ run : IngestResult * World,
                IngestTool.ingestDocument TestHost.host TestHost.config
                  (IngestTool.fileArgs "/b/report.txt") run.2 in
  (λ run, (status run.1, ir_documentId run.1)) <$> first
    = Some (success, "doc_1700000000000_035997a3") ∧
  (λ run, (status run.1, ir_documentId run.1)) <$> second
    = Some (success, "doc_1700000000000_035997a3") ∧
  (λ run, (base.size (files run.2),
           doc_content <$> files run.2 !! "doc_1700000000000_035997a3")) <$> second
    = Some (1%nat, Some "Report of team B.").
Proof. split_and!; vm_compute; reflexivity. Qed.


(** * Further properties of the code *)

(** ** Fixed-size chunking: shape, coverage, termination *)

Module FixedChunkingMore.
Import FixedChunking FixedChunkingFacts.

(** A property that the loop body keeps holds of the state in which the
    loop stops. *)
Lemma loop_invariant (P : LoopState → Prop) fuel text options st cs :
  (∀ st, P st → position st < JS.length text → P (body text options st)) →
  P st →
  loop fuel text options st = Some cs →
  ∃ st', P st' ∧ chunks st' = cs ∧ JS.length text ≤ position st'.
Proof.
  intros Hbody. revert st. induction fuel as [|fuel IH]; intros st HP Hrun.
  - simpl in Hrun. destruct (Z.ltb_spec (position st) (JS.length text)); [done|].
    injection Hrun as <-. eauto.
  - destruct (Z.lt_ge_cases (position st) (JS.length text)) as [Hlt|Hge].
    + rewrite loop_step in Hrun by done. eapply IH; [|exact Hrun]. auto.
    + rewrite loop_stop in Hrun by done. injection Hrun as <-. eauto.
Qed.

Lemma emitted_cases text options p i :
  emitted text options p i = [] ∨
  ∃ c, emitted text options p i = [c] ∧
       chunk_index c = i ∧
       startChar (chunk_metadata c) = p ∧
       endChar (chunk_metadata c) = Z.min (p + chunkSize options) (JS.length text) ∧
       chunk_content c = JS.trim (JS.slice text p (endChar (chunk_metadata c))) ∧
       chunk_content c ≠ "" ∧
       chunk_id c = "" ∧ chunk_documentId c = "" ∧ chunk_embedding c = None.
Proof.
  unfold emitted. cbv zeta.
  destruct (JS.blank _) eqn:Hb; [by left|right].
  eexists. split; [reflexivity|]. simpl. split_and!; try done.
  intros Hempty. apply trim_empty_iff in Hempty. congruence.
Qed.

(** The invariant of the loop behind [fixed_chunk_shape]. *)
Lemma shape_invariant text options st :
  0 ≤ chunkOverlap options < chunkSize options →
  position st < JS.length text →
  ((∃ k, 0 ≤ k ∧ position st = k * stride options) ∧
   chunkIndex st = Z.of_nat (List.length (chunks st)) ∧
   contiguous (chunks st) ∧
   Forall (fixedChunk text options) (chunks st) ∧
   Forall (λ c, startChar (chunk_metadata c) < position st) (chunks st) ∧
   StronglySorted (λ a b, startChar (chunk_metadata a) < startChar (chunk_metadata b))
     (chunks st)) →
  let st' := body text options st in
  (∃ k, 0 ≤ k ∧ position st' = k * stride options) ∧
  chunkIndex st' = Z.of_nat (List.length (chunks st')) ∧
  contiguous (chunks st') ∧
  Forall (fixedChunk text options) (chunks st') ∧
  Forall (λ c, startChar (chunk_metadata c) < position st') (chunks st') ∧
  StronglySorted (λ a b, startChar (chunk_metadata a) < startChar (chunk_metadata b))
    (chunks st').
Proof.
  intros Hopt Hlt ((k & Hk & Hpos) & Hidx & Hcont & Hshape & Hbefore & Hsorted).
  cbv zeta. rewrite body_chunks, body_chunkIndex, body_position. cbv zeta.
  unfold stride in *.
  destruct (Z.leb_spec (position st + (chunkSize options - chunkOverlap options)) 0);
    [nia|].
  assert (Hbefore' : Forall (λ c, startChar (chunk_metadata c) <
              position st + (chunkSize options - chunkOverlap options)) (chunks st)).
  { eapply Forall_impl; [exact Hbefore|]. simpl. intros; lia. }
  destruct (emitted_cases text options (position st) (chunkIndex st))
    as [->|(c & -> & Hci & Hcs & Hce & Hcc & Hne & Hid & Hdoc & Hemb)].
  - rewrite app_nil_r. simpl. split_and!; try done; [|lia].
    exists (k + 1). split; [lia|]. lia.
  - split_and!.
    + exists (k + 1). split; [lia|]. lia.
    + rewrite length_app. simpl. lia.
    + unfold contiguous in *. rewrite fmap_app, length_app, Hcont. simpl.
      rewrite Nat.add_1_r, seq_S, fmap_app. simpl. by rewrite Hci, Hidx.
    + apply Forall_app. split; [done|]. constructor; [|done].
      unfold fixedChunk. cbv zeta. rewrite Hcs. unfold stride.
      split_and!; try done; try lia.
      * exists k. split; lia.
      * nia.
    + apply Forall_app. split; [done|]. constructor; [|done]. lia.
    + apply StronglySorted_app. split_and!; [|done|repeat constructor].
      intros x y Hx Hy. apply list_elem_of_singleton in Hy as ->.
      rewrite Forall_forall in Hbefore. rewrite Hcs. by apply Hbefore.
Qed.

End FixedChunkingMore.

(** The shape of what the loop returns, when it returns. *)
Lemma fixed_chunk_shape text options cs :
  0 ≤ chunkOverlap options < chunkSize options →
  FixedChunking.chunk text options = Some cs →
  contiguous cs ∧
  Forall (fixedChunk text options) cs ∧
  StronglySorted (λ a b, startChar (chunk_metadata a) < startChar (chunk_metadata b)) cs.
Proof.
  intros Hopt Hcs. unfold FixedChunking.chunk in Hcs.
  eapply (FixedChunkingMore.loop_invariant
            (λ st, (∃ k, 0 ≤ k ∧ FixedChunking.position st = k * stride options) ∧
                   FixedChunking.chunkIndex st
                     = Z.of_nat (List.length (FixedChunking.chunks st)) ∧
                   contiguous (FixedChunking.chunks st) ∧
                   Forall (fixedChunk text options) (FixedChunking.chunks st) ∧
                   Forall (λ c, startChar (chunk_metadata c) < FixedChunking.position st)
                     (FixedChunking.chunks st) ∧
                   StronglySorted
                     (λ a b, startChar (chunk_metadata a) < startChar (chunk_metadata b))
                     (FixedChunking.chunks st))) in Hcs
    as (st' & (_ & _ & Hcont & Hshape & _ & Hsorted) & <- & _).
  - done.
  - intros st HP Hlt. by apply FixedChunkingMore.shape_invariant.
  - simpl. split_and!; try done; try constructor. exists 0. lia.
Qed.

(** X1. With 0 ≤ overlap < size, [chunk] returns, and what it returns is
    well formed: the indices are 0, 1, ..., n-1; every chunk is a window
    [s, e) with s a multiple of the stride, 0 ≤ s < e ≤ length and
    e = min (s + size, length); its content is the trimmed text of the
    window and is not empty; the windows come in strictly increasing order
    of their start. *)
Theorem fixed_chunks_wellformed text options :
  0 ≤ chunkOverlap options < chunkSize options →
  ∃ cs,
    FixedChunking.chunk text options = Some cs ∧
    contiguous cs ∧
    Forall (fixedChunk text options) cs ∧
    StronglySorted (λ a b, startChar (chunk_metadata a) < startChar (chunk_metadata b)) cs.
Proof.
  intros Hopt.
  destruct (FixedChunkingFacts.chunk_terminates text options) as [cs Hcs]; [lia|].
  exists cs. split; [done|]. by apply fixed_chunk_shape.
Qed.

(** The theorem at the 2600 letters chunked by 1000 with overlap 200. *)
Lemma fixed_chunks_wellformed_witness :
  ∃ cs,
    FixedChunking.chunk TestHost.text2600 fixed_1000_200 = Some cs ∧
    contiguous cs ∧
    Forall (fixedChunk TestHost.text2600 fixed_1000_200) cs.
Proof.
  destruct (fixed_chunks_wellformed TestHost.text2600 fixed_1000_200)
    as (cs & Hcs & Hcont & Hshape & _);
    [cbn [chunkOverlap chunkSize fixed_1000_200]; lia|].
  exists cs. split_and!; assumption.
Defined.

Lemma get_Some_lt s n c : String.get n s = Some c → (n < String.length s)%nat.
Proof.
  revert n. induction s as [|a s IH]; intros [|n] H; simpl in *; try done.
  - lia.
  - apply IH in H. lia.
Qed.

Lemma blank_get s n c :
  JS.blank s = true → String.get n s = Some c → JS.isWhiteSpace c = true.
Proof.
  revert n. induction s as [|a s IH]; intros [|n] Hb H; simpl in *; try done.
  - apply andb_true_iff in Hb as [Ha _]. by injection H as <-.
  - apply andb_true_iff in Hb as [_ Hb]. eauto.
Qed.

(** Inside its bounds [slice] reads the text itself. *)
Lemma slice_get text p e i :
  0 ≤ p → p ≤ i → i < e → e ≤ JS.length text →
  String.get (Z.to_nat (i - p)) (JS.slice text p e) = String.get (Z.to_nat i) text.
Proof.
  intros Hp Hi He Hlen. unfold JS.slice, JS.clamp. cbv zeta.
  destruct (Z.ltb_spec p 0); [lia|]. destruct (Z.ltb_spec e 0); [lia|].
  rewrite !Z.min_l by lia. rewrite Z.max_l by lia.
  rewrite substring_correct1 by lia. f_equal. lia.
Qed.

(** Every position that holds a character other than white space lies in
    the range of some chunk. *)
Lemma fixed_cover text options cs i :
  0 ≤ chunkOverlap options < chunkSize options →
  FixedChunking.chunk text options = Some cs →
  0 ≤ i → inked text i →
  ∃ c, c ∈ cs ∧ covers c i.
Proof.
  intros Hopt Hcs Hi Hink. unfold FixedChunking.chunk in Hcs.
  assert (i < JS.length text) as Hlen.
  { destruct Hink as (c & Hget & _). apply get_Some_lt in Hget.
    unfold JS.length. lia. }
  eapply (FixedChunkingMore.loop_invariant
            (λ st, 0 ≤ FixedChunking.position st ∧
                   ∀ j, 0 ≤ j < FixedChunking.position st → inked text j →
                        ∃ c, c ∈ FixedChunking.chunks st ∧ covers c j)) in Hcs
    as (st' & (_ & Hcover) & <- & Hstop).
  - apply Hcover; [lia | done].
  - intros st [Hpos Hcover] Hlt.
    rewrite FixedChunkingFacts.body_chunks, FixedChunkingFacts.body_position. cbv zeta.
    destruct (Z.leb_spec (FixedChunking.position st
                          + (chunkSize options - chunkOverlap options)) 0); [lia|].
    split; [lia|]. intros j Hj Hinkj.
    destruct (Z.lt_ge_cases j (FixedChunking.position st)) as [Hbefore|Hin].
    + destruct (Hcover j) as (c & Hc & Hcj); [lia|done|].
      exists c. split; [|done]. apply elem_of_app. by left.
    + assert (j < JS.length text) as Hjlen.
      { destruct Hinkj as (c & Hget & _). apply get_Some_lt in Hget.
        unfold JS.length. lia. }
      unfold FixedChunking.emitted. cbv zeta.
      set (e := Z.min (FixedChunking.position st + chunkSize options) (JS.length text)).
      assert (j < e) by (unfold e; lia).
      destruct (JS.blank (JS.slice text (FixedChunking.position st) e)) eqn:Hblank.
      * exfalso. destruct Hinkj as (c & Hget & Hws).
        rewrite <- (slice_get text (FixedChunking.position st) e) in Hget
          by (unfold e; lia).
        apply (blank_get _ _ _ Hblank) in Hget. congruence.
      * eexists. split; [apply elem_of_app; right; apply list_elem_of_singleton;
                         reflexivity|].
        unfold covers. simpl. lia.
  - simpl. split; [lia|]. intros j Hj. lia.
Qed.

Lemma blank_false_inked text :
  JS.blank text = false → ∃ i, 0 ≤ i ∧ inked text i.
Proof.
  induction text as [|c text IH]; simpl; [done|].
  destruct (JS.isWhiteSpace c) eqn:Hc; simpl.
  - intros (i & Hi & c' & Hget & Hws)%IH. exists (i + 1). split; [lia|].
    exists c'. split; [|done].
    replace (Z.to_nat (i + 1)) with (S (Z.to_nat i)) by lia. done.
  - intros _. exists 0. split; [done|]. by exists c.
Qed.

(** A text that is not blank gives at least one chunk. *)
Lemma fixed_nonblank_chunks text options cs :
  0 ≤ chunkOverlap options < chunkSize options →
  FixedChunking.chunk text options = Some cs →
  JS.blank text = false → cs ≠ [].
Proof.
  intros Hopt Hcs (i & Hi & Hink)%blank_false_inked.
  destruct (fixed_cover text options cs i Hopt Hcs Hi Hink) as (c & Hc & _).
  intros ->. by apply elem_of_nil in Hc.
Qed.

(** X2. With 0 ≤ overlap < size, the chunks cover the text up to white
    space: every position that holds a character other than white space
    lies in the range of some chunk; so a text that is not blank gives at
    least one chunk. *)
Theorem fixed_chunks_cover text options cs :
  0 ≤ chunkOverlap options < chunkSize options →
  FixedChunking.chunk text options = Some cs →
  (∀ i, 0 ≤ i → inked text i → ∃ c, c ∈ cs ∧ covers c i) ∧
  (JS.blank text = false → cs ≠ []).
Proof.
  intros Hopt Hcs. split.
  - intros i Hi Hink. by eapply fixed_cover.
  - intros Hblank. by eapply fixed_nonblank_chunks.
Qed.

(** The theorem at position 2500 of the 2600 letters. *)
Lemma fixed_chunks_cover_witness :
  ∃ c, c ∈ default [] (FixedChunking.chunk TestHost.text2600 fixed_1000_200) ∧
       covers c 2500.
Proof.
  destruct (FixedChunking.chunk TestHost.text2600 fixed_1000_200) as [cs|] eqn:Hcs;
    [|by vm_compute in Hcs].
  apply (fixed_chunks_cover TestHost.text2600 fixed_1000_200 cs);
    [cbn [chunkOverlap chunkSize fixed_1000_200]; lia | exact Hcs | lia |].
  exists "a"%char. split; vm_compute; reflexivity.
Defined.

Lemma substring_empty_length n s : substring n 0 s = "".
Proof. revert n. induction s as [|a s IH]; intros [|n]; simpl; auto. Qed.

Lemma blank_substring n m s : JS.blank s = true → JS.blank (substring n m s) = true.
Proof.
  revert n m. induction s as [|a s IH]; intros n m Hb.
  - by destruct n, m.
  - simpl in Hb. apply andb_true_iff in Hb as [Ha Hb].
    destruct n as [|n]; simpl; [|by apply IH].
    destruct m as [|m]; simpl; [done|]. by rewrite Ha, IH.
Qed.

(** X3. A text of white space only, the empty text in particular, gives no
    chunk at all (the loop must terminate: the text is empty or the overlap
    is below the size). *)
Theorem fixed_chunk_blank text options :
  JS.blank text = true →
  text = "" ∨ chunkOverlap options < chunkSize options →
  FixedChunking.chunk text options = Some [].
Proof.
  intros Hblank [->|Hopt]; [done|].
  destruct (FixedChunkingFacts.chunk_terminates text options Hopt) as [cs Hcs].
  rewrite Hcs. f_equal. unfold FixedChunking.chunk in Hcs.
  eapply (FixedChunkingMore.loop_invariant (λ st, FixedChunking.chunks st = [])) in Hcs
    as (st' & Hnil & <- & _); [done| |done].
  intros st Hst _. rewrite FixedChunkingFacts.body_chunks, Hst. simpl.
  unfold FixedChunking.emitted, JS.slice. cbv zeta.
  by rewrite blank_substring.
Qed.

(** The theorem at a text of blanks, tabs and line ends. *)
Lemma fixed_chunk_blank_witness :
  FixedChunking.chunk (String " " (String "009" (String "010" "  "))) fixed_1000_200
  = Some [].
Proof.
  apply fixed_chunk_blank; [reflexivity|].
  right. cbn [chunkOverlap chunkSize fixed_1000_200]. lia.
Defined.

(** X4. When the overlap is not below the size, the guard of the loop
    ("prevent infinite loop if overlap is too large") helps only the texts
    that fit in one window: [chunk] returns exactly when the text is no
    longer than [max 0 size], with at most one chunk, and otherwise the
    loop never ends, whatever the number of iterations allowed. *)
Theorem fixed_chunk_overlap_too_large text options :
  chunkSize options ≤ chunkOverlap options →
  (JS.length text ≤ Z.max 0 (chunkSize options) →
   ∃ cs, FixedChunking.chunk text options = Some cs ∧ (List.length cs ≤ 1)%nat) ∧
  (Z.max 0 (chunkSize options) < JS.length text →
   ∀ fuel, FixedChunking.loop fuel text options FixedChunking.init = None).
Proof.
  intros Hopt. split.
  - intros Hfit. unfold FixedChunking.chunk.
    destruct (String.length text) as [|n] eqn:Hn.
    + exists []. split; [|simpl; lia].
      apply FixedChunkingFacts.loop_stop. unfold JS.length. rewrite Hn. simpl. lia.
    + assert (0 < JS.length text) by (unfold JS.length; lia).
      rewrite FixedChunkingFacts.loop_step by (simpl; lia).
      rewrite FixedChunkingFacts.loop_stop.
      * eexists. split; [reflexivity|].
        rewrite FixedChunkingFacts.body_chunks. simpl.
        unfold FixedChunking.emitted. cbv zeta. destruct (JS.blank _); simpl; lia.
      * rewrite FixedChunkingFacts.body_position. cbv zeta. simpl FixedChunking.position.
        destruct (Z.leb_spec (0 + (chunkSize options - chunkOverlap options)) 0); lia.
  - intros Hlong fuel.
    apply FixedChunkingFacts.loop_diverges; [lia | simpl; lia | done].
Qed.

(** The theorem at size = overlap = 100: five letters fit, 2600 do not. *)
Lemma fixed_chunk_overlap_too_large_witness :
  (∃ cs, FixedChunking.chunk "hello"
           {| chunkSize := 100; chunkOverlap := 100; strategy := "fixed" |} = Some cs ∧
         (List.length cs ≤ 1)%nat) ∧
  FixedChunking.loop 5000 TestHost.text2600
    {| chunkSize := 100; chunkOverlap := 100; strategy := "fixed" |}
    FixedChunking.init = None.
Proof.
  split.
  - apply (fixed_chunk_overlap_too_large "hello"); [simpl; lia|].
    vm_compute. discriminate.
  - apply (fixed_chunk_overlap_too_large TestHost.text2600);
      [simpl; lia | vm_compute; reflexivity].
Defined.

(** ** Cosine similarity *)

Lemma sums_foldl (a b : list Q) d na nb :
  List.length a = List.length b →
  ChromaStorage.sums a b (d, na, nb) =
  (foldl (λ acc xy, acc + xy.1 * xy.2)%Q d (zip a b),
   foldl (λ acc x, acc + x * x)%Q na a,
   foldl (λ acc x, acc + x * x)%Q nb b).
Proof.
  revert b d na nb. induction a as [|x a IH]; intros [|y b] d na nb Hlen;
    simplify_eq/=; [done|]. by rewrite IH.
Qed.

Lemma Qmult_comm_eq (x y : Q) : (x * y)%Q = (y * x)%Q.
Proof. unfold Qmult. by rewrite Z.mul_comm, Pos.mul_comm. Qed.

Lemma dot_foldl_swap (a b : list Q) d :
  foldl (λ acc xy, acc + xy.1 * xy.2)%Q d (zip a b) =
  foldl (λ acc xy, acc + xy.1 * xy.2)%Q d (zip b a).
Proof.
  revert b d. induction a as [|x a IH]; intros [|y b] d; simpl; try done.
  by rewrite IH, (Qmult_comm_eq x y).
Qed.

Lemma squares_foldl_zero (a : list Q) acc :
  Forall (λ x, x == 0)%Q a →
  (foldl (λ acc x, acc + x * x) acc a == acc)%Q.
Proof.
  intros Hz. revert acc. induction Hz as [|x a Hx _ IH]; intros acc; simpl;
    [reflexivity|].
  rewrite IH, Hx. ring.
Qed.

(** X5. The similarity of the zero vector (of any dimension) with any
    vector is exactly 0: the division by a zero norm is never made. *)
Theorem cosine_zero_vector h (a b : list Q) :
  Forall (λ x, x == 0)%Q a ∨ Forall (λ x, x == 0)%Q b →
  ChromaStorage.cosineSimilarity h a b = 0%Q.
Proof.
  intros Hzero. unfold ChromaStorage.cosineSimilarity.
  destruct (Nat.eqb_spec (List.length a) (List.length b)) as [Hlen|]; [|done].
  simpl. rewrite sums_foldl by done.
  assert (Qeq_bool (foldl (λ acc x, acc + x * x)%Q 0%Q a) 0 = true
          ∨ Qeq_bool (foldl (λ acc x, acc + x * x)%Q 0%Q b) 0 = true) as [->| ->];
    [|done|by rewrite orb_true_r].
  destruct Hzero as [Hz|Hz]; [left|right];
    apply Qeq_bool_iff; by apply squares_foldl_zero.
Qed.

(** The theorem at the zero vector of three dimensions. *)
Lemma cosine_zero_vector_witness :
  ChromaStorage.cosineSimilarity TestHost.host [0; 0; 0]%Q [1; 2; 3]%Q = 0%Q.
Proof.
  apply cosine_zero_vector. left. repeat constructor.
Defined.

(** X6. Cosine similarity is symmetric, whatever square root the host
    computes. *)
Theorem cosine_symmetric h (a b : list Q) :
  ChromaStorage.cosineSimilarity h a b = ChromaStorage.cosineSimilarity h b a.
Proof.
  unfold ChromaStorage.cosineSimilarity.
  destruct (Nat.eqb_spec (List.length a) (List.length b)) as [Hlen|Hne].
  - rewrite (proj2 (Nat.eqb_eq (List.length b) (List.length a))) by done.
    simpl. rewrite !sums_foldl by done.
    rewrite (dot_foldl_swap a b), orb_comm.
    destruct (_ || _); [done|]. by rewrite (Qmult_comm_eq (Math_sqrt h _)).
  - by rewrite (proj2 (Nat.eqb_neq (List.length b) (List.length a))) by done.
Qed.

(** ** The stored state *)

Lemma obj_set_elem_of {V} (k : string) (v : V) o x :
  x ∈ JS.obj_set k v o → x = (k, v) ∨ x ∈ o.
Proof.
  induction o as [|[k' v'] o IH]; simpl.
  - intros ->%list_elem_of_singleton. by left.
  - case_bool_decide as Hk.
    + intros [->|Hx]%elem_of_cons; [by left|]. right. by right.
    + intros [->|Hx]%elem_of_cons; [right; by left|].
      destruct (IH Hx) as [->|Hin]; [by left|]. right. by right.
Qed.

Lemma obj_set_keys {V} (k : string) (v : V) o :
  (JS.obj_set k v o).*1 = if decide (k ∈ o.*1) then o.*1 else o.*1 ++ [k].
Proof.
  induction o as [|[k' v'] o IH]; cbn [JS.obj_set fmap list_fmap fst].
  - destruct (decide _) as [Hin|_]; [by apply elem_of_nil in Hin|done].
  - case_bool_decide as Hk.
    + subst k'. destruct (decide (k ∈ k :: o.*1)) as [_|Hnin]; [done|].
      exfalso. apply Hnin. by left.
    + cbn [fmap list_fmap fst]. rewrite IH.
      destruct (decide (k ∈ o.*1)) as [Hin|Hin];
        destruct (decide (k ∈ k' :: o.*1)) as [Hin'|Hin']; try done.
      * exfalso. apply Hin'. by right.
      * apply elem_of_cons in Hin' as [->|Hin']; done.
Qed.

Lemma obj_set_NoDup {V} (k : string) (v : V) o :
  NoDup o.*1 → NoDup (JS.obj_set k v o).*1.
Proof.
  intros Hnd. rewrite obj_set_keys. case_decide; [done|].
  apply NoDup_app. split_and!; [done| |apply NoDup_singleton].
  intros x Hx ->%list_elem_of_singleton. done.
Qed.

(** Assigning [k] leaves every other key with its value. *)
Lemma obj_set_other {V} (k : string) (v : V) o x :
  x ∈ o → x.1 ≠ k → x ∈ JS.obj_set k v o.
Proof.
  induction o as [|[k' v'] o IH]; simpl; [by intros ?%elem_of_nil|].
  intros [->|Hx]%elem_of_cons Hne.
  - simpl in Hne. rewrite bool_decide_false by done. by left.
  - case_bool_decide; right; [done|by apply IH].
Qed.

(** After the assignment, [k] has the value [v]. *)
Lemma obj_set_self {V} (k : string) (v : V) o : (k, v) ∈ JS.obj_set k v o.
Proof.
  induction o as [|[k' v'] o IH]; simpl; [by left|].
  case_bool_decide; [by left|by right].
Qed.

(** The index after the loop of [storeDocument] over [chunks]. *)
Lemma storeDocument_index d w :
  vectorIndex (ChromaStorage.storeDocument d w) =
  foldl (λ idx chunk,
           JS.obj_set (ChromaStorage.chunkKey (doc_id d) (chunk_index chunk))
             {| ie_embedding := chunk_embedding chunk;
                ie_documentId := doc_id d;
                ie_chunkIndex := chunk_index chunk |} idx)
    (vectorIndex w) (doc_chunks d).
Proof. unfold ChromaStorage.storeDocument. by destruct (doc_chunks d). Qed.


Lemma storeDocument_consistent d w :
  store_consistent w → store_consistent (ChromaStorage.storeDocument d w).
Proof.
  intros (Hkeyed & Hnd & Hall). unfold store_consistent.
  rewrite storeDocument_files, storeDocument_index. split.
  { intros id d' [[<- <-]|[_ Hd']]%lookup_insert_Some; [done|by apply Hkeyed]. }
  assert (Forall (λ kv, kv.1 = ChromaStorage.chunkKey (ie_documentId kv.2)
                                 (ie_chunkIndex kv.2)
                        ∧ is_Some (<[doc_id d := d]> (files w) !! ie_documentId kv.2))
            (vectorIndex w)) as Hall'.
  { eapply Forall_impl; [exact Hall|]. intros kv [Hkey Hdoc]. split; [done|].
    rewrite lookup_insert_is_Some. destruct (decide (doc_id d = ie_documentId kv.2));
      [by left|by right]. }
  clear Hall. revert Hnd Hall'. generalize (vectorIndex w).
  induction (doc_chunks d) as [|c cs IH]; intros idx Hnd Hall; [done|].
  simpl. apply IH; [by apply obj_set_NoDup|].
  apply Forall_forall. intros x [->|Hx]%obj_set_elem_of.
  - simpl. split; [done|]. rewrite lookup_insert_eq. by eexists.
  - by eapply Forall_forall in Hall.
Qed.

Lemma List_filter_sublist {A} (p : A → bool) (l : list A) :
  List.filter p l `sublist_of` l.
Proof.
  induction l as [|x l IH]; simpl; [done|].
  destruct (p x); [by apply sublist_skip|by apply sublist_cons].
Qed.

Lemma deleteDocument_consistent id w :
  store_consistent w → store_consistent (ChromaStorage.deleteDocument id w).
Proof.
  intros (Hkeyed & Hnd & Hall). unfold store_consistent. simpl. split_and!.
  - intros id' d [_ Hd]%lookup_delete_Some. by apply Hkeyed.
  - apply (sublist_NoDup _ (vectorIndex w).*1); [exact Hnd|].
    apply fmap_sublist, List_filter_sublist.
  - apply Forall_forall. intros kv Hkv.
    apply list_elem_of_In, filter_In in Hkv as [Hkv Hne].
    apply list_elem_of_In in Hkv.
    eapply Forall_forall in Hall as [Hkey Hdoc]; [|exact Hkv]. split; [done|].
    apply negb_true_iff, bool_decide_eq_false in Hne.
    by rewrite lookup_delete_ne.
Qed.


Lemma chunkKey_inj id i j :
  ChromaStorage.chunkKey id i = ChromaStorage.chunkKey id j → i = j.
Proof.
  unfold ChromaStorage.chunkKey. intros H.
  apply String.app_inj, String.app_inj in H. by apply pretty_Z_inj.
Qed.

Lemma pretty_nat_Z (n : nat) : pretty (Z.of_nat n) = pretty n.
Proof. unfold pretty at 1 2, pretty_Z, pretty_nat. by destruct n. Qed.

(** The loop of [storeDocument] keeps the entries whose key it does not
    assign. *)
Lemma index_loop_keeps id (cs : list DocumentChunk) idx kv :
  kv ∈ idx →
  (∀ c, c ∈ cs → kv.1 ≠ ChromaStorage.chunkKey id (chunk_index c)) →
  kv ∈ foldl (λ idx chunk,
                JS.obj_set (ChromaStorage.chunkKey id (chunk_index chunk))
                  {| ie_embedding := chunk_embedding chunk;
                     ie_documentId := id;
                     ie_chunkIndex := chunk_index chunk |} idx) idx cs.
Proof.
  revert idx. induction cs as [|c cs IH]; intros idx Hin Hne; [done|].
  simpl. apply IH.
  - apply obj_set_other; [done|]. apply Hne. by left.
  - intros c' Hc'. apply Hne. by right.
Qed.


(** With distinct chunk indices, every chunk has its entry after the
    loop. *)
Lemma index_loop_stores id (cs : list DocumentChunk) idx c :
  NoDup (chunk_index <$> cs) → c ∈ cs →
  (ChromaStorage.chunkKey id (chunk_index c),
   {| ie_embedding := chunk_embedding c; ie_documentId := id;
      ie_chunkIndex := chunk_index c |})
  ∈ foldl (λ idx chunk,
             JS.obj_set (ChromaStorage.chunkKey id (chunk_index chunk))
               {| ie_embedding := chunk_embedding chunk;
                  ie_documentId := id;
                  ie_chunkIndex := chunk_index chunk |} idx) idx cs.
Proof.
  revert idx. induction cs as [|c0 cs IH]; intros idx Hnd Hc;
    [by apply elem_of_nil in Hc|].
  rewrite fmap_cons in Hnd. apply NoDup_cons in Hnd as [Hfresh Hnd].
  simpl. apply elem_of_cons in Hc as [->|Hc]; [|by apply IH].
  apply index_loop_keeps; [apply obj_set_self|].
  intros c' Hc' Hkey. simpl in Hkey. apply chunkKey_inj in Hkey.
  apply Hfresh. rewrite Hkey. apply list_elem_of_fmap. by exists c'.
Qed.



(** ** Ingestion *)

(** What a call of [ingestDocument] that returns has done, in full: on
    an error nothing is stored; on success the document built from the
    prepared input, the chunks and their embeddings is stored. *)
Lemma ingestDocument_cases h config args w r w' :
  IngestTool.ingestDocument h config args w = Some (r, w') →
  (status r = error ∧ ir_documentId r = "" ∧ chunksCreated r = 0 ∧
   files w' = files w ∧ vectorIndex w' = vectorIndex w) ∨
  (∃ p chunks embeddings d w3,
     IngestTool.prepare h config args = Ok p ∧
     chunkWith h (strategy (chunkingOptions config)) (pr_content p)
       (chunkingOptions config) = Some (Ok chunks) ∧
     generateEmbeddings h (map chunk_content chunks) = Ok embeddings ∧
     files w3 = files w ∧ vectorIndex w3 = vectorIndex w ∧
     w' = ChromaStorage.storeDocument d w3 ∧
     status r = success ∧ ir_documentId r = doc_id d ∧
     chunksCreated r = Z.of_nat (List.length chunks) ∧
     doc_id d = IngestTool.documentIdAt h (pr_filename p) (Date_now h (clockReads w)) ∧
     doc_content d = pr_content p ∧
     doc_chunks d = imap (IngestTool.processChunk (doc_id d) embeddings) chunks ∧
     doc_metadata d =
       {| filename := Some (pr_filename p); filePath := pr_filePath p;
          fileType := pr_fileType p; tags := pr_tags p;
          customMetadata := pr_customMetadata p;
          size := Some (JS.length (pr_content p)); pageCount := None |}).
Proof.
  unfold IngestTool.ingestDocument, IngestTool.ingestBody.
  destruct (IngestTool.prepare h config args) as [p|msg] eqn:Hp;
    [|intros [= <- <-]; by left].
  unfold IngestTool.generateDocumentId. simpl.
  destruct (chunkWith h _ _ _) as [[chunks|msg]|] eqn:Hchunks;
    [| intros [= <- <-]; by left | done].
  destruct (generateEmbeddings h _) as [embeddings|msg] eqn:Hemb;
    [| intros [= <- <-]; by left].
  intros [= <- <-]. right.
  match goal with
  | |- context [ChromaStorage.storeDocument ?D ?W] =>
      exists p, chunks, embeddings, D, W
  end.
  cbn [status ir_documentId chunksCreated doc_id doc_content doc_chunks doc_metadata
       files vectorIndex].
  rewrite length_imap. split_and!; done.
Qed.

Lemma empty_consistent : store_consistent TestHost.empty.
Proof.
  split_and!; [|constructor|constructor].
  intros id d Hd. simpl in Hd. by rewrite lookup_empty in Hd.
Qed.

(** ** Search *)

(** Where a search result comes from. *)
Lemma searchSimilar_elem h embedding options w results r :
  ChromaStorage.searchSimilar h embedding options w = Ok results →
  r ∈ results → accounted h embedding w r.
Proof.
  unfold ChromaStorage.searchSimilar. intros Hsearch Hr.
  destruct (ChromaStorage.similaritiesOf h embedding options (vectorIndex w))
    as [survivors|] eqn:Hsim; [|done].
  injection Hsearch as <-.
  apply list_elem_of_omap in Hr as (s & Hs & Hbuild).
  apply SearchFacts.topResults_elem in Hs.
  pose proof (SearchFacts.similaritiesOf_inv _ _ _ _ _ Hsim) as Hemb.
  rewrite (SearchFacts.similaritiesOf_ok _ _ _ _ Hemb) in Hsim.
  injection Hsim as <-.
  apply list_elem_of_In, filter_In in Hs as [Hs _].
  apply list_elem_of_In, list_elem_of_omap in Hs as (kv & Hkv & Hscored).
  unfold ChromaStorage.scoredEntry in Hscored.
  destruct (ie_embedding kv.2) as [e|] eqn:He; [|done].
  simpl in Hscored. injection Hscored as <-.
  unfold ChromaStorage.buildResult in Hbuild. simpl in Hbuild.
  destruct (ChromaStorage.getDocument (ie_documentId kv.2) w) as [document|] eqn:Hdoc;
    [|done].
  destruct (ChromaStorage.rejectedByTags options document); [done|].
  destruct (List.find _ (doc_chunks document)) as [chunk|] eqn:Hfind; [|done].
  injection Hbuild as <-. exists kv, e. simpl. split_and!; done.
Qed.

(** X10. Every result of a search is accounted for by the index and the
    store: it comes from an entry of the index whose document is stored,
    its chunk is the first chunk of that document with the entry's chunk
    index, its score is the cosine similarity with the entry's embedding
    and its distance is one minus the score. *)
Theorem searchSimilar_sound h embedding options w results :
  ChromaStorage.searchSimilar h embedding options w = Ok results →
  Forall (accounted h embedding w) results.
Proof.
  intros Hsearch. apply Forall_forall. intros r Hr.
  by eapply searchSimilar_elem.
Qed.

(** The theorem at a search of the two documents of equal embedding. *)
Lemma searchSimilar_sound_witness :
  Forall (accounted TestHost.host [1; 0]%Q TestHost.tied)
    (TestHost.found (ChromaStorage.searchSimilar TestHost.host [1; 0]%Q
                       (TestHost.best 3) TestHost.tied)).
Proof.
  apply (searchSimilar_sound TestHost.host [1; 0]%Q (TestHost.best 3)).
  vm_compute. reflexivity.
Defined.

(** X11. A document that the tool has deleted is gone: it cannot be read
    back, the index holds no entry of it, and no later search returns any
    of its chunks. *)
Theorem deleted_document_is_gone h id w embedding options results :
  store_consistent w →
  tr_success (ManagementTool.deleteDocument id w).1 = true →
  let w' := (ManagementTool.deleteDocument id w).2 in
  ChromaStorage.searchSimilar h embedding options w' = Ok results →
  ChromaStorage.getDocument id w' = None ∧
  Forall (λ kv, ie_documentId kv.2 ≠ id) (vectorIndex w') ∧
  Forall (λ r, doc_id (sr_document r) ≠ id) results.
Proof.
  intros Hok. unfold ManagementTool.deleteDocument.
  destruct (_ ≫= _) as [?|msg]; [|done]. cbn [fst snd]. intros _ Hsearch.
  pose proof (deleteDocument_consistent id w Hok) as (Hkeyed & _ & _).
  assert (ChromaStorage.getDocument id (ChromaStorage.deleteDocument id w) = None)
    as Hgone by apply lookup_delete_eq.
  split_and!; [done| |].
  - apply Forall_forall. intros kv Hkv. simpl in Hkv.
    apply list_elem_of_In, filter_In in Hkv as [_ Hne].
    by apply negb_true_iff, bool_decide_eq_false in Hne.
  - apply Forall_forall. intros r Hr.
    destruct (searchSimilar_elem _ _ _ _ _ _ Hsearch Hr)
      as (kv & e & _ & _ & Hdoc & _).
    rewrite (Hkeyed _ _ Hdoc). intros Heq. rewrite Heq in Hdoc. congruence.
Qed.

Lemma tied_consistent : store_consistent TestHost.tied.
Proof.
  apply storeDocument_consistent, storeDocument_consistent, empty_consistent.
Qed.

(** The theorem at the deletion of one of two documents. *)
Lemma deleted_document_is_gone_witness :
  Forall (λ r, doc_id (sr_document r) ≠ "doc_1_a")
    (TestHost.found
       (ChromaStorage.searchSimilar TestHost.host [1; 0]%Q (TestHost.best 3)
          (ManagementTool.deleteDocument "doc_1_a" TestHost.tied).2)).
Proof.
  apply (deleted_document_is_gone TestHost.host "doc_1_a" TestHost.tied [1; 0]%Q
           (TestHost.best 3));
    [apply tied_consistent | reflexivity | vm_compute; reflexivity].
Defined.

(** ** Ingestion, end to end *)

(** What [prepare] makes of a text given in place of a file. *)
Lemma prepare_text h config args p text :
  file_path args = None → text_content args = Some text →
  IngestTool.prepare h config args = Ok p →
  text ≠ "" ∧ pr_content p = text ∧ pr_filename p = "text_content" ∧
  pr_fileType p = "txt" ∧ pr_filePath p = None.
Proof.
  unfold IngestTool.prepare. intros -> -> H. simpl in H.
  destruct (bool_decide (text = "")) eqn:Hempty; [done|].
  apply bool_decide_eq_false in Hempty. simpl in H.
  apply bind_Ok in H as (_ & _ & H).
  apply bind_Ok in H as (validated & _ & H).
  by injection H as <-.
Qed.

Lemma chunkWith_fixed h strategy text options :
  JS.toLowerCase strategy = "fixed" →
  chunkWith h strategy text options = Ok <$> FixedChunking.chunk text options.
Proof. unfold chunkWith. by intros ->. Qed.

Lemma contiguous_lookup cs i c :
  contiguous cs → cs !! i = Some c → chunk_index c = Z.of_nat i.
Proof.
  unfold contiguous. intros Hcont Hc.
  assert ((chunk_index <$> cs) !! i = Some (chunk_index c)) as Hi
    by (by rewrite list_lookup_fmap, Hc).
  rewrite Hcont, list_lookup_fmap in Hi.
  apply lookup_lt_Some in Hc.
  rewrite lookup_seq_lt in Hi by done. by injection Hi.
Qed.

Lemma contiguous_NoDup cs : contiguous cs → NoDup (chunk_index <$> cs).
Proof.
  unfold contiguous. intros ->.
  apply NoDup_fmap; [apply Nat2Z.inj'|apply NoDup_seq].
Qed.

Lemma imap_processChunk_index id embeddings cs :
  chunk_index <$> imap (IngestTool.processChunk id embeddings) cs = chunk_index <$> cs.
Proof.
  apply list_eq. intros i. rewrite !list_lookup_fmap, list_lookup_imap.
  by destruct (cs !! i).
Qed.

(** X12. Ingestion with the fixed strategy, end to end. A successful
    ingestion stores a document that can be read back under the id it
    returns, with as many chunks as it reports, numbered 0, 1, ..., each
    naming its document, filed in the vector index under its own id with
    its embedding, and holding the trimmed text of its range of the
    document; a text given in place of a file is stored as it is, named
    [text_content], of type [txt]. *)
Theorem ingest_fixed_roundtrip h config args w r w' :
  JS.toLowerCase (strategy (chunkingOptions config)) = "fixed" →
  0 ≤ chunkOverlap (chunkingOptions config) < chunkSize (chunkingOptions config) →
  IngestTool.ingestDocument h config args w = Some (r, w') →
  status r = success →
  ∃ d,
    ChromaStorage.getDocument (ir_documentId r) w' = Some d ∧
    doc_id d = ir_documentId r ∧
    chunksCreated r = Z.of_nat (List.length (doc_chunks d)) ∧
    contiguous (doc_chunks d) ∧
    Forall (indexedChunk w' d) (doc_chunks d) ∧
    (∀ text, file_path args = None → text_content args = Some text →
       doc_content d = text ∧
       filename (doc_metadata d) = Some "text_content" ∧
       fileType (doc_metadata d) = "txt" ∧
       filePath (doc_metadata d) = None ∧
       size (doc_metadata d) = Some (JS.length text)).
Proof.
  intros Hfixed Hopt Hrun Hsuccess.
  destruct (ingestDocument_cases _ _ _ _ _ _ Hrun)
    as [(Herror & _)
       |(p & chunks & embeddings & d & w3 & Hp & Hchunks & Hemb & Hfiles & Hindex
         & -> & _ & Hid & Hn & _ & Hcontent & Hcs & Hmeta)]; [congruence|].
  rewrite chunkWith_fixed in Hchunks by done.
  destruct (FixedChunking.chunk (pr_content p) (chunkingOptions config))
    as [cs|] eqn:Hfixedchunks; [|done].
  injection Hchunks as <-.
  destruct (fixed_chunk_shape _ _ _ Hopt Hfixedchunks) as (Hcont & Hshape & _).
  assert (contiguous (doc_chunks d)) as Hcont'.
  { unfold contiguous. rewrite Hcs, imap_processChunk_index, length_imap. exact Hcont. }
  assert (ChromaStorage.getDocument (doc_id d) (ChromaStorage.storeDocument d w3)
          = Some d) as Hget.
  { unfold ChromaStorage.getDocument, FileSystemStorage.loadDocument.
    by rewrite storeDocument_files, lookup_insert_eq. }
  assert (∀ c, c ∈ doc_chunks d →
            (ChromaStorage.chunkKey (doc_id d) (chunk_index c),
             {| ie_embedding := chunk_embedding c; ie_documentId := doc_id d;
                ie_chunkIndex := chunk_index c |})
            ∈ vectorIndex (ChromaStorage.storeDocument d w3)) as Hentries.
  { intros c Hc. rewrite storeDocument_index.
    by apply index_loop_stores; [apply contiguous_NoDup|]. }
  exists d. rewrite Hid. split_and!; [done|done| | done | |].
  - by rewrite Hcs, length_imap.
  - apply Forall_forall. intros c Hc.
    pose proof (Hentries c Hc) as Hentry.
    rewrite Hcs in Hc. apply elem_of_lookup_imap in Hc as (i & c0 & -> & Hc0).
    pose proof (contiguous_lookup _ _ _ Hcont Hc0) as Hi.
    rewrite Forall_forall in Hshape.
    destruct (Hshape c0) as (_ & _ & _ & _ & _ & Htext & Hne & _);
      [by eapply list_elem_of_lookup_2|].
    assert (chunk_id (IngestTool.processChunk (doc_id d) embeddings i c0)
            = ChromaStorage.chunkKey (doc_id d) (chunk_index c0)) as Hkey.
    { unfold ChromaStorage.chunkKey. simpl. by rewrite Hi, pretty_nat_Z. }
    unfold indexedChunk. rewrite Hkey, Hcontent. simpl. simpl in Hentry.
    split_and!; done.
  - intros text Hfile Htext.
    destruct (prepare_text _ _ _ _ _ Hfile Htext Hp) as (_ & Hc & Hname & Htype & Hpath).
    rewrite Hcontent, Hmeta. simpl. rewrite Hc, Hname, Htype, Hpath. done.
Qed.

(** The theorem at the ingestion of a short text into the empty store. *)
Lemma ingest_fixed_roundtrip_witness :
  ∃ r w' d,
    IngestTool.ingestDocument TestHost.host TestHost.config TestHost.tagged
      TestHost.empty = Some (r, w') ∧
    ChromaStorage.getDocument (ir_documentId r) w' = Some d ∧
    Forall (indexedChunk w' d) (doc_chunks d) ∧
    doc_content d = "Some text.".
Proof.
  assert (∃ r w',
            IngestTool.ingestDocument TestHost.host TestHost.config TestHost.tagged
              TestHost.empty = Some (r, w') ∧ status r = success)
    as (r & w' & Hrun & Hsuccess)
    by (vm_compute; eexists _, _; split; reflexivity).
  destruct (ingest_fixed_roundtrip TestHost.host TestHost.config TestHost.tagged
              TestHost.empty r w') as (d & Hget & _ & _ & _ & Hchunks & Htext);
    [reflexivity | cbn; lia | exact Hrun | exact Hsuccess |].
  exists r, w', d. split_and!; [exact Hrun | exact Hget | exact Hchunks |].
  by apply (Htext "Some text.").
Defined.

(** ** Validation and document ids *)

Lemma allChars_app p s1 s2 :
  allChars p (s1 +:+ s2) = allChars p s1 && allChars p s2.
Proof.
  unfold allChars. induction s1 as [|c s1 IH]; simpl; [done|].
  by rewrite IH, andb_assoc.
Qed.

Lemma allChars_substring p n m s :
  allChars p s = true → allChars p (substring n m s) = true.
Proof.
  unfold allChars. revert n m. induction s as [|c s IH]; intros n m Hs.
  - by destruct n, m.
  - simpl in Hs. apply andb_true_iff in Hs as [Hc Hs].
    destruct n as [|n]; simpl; [|by apply IH].
    destruct m as [|m]; simpl; [done|]. rewrite Hc. by apply IH.
Qed.

Lemma allChars_slice p s i j :
  allChars p s = true → allChars p (JS.slice s i j) = true.
Proof. intros Hs. unfold JS.slice. by apply allChars_substring. Qed.

Lemma pretty_N_go_idChars x s :
  allChars isIdChar s = true → allChars isIdChar (pretty_N_go x s) = true.
Proof.
  revert s. induction (N.lt_wf_0 x) as [x _ IH]; intros s Hs.
  destruct (decide (x = 0%N)) as [->|Hx]; [by rewrite pretty_N_go_0|].
  rewrite pretty_N_go_step by lia.
  apply IH; [apply N.div_lt; lia|].
  unfold allChars. cbn [list_ascii_of_string forallb].
  apply andb_true_iff. split; [|done].
  unfold pretty_N_char. by repeat case_match.
Qed.

Lemma pretty_Z_idChars (t : Z) : allChars isIdChar (pretty t) = true.
Proof.
  assert (∀ n : N, allChars isIdChar (pretty n) = true) as HN.
  { intros n. unfold pretty, pretty_N. case_decide; [done|].
    by apply pretty_N_go_idChars. }
  destruct t as [|p|p]; unfold pretty, pretty_Z; [done|apply HN|].
  rewrite allChars_app. apply andb_true_iff. split; [done|apply (HN (N.pos p))].
Qed.

Lemma validateDocumentId_Ok id :
  validateDocumentId id = Ok tt ↔ id ≠ "" ∧ allChars isIdChar id = true.
Proof.
  unfold validateDocumentId, allChars. case_bool_decide as Hempty; simpl.
  - split; [done|]. by intros [? _].
  - destruct (forallb isIdChar _); simpl; split; try done. by intros [_ ?].
Qed.

Lemma documentIdAt_valid h filename t :
  allChars isIdChar (md5_hex h (sanitizeFilename filename +:+ "_" +:+ pretty t)) = true →
  validateDocumentId (IngestTool.documentIdAt h filename t) = Ok tt.
Proof.
  intros Hhex. apply validateDocumentId_Ok. unfold IngestTool.documentIdAt.
  split; [done|]. cbv zeta.
  rewrite !allChars_app, pretty_Z_idChars, allChars_slice by done. done.
Qed.

(** X13. When the host's MD5 digests are made of characters allowed in
    ids (hexadecimal digits are), every generated document id passes
    [validateDocumentId], so a document that has just been ingested can be
    deleted through the tool, under the id that ingestion returned, and is
    gone afterwards. *)
Theorem ingested_id_valid h config args w r w' :
  (∀ s, allChars isIdChar (md5_hex h s) = true) →
  IngestTool.ingestDocument h config args w = Some (r, w') →
  status r = success →
  validateDocumentId (ir_documentId r) = Ok tt ∧
  tr_success (ManagementTool.deleteDocument (ir_documentId r) w').1 = true ∧
  ChromaStorage.getDocument (ir_documentId r)
    (ManagementTool.deleteDocument (ir_documentId r) w').2 = None.
Proof.
  intros Hhex Hrun Hsuccess.
  destruct (ingestDocument_cases _ _ _ _ _ _ Hrun)
    as [(Herror & _)
       |(p & chunks & embeddings & d & w3 & _ & _ & _ & _ & _
         & -> & _ & Hid & _ & Hat & _)]; [congruence|].
  assert (validateDocumentId (ir_documentId r) = Ok tt) as Hvalid.
  { rewrite Hid, Hat. apply documentIdAt_valid, Hhex. }
  split; [done|]. unfold ManagementTool.deleteDocument. rewrite Hvalid, Hid.
  assert (ChromaStorage.getDocument (doc_id d) (ChromaStorage.storeDocument d w3)
          = Some d) as ->.
  { unfold ChromaStorage.getDocument, FileSystemStorage.loadDocument.
    by rewrite storeDocument_files, lookup_insert_eq. }
  cbn [mbind result_bind fst snd tr_success].
  split; [done|]. apply lookup_delete_eq.
Qed.

(** The digests of the example host are hexadecimal digits. *)
Lemma hexDigit_idChar n : (n < 16)%N → isIdChar (MD5.hexDigit n) = true.
Proof.
  intros Hn.
  assert (n = 0 ∨ n = 1 ∨ n = 2 ∨ n = 3 ∨ n = 4 ∨ n = 5 ∨ n = 6 ∨ n = 7 ∨ n = 8
          ∨ n = 9 ∨ n = 10 ∨ n = 11 ∨ n = 12 ∨ n = 13 ∨ n = 14 ∨ n = 15)%N as Hcases
    by lia.
  repeat (destruct Hcases as [->|Hcases]; [reflexivity|]). by subst.
Qed.

Lemma hexByte_idChars x i s :
  allChars isIdChar s = true →
  allChars isIdChar
    (let b := N.land (N.shiftr x (8 * N.of_nat i)) 255 in
     String (MD5.hexDigit (b / 16)) (String (MD5.hexDigit (b mod 16)) s)) = true.
Proof.
  intros Hs. cbv zeta.
  assert (N.land (N.shiftr x (8 * N.of_nat i)) 255 < 256)%N as Hb.
  { change 255%N with (N.ones 8). rewrite N.land_ones. by apply N.mod_lt. }
  unfold allChars. cbn [list_ascii_of_string forallb].
  rewrite !hexDigit_idChar; [done| |].
  - by apply N.mod_lt.
  - apply N.Div0.div_lt_upper_bound. lia.
Qed.

Lemma hexWord_idChars x : allChars isIdChar (MD5.hexWord x) = true.
Proof.
  unfold MD5.hexWord. cbn [seq foldr].
  repeat apply hexByte_idChars. done.
Qed.

Lemma MD5_hex_idChars s : allChars isIdChar (MD5.hex s) = true.
Proof.
  unfold MD5.hex. cbv zeta. destruct (MD5.blocks _ _ _) as [[[a b] c] d].
  by rewrite !allChars_app, !hexWord_idChars.
Qed.

(** The theorem at the ingestion of a short text into the empty store. *)
Lemma ingested_id_valid_witness :
  ∃ r w',
    IngestTool.ingestDocument TestHost.host TestHost.config TestHost.tagged
      TestHost.empty = Some (r, w') ∧
    tr_success (ManagementTool.deleteDocument (ir_documentId r) w').1 = true.
Proof.
  assert (∃ r w',
            IngestTool.ingestDocument TestHost.host TestHost.config TestHost.tagged
              TestHost.empty = Some (r, w') ∧ status r = success)
    as (r & w' & Hrun & Hsuccess)
    by (vm_compute; eexists _, _; split; reflexivity).
  exists r, w'. split; [exact Hrun|].
  apply (ingested_id_valid TestHost.host TestHost.config TestHost.tagged
           TestHost.empty r w' MD5_hex_idChars Hrun Hsuccess).
Defined.

(** ** The invariant of the store *)









(** X14. [sanitizeFilename] keeps the length of the name, leaves only
    letters, digits, dots, underscores and hyphens, changes nothing in a
    name made of such characters, and so is idempotent. *)
Theorem sanitizeFilename_safe (name : string) :
  String.length (sanitizeFilename name) = String.length name ∧
  allChars isFilenameChar (sanitizeFilename name) = true ∧
  (allChars isFilenameChar name = true → sanitizeFilename name = name) ∧
  sanitizeFilename (sanitizeFilename name) = sanitizeFilename name.
Proof.
  assert (∀ c, isFilenameChar (sanitizeChar c) = true) as Hchar.
  { intros c. unfold sanitizeChar. fold (isFilenameChar c).
    by destruct (isFilenameChar c) eqn:Hc. }
  assert (∀ s, allChars isFilenameChar (sanitizeFilename s) = true) as Hsafe.
  { unfold allChars. induction s as [|c s IH]; simpl; [done|]. by rewrite Hchar, IH. }
  assert (∀ s, allChars isFilenameChar s = true → sanitizeFilename s = s) as Hfix.
  { unfold allChars. induction s as [|c s IH]; simpl; [done|].
    intros [Hc Hs]%andb_true_iff. rewrite IH by done.
    unfold sanitizeChar. fold (isFilenameChar c). by rewrite Hc. }
  split_and!; [|apply Hsafe|apply Hfix|apply Hfix, Hsafe].
  induction name as [|c s IH]; simpl; [done|]. by rewrite IH.
Qed.

(** X15. [validateTags] is idempotent: what it returns passes it again,
    unchanged. *)
Theorem validateTags_idempotent ts validated :
  validateTags ts = Ok validated → validateTags validated = Ok validated.
Proof.
  intros Hts. pose proof (validateTags_tag_ok _ _ Hts) as Hok.
  pose proof (validateTags_inv _ _ Hts) as Hvalidated.
  assert (List.length validated ≤ 100)%nat as Hlen.
  { unfold validateTags in Hts.
    destruct (Z.ltb_spec 100 (Z.of_nat (List.length ts))); [done|].
    rewrite Hvalidated.
    pose proof (length_filter_split (λ tag, 0 <? JS.length tag) (map JS.trim ts)) as Hs.
    rewrite length_map in Hs. lia. }
  rewrite validateTags_ok by done. f_equal.
  clear -Hok. induction Hok as [|tag tags [Htrim Hne] _ IH]; [done|].
  simpl. rewrite Htrim, IH.
  destruct (Z.ltb_spec 0 (JS.length tag)) as [_|Hzero]; [done|].
  exfalso. apply Hne. unfold JS.length in Hzero. destruct tag; [done|simpl in Hzero; lia].
Qed.

(** The theorem at three tags, one padded and one blank. *)
Lemma validateTags_idempotent_witness :
  validateTags ["a"; "a"] = Ok ["a"; "a"].
Proof.
  apply (validateTags_idempotent ["a"; " a "; "  "]). vm_compute. reflexivity.
Defined.

(** ** Errors *)

(** X16. [ingestDocument] given neither a file nor a text, or both,
    reports an error and leaves the store as it was; an empty text counts
    as no text. *)
Theorem ingestDocument_arguments h config args w :
  JS.truthy (file_path args) = JS.truthy (text_content args) →
  IngestTool.ingestDocument h config args w =
    Some ({| ir_documentId := ""; chunksCreated := 0; status := error;
             message :=
               Some (if JS.truthy (file_path args)
                     then "Cannot provide both file_path and text_content"
                     else "Either file_path or text_content must be provided") |},
          w).
Proof.
  intros Hsame.
  unfold IngestTool.ingestDocument, IngestTool.ingestBody, IngestTool.prepare.
  rewrite <- Hsame. by destruct (JS.truthy (file_path args)).
Qed.

(** The theorem at an empty text. *)
Lemma ingestDocument_arguments_witness :
  status <$> (fst <$> IngestTool.ingestDocument TestHost.host TestHost.config
                        {| file_path := None; text_content := Some "";
                           arg_metadata := None; arg_tags := None |}
                        TestHost.empty)
  = Some error.
Proof.
  by rewrite (ingestDocument_arguments TestHost.host TestHost.config
                {| file_path := None; text_content := Some "";
                   arg_metadata := None; arg_tags := None |} TestHost.empty eq_refl).
Defined.

(** A search reads the documents and the index only. *)
Lemma searchSimilar_ext h embedding options w w' :
  files w' = files w → vectorIndex w' = vectorIndex w →
  ChromaStorage.searchSimilar h embedding options w'
  = ChromaStorage.searchSimilar h embedding options w.
Proof.
  intros Hfiles Hindex. unfold ChromaStorage.searchSimilar. rewrite Hindex.
  destruct (ChromaStorage.similaritiesOf _ _ _ _) as [similarities|]; [|done].
  f_equal. apply list_omap_ext, Forall2_same_length_lookup. split; [done|].
  intros i r r' Hr Hr'. simplify_eq.
  unfold ChromaStorage.buildResult, ChromaStorage.getDocument,
    FileSystemStorage.loadDocument. by rewrite Hfiles.
Qed.

(** X17. An ingestion that fails stores nothing: it returns the empty id
    and no chunks, the documents and the vector index are as before, and
    every search gives what it gave before. *)
Theorem failed_ingestion_stores_nothing h config args w r w' :
  IngestTool.ingestDocument h config args w = Some (r, w') →
  status r = error →
  ir_documentId r = "" ∧ chunksCreated r = 0 ∧
  files w' = files w ∧ vectorIndex w' = vectorIndex w ∧
  ∀ embedding options,
    ChromaStorage.searchSimilar h embedding options w'
    = ChromaStorage.searchSimilar h embedding options w.
Proof.
  intros Hrun Herror.
  destruct (ingestDocument_cases _ _ _ _ _ _ Hrun)
    as [(_ & Hid & Hn & Hfiles & Hindex)
       |(p & chunks & embeddings & d & w3 & _ & _ & _ & _ & _ & _ & Hsuccess & _)];
    [|congruence].
  split_and!; try done. intros. by apply searchSimilar_ext.
Qed.

(** The theorem at the ingestion of an empty file into a store of two
    documents. *)
Lemma failed_ingestion_stores_nothing_witness :
  ∃ r w',
    IngestTool.ingestDocument TestHost.host TestHost.config
      (IngestTool.fileArgs "/docs/three.txt") TestHost.tied = Some (r, w') ∧
    files w' = files TestHost.tied ∧ vectorIndex w' = vectorIndex TestHost.tied.
Proof.
  assert (∃ r w',
            IngestTool.ingestDocument TestHost.host TestHost.config
              (IngestTool.fileArgs "/docs/three.txt") TestHost.tied = Some (r, w')
            ∧ status r = error)
    as (r & w' & Hrun & Herror)
    by (vm_compute; eexists _, _; split; reflexivity).
  destruct (failed_ingestion_stores_nothing _ _ _ _ _ _ Hrun Herror)
    as (_ & _ & Hfiles & Hindex & _).
  exists r, w'. split_and!; assumption.
Defined.

(** X18. [batchIngest] throws only before it ingests anything, when the
    directory fails validation or cannot be listed; the store is then as
    it was. Once the files are listed it does not throw, whatever
    happens to each file. *)
Theorem batchIngest_throws_at_start h config args w msg w' :
  IngestTool.batchIngest h config args w = Some (Throw msg, w') →
  w' = w ∧
  (validateDirectoryPath h (directory_path args) = Throw msg ∨
   IngestTool.findFiles h config (directory_path args)
     (default ["*"] (file_patterns args))
     (negb (bool_decide (recursive args = Some false))) = Throw msg).
Proof.
  unfold IngestTool.batchIngest.
  destruct (validateDirectoryPath h (directory_path args)) as [[]|msg'] eqn:Hdir.
  - cbn [mbind result_bind].
    destruct (IngestTool.findFiles _ _ _ _ _) as [files|msg'] eqn:Hfiles.
    + destruct (IngestTool.batchLoop _ _ _ _ _) as [[b w1]|]; [|done]. done.
    + intros [= <- <-]. split; [done|by right].
  - cbn [mbind result_bind]. intros [= <- <-]. split; [done|by left].
Qed.

(** The theorem at a directory that does not exist. *)
Lemma batchIngest_throws_at_start_witness :
  validateDirectoryPath TestHost.host "/nowhere"
  = Throw "Directory not found: /nowhere".
Proof.
  destruct (batchIngest_throws_at_start TestHost.host TestHost.config
              {| directory_path := "/nowhere"; file_patterns := None;
                 recursive := None |}
              TestHost.tied "Directory not found: /nowhere" TestHost.tied)
    as [_ [Hdir|Hlist]]; [reflexivity | exact Hdir | by vm_compute in Hlist].
Defined.



(** ** Search, continued *)

(** X20. A search throws exactly when some entry of the index has no
    embedding, and then with the message of the failed property access;
    otherwise it returns. *)
Theorem searchSimilar_throws_iff h embedding options w :
  (Exists (λ kv, ie_embedding kv.2 = None) (vectorIndex w) ↔
   ChromaStorage.searchSimilar h embedding options w
   = Throw "Search failed: Cannot read properties of undefined (reading 'length')") ∧
  (Forall hasEmbedding (vectorIndex w) ↔
   ∃ results, ChromaStorage.searchSimilar h embedding options w = Ok results).
Proof.
  unfold ChromaStorage.searchSimilar.
  assert (∀ entries,
            (Forall hasEmbedding entries ∧
             ∃ s, ChromaStorage.similaritiesOf h embedding options entries = Ok s) ∨
            (Exists (λ kv, ie_embedding kv.2 = None) entries ∧
             ChromaStorage.similaritiesOf h embedding options entries
             = Throw "Cannot read properties of undefined (reading 'length')"))
    as Hcases.
  { induction entries as [|[key data] entries IH].
    - left. split; [constructor|by eexists].
    - cbn [ChromaStorage.similaritiesOf].
      destruct (ie_embedding data) as [e|] eqn:He.
      + destruct IH as [[Hall [s ->]]|[Hex ->]].
        * left. split; [|by eexists]. constructor; [|done]. by exists e.
        * right. split; [by apply Exists_cons_tl|done].
      + right. split; [by apply Exists_cons_hd|done]. }
  destruct (Hcases (vectorIndex w)) as [[Hall [s ->]]|[Hex ->]]; split; split;
    try done; try (by eexists).
  - intros Hex. exfalso. apply Exists_exists in Hex as (kv & Hkv & Hnone).
    rewrite Forall_forall in Hall. destruct (Hall kv Hkv) as [e He]. congruence.
  - intros Hall. exfalso. apply Exists_exists in Hex as (kv & Hkv & Hnone).
    rewrite Forall_forall in Hall. destruct (Hall kv Hkv) as [e He]. congruence.
  - by intros [? ?].
Qed.

(** The results of a search are in descending order of score, at most
    [maxResults || 10] when that is not negative, and not below a non-zero
    threshold. *)
Lemma searchSimilar_ranked h embedding options w results :
  ChromaStorage.searchSimilar h embedding options w = Ok results →
  StronglySorted (λ a b, (sr_score b <= sr_score a)%Q) results ∧
  (0 ≤ ChromaStorage.maxResultsOf options →
   (List.length results ≤ Z.to_nat (ChromaStorage.maxResultsOf options))%nat) ∧
  (∀ t, similarityThreshold options = Some t → ¬ (t == 0)%Q →
     Forall (λ r, (t <= sr_score r)%Q) results).
Proof.
  unfold ChromaStorage.searchSimilar. intros Hsearch.
  destruct (ChromaStorage.similaritiesOf h embedding options (vectorIndex w))
    as [survivors|] eqn:Hsim; [|done].
  injection Hsearch as <-.
  pose proof (SearchFacts.similaritiesOf_inv _ _ _ _ _ Hsim) as Hemb.
  rewrite (SearchFacts.similaritiesOf_ok _ _ _ _ Hemb) in Hsim.
  injection Hsim as Hsurv. split_and!.
  - eapply StronglySorted_omap.
    + intros x y x' y' Hxy Hx Hy.
      rewrite (SearchFacts.buildResult_score _ _ _ _ Hx),
        (SearchFacts.buildResult_score _ _ _ _ Hy). exact Hxy.
    + unfold ChromaStorage.topResults. rewrite sliceA_0_take.
      apply StronglySorted_take, (sort_sorted score).
  - intros Hk. etrans; [apply length_omap_le|].
    unfold ChromaStorage.topResults. by apply sliceA_0_length.
  - intros t Ht Hne. apply Forall_forall. intros r Hr.
    apply list_elem_of_omap in Hr as (x & Hx & Hb).
    rewrite (SearchFacts.buildResult_score _ _ _ _ Hb).
    apply SearchFacts.topResults_elem in Hx. rewrite <- Hsurv in Hx.
    apply list_elem_of_In, filter_In in Hx as [_ Hx].
    apply negb_true_iff in Hx.
    by eapply SearchFacts.belowThreshold_false.
Qed.

Lemma validateSearchQuery_Ok query :
  validateSearchQuery query = Ok tt ↔
  JS.blank query = false ∧ JS.length query ≤ 10000.
Proof.
  unfold validateSearchQuery.
  destruct (JS.blank query) eqn:Hblank.
  - assert (JS.trim query = "") as Htrim by (by apply trim_empty_iff).
    case_bool_decide; cbn [mbind result_bind throwIf]; [by split; [|intros []]|].
    rewrite Htrim. cbn. by split; [|intros []].
  - assert (query ≠ "") as Hne by (by intros ->).
    rewrite bool_decide_false by done. cbn [mbind result_bind throwIf].
    pose proof (trim_length_pos query) as Hpos. rewrite Hblank in Hpos.
    apply Z.ltb_lt in Hpos.
    destruct (Z.eqb_spec (JS.length (JS.trim query)) 0) as [Hz|_]; [lia|].
    cbn [mbind result_bind].
    destruct (Z.ltb_spec 10000 (JS.length query)); cbn; split; try done; try lia.
Qed.

(** X21. What [searchKnowledge] returns: the query has passed
    validation (it is not blank and has at most 10000 characters); the
    results are the formatted results of the storage search with the
    embedding of the query, each accounted for by the index and the store;
    they come in descending order of score; there are at most
    [max_results] of them, 10 when [max_results] is absent or 0; and none
    scores below a non-zero [similarity_threshold]. *)
Theorem searchKnowledge_results h args w formatted :
  SearchTool.searchKnowledge h args w = Ok formatted →
  let k := match max_results args with
           | Some k => if k =? 0 then 10 else k
           | None => 10
           end in
  (JS.blank (s_query args) = false ∧ JS.length (s_query args) ≤ 10000) ∧
  (∃ q results,
     generateEmbedding h (s_query args) = Ok q ∧
     formatted = map SearchTool.format results ∧
     Forall (accounted h q w) results) ∧
  StronglySorted (λ a b, (fr_score b <= fr_score a)%Q) formatted ∧
  (0 ≤ k → (List.length formatted ≤ Z.to_nat k)%nat) ∧
  (∀ t, similarity_threshold args = Some t → ¬ (t == 0)%Q →
     Forall (λ f, (t <= fr_score f)%Q) formatted).
Proof.
  unfold SearchTool.searchKnowledge. intros Hrun. cbv zeta.
  destruct (SearchTool.searchBody h args w) as [formatted'|] eqn:Hbody; [|done].
  injection Hrun as ->. unfold SearchTool.searchBody in Hbody.
  apply bind_Ok in Hbody as ([] & Hquery & Hbody).
  apply bind_Ok in Hbody as (_ & _ & Hbody).
  apply bind_Ok in Hbody as (q & Hq & Hbody).
  apply bind_Ok in Hbody as (results & Hsearch & Hbody).
  injection Hbody as <-.
  destruct (searchSimilar_ranked _ _ _ _ _ Hsearch) as (Hsorted & Hmax & Hthreshold).
  assert (ChromaStorage.maxResultsOf (SearchTool.searchOptions args)
          = match max_results args with
            | Some k => if k =? 0 then 10 else k
            | None => 10
            end) as Hk.
  { unfold ChromaStorage.maxResultsOf, SearchTool.searchOptions. cbn [maxResults].
    destruct (max_results args) as [k|]; [|done].
    destruct (Z.eqb_spec k 0) as [->|Hne]; [done|].
    by destruct (Z.eqb_spec k 0). }
  rewrite Hk in Hmax.
  split; [by apply validateSearchQuery_Ok|]. split; [|split_and!].
  - exists q, results. split_and!; [done|done|].
    apply Forall_forall. intros r Hr. by eapply searchSimilar_elem.
  - clear -Hsorted. induction Hsorted as [|r rs _ IH Hr]; [constructor|].
    cbn [map]. constructor; [done|]. apply Forall_forall. intros f Hf.
    apply list_elem_of_In, in_map_iff in Hf as (r' & <- & Hr').
    rewrite Forall_forall in Hr. apply Hr. by apply list_elem_of_In.
  - intros Hpos. rewrite length_map. by apply Hmax.
  - intros t Ht Hne.
    assert (Forall (λ r, (t <= sr_score r)%Q) results) as Hall.
    { apply Hthreshold; [|done]. cbn [similarityThreshold SearchTool.searchOptions].
      by rewrite Ht. }
    apply Forall_forall. intros f Hf.
    apply list_elem_of_In, in_map_iff in Hf as (r' & <- & Hr').
    rewrite Forall_forall in Hall. apply Hall. by apply list_elem_of_In.
Qed.

(** The theorem at a search of the two documents of equal embedding. *)
Lemma searchKnowledge_results_witness :
  ∃ formatted,
    SearchTool.searchKnowledge TestHost.host
      {| s_query := "text"; max_results := Some 1; similarity_threshold := None;
         filter_metadata := None; filter_tags := None |} TestHost.tied
    = Ok formatted ∧
    (List.length formatted ≤ 1)%nat.
Proof.
  assert (∃ formatted,
            SearchTool.searchKnowledge TestHost.host
              {| s_query := "text"; max_results := Some 1;
                 similarity_threshold := None;
                 filter_metadata := None; filter_tags := None |} TestHost.tied
            = Ok formatted) as [formatted Hrun]
    by (vm_compute; eexists; reflexivity).
  exists formatted. split; [exact Hrun|].
  destruct (searchKnowledge_results _ _ _ _ Hrun) as (_ & _ & _ & Hmax & _).
  apply Hmax. cbn. lia.
Defined.

(** X22. [searchKnowledge] rejects a blank query and a query of more
    than 10000 characters, whatever the embedding provider and the store
    hold. *)
Theorem searchKnowledge_rejects_query h args w :
  JS.blank (s_query args) = true ∨ 10000 < JS.length (s_query args) →
  ∃ msg,
    SearchTool.searchKnowledge h args w
    = Throw ("Search failed: Invalid search query: " +:+ msg).
Proof.
  intros Hbad. unfold SearchTool.searchKnowledge, SearchTool.searchBody.
  destruct (validateSearchQuery (s_query args)) as [[]|msg] eqn:Hquery.
  - apply validateSearchQuery_Ok in Hquery as [Hblank Hlen].
    destruct Hbad as [Hb|Hl]; [congruence|lia].
  - cbn [mbind result_bind].
    unfold validateSearchQuery in Hquery.
    repeat (match type of Hquery with
            | context [throwIf ?c _] => destruct c; cbn in Hquery
            end; try (injection Hquery as <-; by eexists)).
    done.
Qed.

(** The theorem at a query of spaces. *)
Lemma searchKnowledge_rejects_query_witness :
  ∃ msg,
    SearchTool.searchKnowledge TestHost.host
      {| s_query := "   "; max_results := None; similarity_threshold := None;
         filter_metadata := None; filter_tags := None |} TestHost.tied
    = Throw ("Search failed: Invalid search query: " +:+ msg).
Proof.
  apply searchKnowledge_rejects_query. left. reflexivity.
Defined.

(** ** Sentence-aware chunking *)

Lemma trimStart_length s : (String.length (JS.trimStart s) ≤ String.length s)%nat.
Proof.
  induction s as [|c s IH]; simpl; [done|]. destruct (JS.isWhiteSpace c); simpl; lia.
Qed.

Lemma trimEnd_length s : (String.length (JS.trimEnd s) ≤ String.length s)%nat.
Proof.
  induction s as [|c s IH]; [done|]. cbn [JS.trimEnd].
  destruct (JS.blank (String c s)); simpl; lia.
Qed.

Lemma trim_length s : JS.length (JS.trim s) ≤ JS.length s.
Proof.
  unfold JS.length, JS.trim.
  pose proof (trimEnd_length (JS.trimStart s)). pose proof (trimStart_length s). lia.
Qed.

Lemma substring_length_le n m s : (String.length (substring n m s) ≤ m)%nat.
Proof.
  revert n m. induction s as [|c s IH]; intros n m.
  - destruct n, m; simpl; lia.
  - destruct n as [|n]; simpl; [|apply IH].
    destruct m as [|m]; simpl; [lia|]. specialize (IH 0%nat m). lia.
Qed.

Lemma slice_length s i j : 0 ≤ JS.length (JS.slice s i j) ≤ JS.length s.
Proof.
  unfold JS.slice, JS.length. cbv zeta. split; [lia|].
  etrans; [apply inj_le, substring_length_le|].
  unfold JS.clamp, JS.length.
  destruct (Z.ltb_spec i 0), (Z.ltb_spec j 0); lia.
Qed.

Lemma slice_tail_length text n :
  0 < n → JS.length (JS.slice text (- n) (JS.length text)) ≤ n.
Proof.
  intros Hpos. unfold JS.slice, JS.clamp. cbv zeta.
  destruct (Z.ltb_spec (- n) 0); [|lia].
  destruct (Z.ltb_spec (JS.length text) 0); [unfold JS.length in *; lia|].
  etrans; [apply inj_le, substring_length_le|]. lia.
Qed.

Lemma contiguous_snoc cs c :
  contiguous cs → chunk_index c = Z.of_nat (List.length cs) → contiguous (cs ++ [c]).
Proof.
  unfold contiguous. intros Hcs Hc.
  rewrite fmap_app, length_app, Hcs. simpl.
  rewrite Nat.add_1_r, seq_S, fmap_app. simpl. by rewrite Hc.
Qed.

Lemma chained_snoc cs c :
  chained cs →
  match last cs with
  | Some c0 => startChar (chunk_metadata c0) ≤ startChar (chunk_metadata c)
               ≤ endChar (chunk_metadata c0)
  | None => True
  end →
  chained (cs ++ [c]).
Proof.
  intros Hcs Hlast i c1 c2 H1 H2.
  destruct (decide (S i < List.length cs)%nat) as [Hlt|Hge].
  - rewrite lookup_app_l in H1 by lia. rewrite lookup_app_l in H2 by lia. eauto.
  - assert (S i = List.length cs) as Hi.
    { apply lookup_lt_Some in H2. rewrite length_app in H2. simpl in H2. lia. }
    rewrite lookup_app_l in H1 by lia.
    rewrite lookup_app_r, Hi, Nat.sub_diag in H2 by lia. injection H2 as <-.
    rewrite last_lookup in Hlast.
    replace (pred (List.length cs)) with i in Hlast by lia.
    rewrite H1 in Hlast. lia.
Qed.

Lemma string_length_positive s : s ≠ "" → 0 < JS.length s.
Proof. destruct s; [done|]. unfold JS.length. simpl. lia. Qed.

Module SentenceFacts.
Import SentenceChunking.

(** The overlap text is never longer than the text; a positive overlap
    bounds it; an overlap of 0 carries the whole text over. *)
Lemma sentence_getOverlapText_length tokenize text overlapSize :
  JS.length (getOverlapText tokenize text overlapSize) ≤ JS.length text ∧
  (0 < overlapSize →
   JS.length (getOverlapText tokenize text overlapSize) ≤ overlapSize) ∧
  (overlapSize = 0 → getOverlapText tokenize text overlapSize = text).
Proof.
  unfold getOverlapText.
  destruct (Z.eqb_spec overlapSize 0) as [->|Hne]; cbn [orb].
  { split_and!; [lia|lia|done]. }
  destruct (Z.leb_spec (JS.length text) overlapSize) as [Hle|Hlt].
  { split_and!; [lia|lia|done]. }
  cbv zeta.
  pose proof (slice_length text (- overlapSize) (JS.length text)) as Hs.
  pose proof (slice_tail_length text overlapSize) as Hs'.
  destruct (List.find _ (candidates " " (tokenize text))) as [p|] eqn:Hfind; simpl.
  - apply find_some in Hfind as [_ Hp]. apply Z.leb_le in Hp.
    case_bool_decide as Hempty; split_and!; lia.
  - split_and!; lia.
Qed.

Lemma sentence_createChunk_ranged content index s :
  0 ≤ s → rangedChunk (createChunk content index s (s + JS.length content)).
Proof.
  intros Hs. unfold rangedChunk, createChunk. simpl.
  split_and!; try done; [apply trim_idemp|].
  pose proof (trim_length content). lia.
Qed.

Lemma sentence_invariant_body tokenize options n st sentence :
  sentenceInvariant n st → sentenceInvariant (S n) (body tokenize options st sentence).
Proof.
  intros (Hcont & Hidx & Hranged & Hchained & Hstart & Hhead & Hlast & Hcount).
  unfold body. cbv zeta.
  destruct (_ && _) eqn:Hpush.
  - apply andb_true_iff in Hpush as [_ Hcur]. apply Z.ltb_lt in Hcur.
    pose proof (sentence_getOverlapText_length tokenize (currentChunk st) (chunkOverlap options))
      as [Hoverlap _].
    assert (0 ≤ JS.length (getOverlapText tokenize (currentChunk st)
                             (chunkOverlap options))) by (unfold JS.length; lia).
    assert (currentChunk st ≠ "") as Hne by (intros Heq; rewrite Heq in Hcur; done).
    rewrite bool_decide_false in Hcount by done.
    unfold sentenceInvariant. cbn [chunks currentChunk currentStart chunkIndex].
    split_and!.
    + by apply contiguous_snoc.
    + rewrite length_app. simpl. lia.
    + apply Forall_app. split; [done|]. constructor; [|done].
      by apply sentence_createChunk_ranged.
    + apply chained_snoc; [done|]. destruct (last (chunks st)); simpl; lia.
    + lia.
    + intros c. destruct (chunks st) as [|c0 cs] eqn:Hcs; simpl.
      * intros [= <-]. simpl. by simpl in Hlast.
      * intros [= <-]. by apply Hhead.
    + rewrite last_snoc. simpl. lia.
    + rewrite length_app. simpl. case_bool_decide; lia.
  - unfold sentenceInvariant. cbn [chunks currentChunk currentStart chunkIndex].
    split_and!; try done. case_bool_decide; case_bool_decide; lia.
Qed.

Lemma sentence_invariant_loop tokenize options sentences n st :
  sentenceInvariant n st →
  sentenceInvariant (n + List.length sentences) (foldl (body tokenize options) st sentences).
Proof.
  revert n st. induction sentences as [|s ss IH]; intros n st Hinv.
  - simpl. by rewrite Nat.add_0_r.
  - simpl. replace (n + S (List.length ss))%nat with (S n + List.length ss)%nat by lia.
    apply IH. by apply sentence_invariant_body.
Qed.

Lemma sentence_invariant_init : sentenceInvariant 0 init.
Proof.
  unfold sentenceInvariant. simpl. split_and!; try done; try constructor.
Qed.

End SentenceFacts.

(** X23. Whatever the tokenizer, the sentence strategy returns chunks
    numbered 0, 1, ..., at most one per sentence, each without id, document
    or embedding, with a trimmed content not longer than its range; the
    first range starts at 0 and each following range starts inside the
    range before it or at its end. *)
Theorem sentence_chunks_shape tokenize text options :
  let cs := SentenceChunking.chunk tokenize text options in
  contiguous cs ∧
  (List.length cs ≤ List.length (tokenize text))%nat ∧
  Forall rangedChunk cs ∧
  chained cs ∧
  (∀ c, head cs = Some c → startChar (chunk_metadata c) = 0).
Proof.
  cbv zeta. unfold SentenceChunking.chunk.
  pose proof (SentenceFacts.sentence_invariant_loop tokenize options (tokenize text) 0
                SentenceChunking.init SentenceFacts.sentence_invariant_init) as Hinv.
  simpl in Hinv.
  destruct Hinv as (Hcont & Hidx & Hranged & Hchained & Hstart & Hhead & Hlast & Hcount).
  set (st := foldl _ _ _) in *. unfold SentenceChunking.finish.
  destruct (Z.ltb_spec 0 (JS.length (JS.trim (SentenceChunking.currentChunk st))))
    as [Hrest|Hnone].
  - assert (SentenceChunking.currentChunk st ≠ "") as Hne
      by (intros Heq; rewrite Heq in Hrest; done).
    rewrite bool_decide_false in Hcount by done. split_and!.
    + by apply contiguous_snoc.
    + rewrite length_app. simpl. lia.
    + apply Forall_app. split; [done|]. constructor; [|done].
      by apply SentenceFacts.sentence_createChunk_ranged.
    + apply chained_snoc; [done|].
      destruct (last (SentenceChunking.chunks st)); simpl; [lia|done].
    + intros c. destruct (SentenceChunking.chunks st) as [|c0 cs] eqn:Hcs; simpl.
      * intros [= <-]. simpl. by simpl in Hlast.
      * intros [= <-]. by apply Hhead.
  - split_and!; try done. case_bool_decide; lia.
Qed.

Lemma foldl_invariant {A B} (P : A → Prop) (f : A → B → A) (l : list B) a :
  P a → (∀ a x, P a → P (f a x)) → P (foldl f a l).
Proof.
  intros Ha Hf. revert a Ha. induction l as [|x l IH]; intros a Ha; simpl; auto.
Qed.

(** X24. The text that the sentence strategy carries from a chunk into
    the next is never longer than the chunk and, for a positive overlap,
    not longer than the overlap; an overlap of 0 carries the whole chunk
    over, so that with [chunkOverlap = 0] every chunk starts at 0. *)
Theorem sentence_overlap tokenize text options :
  let carried :=
    SentenceChunking.getOverlapText tokenize text (chunkOverlap options) in
  JS.length carried ≤ JS.length text ∧
  (0 < chunkOverlap options → JS.length carried ≤ chunkOverlap options) ∧
  (chunkOverlap options = 0 →
   carried = text ∧
   Forall (λ c, startChar (chunk_metadata c) = 0)
     (SentenceChunking.chunk tokenize text options)).
Proof.
  cbv zeta.
  destruct (SentenceFacts.sentence_getOverlapText_length tokenize text (chunkOverlap options))
    as (Hlen & Hpos & Hzero).
  split_and!; [done|done|]. intros Hoverlap. split; [by apply Hzero|].
  unfold SentenceChunking.chunk.
  assert (let st := foldl (SentenceChunking.body tokenize options)
                      SentenceChunking.init (tokenize text) in
          SentenceChunking.currentStart st = 0 ∧
          Forall (λ c, startChar (chunk_metadata c) = 0) (SentenceChunking.chunks st))
    as [Hstart Hall].
  { apply (foldl_invariant
             (λ st, SentenceChunking.currentStart st = 0 ∧
                    Forall (λ c, startChar (chunk_metadata c) = 0)
                      (SentenceChunking.chunks st))); [by split|].
    intros st sentence [Hstart Hall]. unfold SentenceChunking.body. cbv zeta.
    destruct (_ && _); simpl; [|done].
    rewrite (proj2 (proj2 (SentenceFacts.sentence_getOverlapText_length tokenize
                             (SentenceChunking.currentChunk st)
                             (chunkOverlap options))) Hoverlap).
    split; [lia|]. apply Forall_app. split; [done|]. by constructor. }
  unfold SentenceChunking.finish. destruct (0 <? _); [|done].
  apply Forall_app. split; [done|]. by constructor.
Qed.

(** ** Paragraph-aware chunking *)

Lemma append_nonempty s1 s2 : s2 ≠ "" → s1 +:+ s2 ≠ "".
Proof. destruct s1; simpl; [done|]. by intros. Qed.

Module ParagraphFacts.
Import ParagraphChunking.

Lemma paragraph_getOverlapText_length split text overlapSize :
  JS.length (getOverlapText split text overlapSize) ≤ JS.length text ∧
  (0 < overlapSize →
   JS.length (getOverlapText split text overlapSize) ≤ overlapSize) ∧
  (overlapSize = 0 → getOverlapText split text overlapSize = text).
Proof.
  unfold getOverlapText.
  destruct (Z.eqb_spec overlapSize 0) as [->|Hne]; cbn [orb].
  { split_and!; [lia|lia|done]. }
  destruct (Z.leb_spec (JS.length text) overlapSize) as [Hle|Hlt].
  { split_and!; [lia|lia|done]. }
  cbv zeta.
  pose proof (slice_length text (- overlapSize) (JS.length text)) as Hs.
  pose proof (slice_tail_length text overlapSize) as Hs'.
  destruct (List.find _ (candidates blankLine (split text))) as [p|] eqn:Hfind; simpl.
  - apply find_some in Hfind as [_ Hp]. apply Z.leb_le in Hp.
    case_bool_decide as Hempty; split_and!; lia.
  - split_and!; lia.
Qed.

Lemma paragraph_createChunk_ranged content index s :
  0 ≤ s → rangedChunk (createChunk content index s (s + JS.length content)).
Proof.
  intros Hs. unfold rangedChunk, createChunk. simpl.
  split_and!; try done; [apply trim_idemp|].
  pose proof (trim_length content). lia.
Qed.

Lemma paragraph_invariant_body split options n st paragraph :
  JS.trim paragraph ≠ "" →
  paragraphInvariant n st → paragraphInvariant (S n) (body split options st paragraph).
Proof.
  intros Hpar (Hcont & Hidx & Hranged & Hchained & Hstart & Hhead & Hlast & Hpos
               & Hcount).
  unfold body. cbv zeta.
  destruct (_ && _) eqn:Hpush.
  - apply andb_true_iff in Hpush as [_ Hcur]. apply Z.ltb_lt in Hcur.
    pose proof (paragraph_getOverlapText_length split (currentChunk st) (chunkOverlap options))
      as [Hoverlap _].
    assert (0 ≤ JS.length (getOverlapText split (currentChunk st)
                             (chunkOverlap options))) by (unfold JS.length; lia).
    assert (currentChunk st ≠ "") as Hne by (intros Heq; rewrite Heq in Hcur; done).
    rewrite bool_decide_false in Hcount by done.
    unfold paragraphInvariant. cbn [chunks currentChunk currentStart chunkIndex charPosition].
    split_and!.
    + by apply contiguous_snoc.
    + rewrite length_app. simpl. lia.
    + apply Forall_app. split; [done|]. constructor; [|done].
      by apply paragraph_createChunk_ranged.
    + apply chained_snoc; [done|]. destruct (last (chunks st)); simpl; lia.
    + lia.
    + intros c. destruct (chunks st) as [|c0 cs] eqn:Hcs; simpl.
      * intros [= <-]. simpl. by simpl in Hlast.
      * intros [= <-]. by apply Hhead.
    + rewrite last_snoc. simpl. lia.
    + intros Hempty. exfalso. revert Hempty. by apply append_nonempty, append_nonempty.
    + rewrite length_app. simpl. case_bool_decide; lia.
  - unfold paragraphInvariant. cbn [chunks currentChunk currentStart chunkIndex charPosition].
    case_bool_decide as Hempty.
    + destruct (Hpos Hempty) as [-> Hnil]. rewrite Hnil in *.
      split_and!; try done.
      * intros Hnew. exfalso. revert Hnew. by apply append_nonempty, append_nonempty.
      * case_bool_decide; lia.
    + split_and!; try done.
      * intros Hnew. exfalso. revert Hnew. by apply append_nonempty, append_nonempty.
      * case_bool_decide; lia.
Qed.

Lemma paragraph_invariant_loop split options paragraphs n st :
  Forall (λ p, JS.trim p ≠ "") paragraphs →
  paragraphInvariant n st →
  paragraphInvariant (n + List.length paragraphs) (foldl (body split options) st paragraphs).
Proof.
  intros Hpars. revert n st. induction Hpars as [|p ps Hp _ IH]; intros n st Hinv.
  - simpl. by rewrite Nat.add_0_r.
  - simpl. replace (n + S (List.length ps))%nat with (S n + List.length ps)%nat by lia.
    apply IH. by apply paragraph_invariant_body.
Qed.

Lemma paragraph_invariant_init : paragraphInvariant 0 init.
Proof.
  unfold paragraphInvariant. simpl. split_and!; try done; try constructor.
Qed.

Lemma paragraphsOf_nonblank split text :
  Forall (λ p, JS.trim p ≠ "") (paragraphsOf split text).
Proof.
  apply Forall_forall. intros p Hp.
  apply list_elem_of_In, filter_In in Hp as [_ Hp]. intros Heq.
  by rewrite Heq in Hp.
Qed.

End ParagraphFacts.

(** X25. Whatever the split of the text into paragraphs, the paragraph
    strategy returns chunks numbered 0, 1, ..., at most one per paragraph
    that is not blank, each without id, document or embedding, with a
    trimmed content not longer than its range; the first range starts at 0
    and each following range starts inside the range before it or at its
    end; the carried text is bounded as for sentences, and with
    [chunkOverlap = 0] every chunk starts at 0. *)
Theorem paragraph_chunks_shape split text options :
  let cs := ParagraphChunking.chunk split text options in
  contiguous cs ∧
  (List.length cs ≤ List.length (ParagraphChunking.paragraphsOf split text))%nat ∧
  Forall rangedChunk cs ∧
  chained cs ∧
  (∀ c, head cs = Some c → startChar (chunk_metadata c) = 0) ∧
  (∀ chunkText,
     let carried :=
       ParagraphChunking.getOverlapText split chunkText (chunkOverlap options) in
     JS.length carried ≤ JS.length chunkText ∧
     (0 < chunkOverlap options → JS.length carried ≤ chunkOverlap options)) ∧
  (chunkOverlap options = 0 →
   Forall (λ c, startChar (chunk_metadata c) = 0) cs).
Proof.
  cbv zeta. unfold ParagraphChunking.chunk.
  pose proof (ParagraphFacts.paragraphsOf_nonblank split text) as Hpars.
  pose proof (ParagraphFacts.paragraph_invariant_loop split options _ 0
                ParagraphChunking.init Hpars ParagraphFacts.paragraph_invariant_init) as Hinv.
  simpl in Hinv.
  destruct Hinv as (Hcont & Hidx & Hranged & Hchained & Hstart & Hhead & Hlast & _
                    & Hcount).
  assert (chunkOverlap options = 0 →
          let st := foldl (ParagraphChunking.body split options)
                      ParagraphChunking.init
                      (ParagraphChunking.paragraphsOf split text) in
          ParagraphChunking.currentStart st = 0 ∧
          Forall (λ c, startChar (chunk_metadata c) = 0) (ParagraphChunking.chunks st))
    as Hzero.
  { intros Hoverlap. cbv zeta. clear -Hoverlap Hpars.
    revert Hpars.
    generalize (ParagraphFacts.paragraph_invariant_init). generalize 0%nat.
    assert (ParagraphChunking.currentStart ParagraphChunking.init = 0 ∧
            Forall (λ c, startChar (chunk_metadata c) = 0)
              (ParagraphChunking.chunks ParagraphChunking.init)) as Hinit by (by split).
    revert Hinit. generalize ParagraphChunking.init.
    induction (ParagraphChunking.paragraphsOf split text) as [|p ps IH];
      intros st Hst n Hinv Hpars; [done|].
    apply Forall_cons in Hpars as [Hp Hpars]. simpl.
    apply (IH _) with (n := S n);
      [|by apply ParagraphFacts.paragraph_invariant_body|done].
    destruct Hst as [Hstart Hall].
    destruct Hinv as (_ & _ & _ & _ & _ & _ & _ & Hpos & _).
    unfold ParagraphChunking.body. cbv zeta.
    destruct (_ && _); simpl.
    - rewrite (proj2 (proj2 (ParagraphFacts.paragraph_getOverlapText_length split
                               (ParagraphChunking.currentChunk st)
                               (chunkOverlap options))) Hoverlap).
      split; [lia|]. apply Forall_app. split; [done|]. by constructor.
    - split; [|done]. case_bool_decide; [by apply Hpos|done]. }
  set (st := foldl _ _ _) in *. unfold ParagraphChunking.finish.
  assert (∀ chunkText,
            JS.length (ParagraphChunking.getOverlapText split chunkText
                         (chunkOverlap options)) ≤ JS.length chunkText ∧
            (0 < chunkOverlap options →
             JS.length (ParagraphChunking.getOverlapText split chunkText
                          (chunkOverlap options)) ≤ chunkOverlap options)) as Hcarried.
  { intros chunkText.
    destruct (ParagraphFacts.paragraph_getOverlapText_length split chunkText
                (chunkOverlap options)) as (? & ? & _). by split. }
  destruct (Z.ltb_spec 0 (JS.length (JS.trim (ParagraphChunking.currentChunk st))))
    as [Hrest|Hnone].
  - assert (ParagraphChunking.currentChunk st ≠ "") as Hne
      by (intros Heq; rewrite Heq in Hrest; done).
    rewrite bool_decide_false in Hcount by done. split_and!.
    + by apply contiguous_snoc.
    + rewrite length_app. simpl. lia.
    + apply Forall_app. split; [done|]. constructor; [|done].
      by apply ParagraphFacts.paragraph_createChunk_ranged.
    + apply chained_snoc; [done|].
      destruct (last (ParagraphChunking.chunks st)); simpl; [lia|done].
    + intros c. destruct (ParagraphChunking.chunks st) as [|c0 cs] eqn:Hcs; simpl.
      * intros [= <-]. simpl. by simpl in Hlast.
      * intros [= <-]. by apply Hhead.
    + exact Hcarried.
    + intros Hoverlap. destruct (Hzero Hoverlap) as [Hs Hall].
      apply Forall_app. split; [done|]. by constructor.
  - split_and!; try done.
    + case_bool_decide; lia.
    + intros Hoverlap. by destruct (Hzero Hoverlap).
Qed.

(** ** Reading a document back *)

(** X26. A document that has just been ingested can be read back through
    the tool under the id that ingestion returned (the host's MD5 digests
    being made of characters allowed in ids): the view has that id, as
    many chunks as ingestion reported, the validated tags and, for a text
    given in place of a file, that text under the name [text_content]. *)
Theorem getDocument_after_ingest h config toISOString args w r w' :
  (∀ s, allChars isIdChar (md5_hex h s) = true) →
  IngestTool.ingestDocument h config args w = Some (r, w') →
  status r = success →
  ∃ v,
    ManagementQueries.getDocument toISOString (ir_documentId r) w' = Ok v ∧
    dv_id v = ir_documentId r ∧
    Z.of_nat (List.length (dv_chunks v)) = chunksCreated r ∧
    match arg_tags args with
    | Some ts => validateTags ts = Ok (dv_tags v)
    | None => dv_tags v = []
    end ∧
    (∀ text, file_path args = None → text_content args = Some text →
       dv_content v = text ∧ dv_filename v = "text_content" ∧ dv_file_type v = "txt").
Proof.
  intros Hhex Hrun Hsuccess.
  destruct (ingestDocument_cases _ _ _ _ _ _ Hrun)
    as [(Herror & _)
       |(p & chunks & embeddings & d & w3 & Hp & _ & _ & _ & _
         & -> & _ & Hid & Hn & Hat & Hcontent & Hcs & Hmeta)]; [congruence|].
  exists (ManagementQueries.view toISOString d).
  unfold ManagementQueries.getDocument.
  assert (validateDocumentId (ir_documentId r) = Ok tt) as ->.
  { rewrite Hid, Hat. apply documentIdAt_valid, Hhex. }
  rewrite Hid.
  assert (ChromaStorage.getDocument (doc_id d) (ChromaStorage.storeDocument d w3)
          = Some d) as ->.
  { unfold ChromaStorage.getDocument, FileSystemStorage.loadDocument.
    by rewrite storeDocument_files, lookup_insert_eq. }
  cbn [mbind result_bind ManagementQueries.view dv_id dv_chunks dv_tags dv_content
       dv_filename dv_file_type].
  split_and!; [done|done| | |].
  - by rewrite length_map, Hcs, length_imap.
  - rewrite Hmeta. cbn [tags]. exact (prepare_tags _ _ _ _ Hp).
  - intros text Hfile Htext.
    destruct (prepare_text _ _ _ _ _ Hfile Htext Hp) as (_ & Hc & Hname & Htype & _).
    rewrite Hcontent, Hmeta. cbn [filename fileType]. by rewrite Hc, Hname, Htype.
Qed.

(** The theorem at the ingestion of a short text into the empty store. *)
Lemma getDocument_after_ingest_witness :
  ∃ r w' v,
    IngestTool.ingestDocument TestHost.host TestHost.config TestHost.tagged
      TestHost.empty = Some (r, w') ∧
    ManagementQueries.getDocument pretty (ir_documentId r) w' = Ok v ∧
    dv_content v = "Some text.".
Proof.
  assert (∃ r w',
            IngestTool.ingestDocument TestHost.host TestHost.config TestHost.tagged
              TestHost.empty = Some (r, w') ∧ status r = success)
    as (r & w' & Hrun & Hsuccess)
    by (vm_compute; eexists _, _; split; reflexivity).
  destruct (getDocument_after_ingest TestHost.host TestHost.config pretty
              TestHost.tagged TestHost.empty r w' MD5_hex_idChars Hrun Hsuccess)
    as (v & Hget & _ & _ & _ & Htext).
  exists r, w', v. split_and!; [exact Hrun | exact Hget |].
  by apply (Htext "Some text.").
Defined.

(** X27. Once the tool has deleted a document, reading it back through
    the tool fails with [Document not found]. *)
Theorem getDocument_after_delete toISOString id w :
  tr_success (ManagementTool.deleteDocument id w).1 = true →
  ManagementQueries.getDocument toISOString id (ManagementTool.deleteDocument id w).2
  = Throw ("Document retrieval failed: Document not found: " +:+ id).
Proof.
  unfold ManagementTool.deleteDocument, ManagementQueries.getDocument.
  destruct (validateDocumentId id) as [[]|msg]; cbn [mbind result_bind]; [|done].
  destruct (ChromaStorage.getDocument id w) as [d|]; cbn [fst snd tr_success]; [|done].
  intros _.
  assert (ChromaStorage.getDocument id (ChromaStorage.deleteDocument id w) = None)
    as -> by apply lookup_delete_eq.
  done.
Qed.

(** The theorem at the deletion of one of two documents. *)
Lemma getDocument_after_delete_witness :
  ManagementQueries.getDocument pretty "doc_1_a"
    (ManagementTool.deleteDocument "doc_1_a" TestHost.tied).2
  = Throw "Document retrieval failed: Document not found: doc_1_a".
Proof.
  apply (getDocument_after_delete pretty "doc_1_a" TestHost.tied). reflexivity.
Defined.

(** ** The default file types *)

Lemma toLowerChar_dot c : JS.toLowerChar c = "."%char → c = "."%char.
Proof.
  destruct c as [[] [] [] [] [] [] [] []]; vm_compute; intros H; try done;
    discriminate.
Qed.

Lemma slice_tail c s : JS.slice (String c s) 1 (JS.length (String c s)) = s.
Proof.
  unfold JS.slice, JS.clamp. cbv zeta.
  destruct (Z.ltb_spec 1 0); [lia|].
  destruct (Z.ltb_spec (JS.length (String c s)) 0); [unfold JS.length in *; lia|].
  assert (JS.length (String c s) = 1 + JS.length s) as Hlen
    by (unfold JS.length; simpl; lia).
  rewrite Z.min_l by (unfold JS.length in *; lia). rewrite Z.min_id.
  rewrite Hlen. replace (Z.max (1 + JS.length s - 1) 0) with (JS.length s)
    by (unfold JS.length; lia).
  change (Z.to_nat 1) with 1%nat. simpl. unfold JS.length. rewrite Nat2Z.id.
  clear. induction s as [|x s IH]; simpl; [done|]. by rewrite IH.
Qed.

(** The extension that [validateFileType] computes never starts with a
    dot. *)
Lemma extension_no_dot h file :
  extnameShape (path_extname h file) → startsWithDot (extension h file) = false.
Proof.
  unfold extension. cbv zeta. intros [->|(rest & -> & Hrest)]; [done|].
  cbn [JS.toLowerCase]. rewrite slice_tail.
  destruct rest as [|x rest]; [done|]. cbn [JS.toLowerCase startsWithDot].
  apply bool_decide_eq_false. intros Hdot%toLowerChar_dot.
  simpl in Hrest. by rewrite bool_decide_true in Hrest.
Qed.

(** X29. When [ALLOWED_FILE_TYPES] is not set, the allowed file types
    that [loadConfig] supplies begin with a dot, while the extension that
    [validateFileType] looks up has its dot cut off. So [validateFileType]
    then rejects every file, every ingestion of a file reports an error
    and stores nothing, and [findFiles] keeps no file. *)
Theorem default_file_types_reject_files h config env file w patterns :
  JS.truthy env = false →
  allowedFileTypes config = loadAllowedFileTypes env →
  extnameShape (path_extname h file) →
  (∃ msg, validateFileType h file (allowedFileTypes config) = Throw msg) ∧
  (∃ r, IngestTool.ingestDocument h config (IngestTool.fileArgs file) w = Some (r, w)
        ∧ status r = error) ∧
  IngestTool.keepsFile h config patterns file = false.
Proof.
  intros Henv Hconfig Hshape. pose proof (extension_no_dot h file Hshape) as Hext.
  assert (JS.includes (allowedFileTypes config) (extension h file) = false) as Hnot.
  { rewrite Hconfig. unfold loadAllowedFileTypes, JS.includes. rewrite Henv.
    apply bool_decide_eq_false. intros Hin.
    assert (startsWithDot (extension h file) = true); [|congruence].
    repeat (apply elem_of_cons in Hin as [->|Hin]; [done|]).
    by apply elem_of_nil in Hin. }
  assert (∃ msg, validateFileType h file (allowedFileTypes config) = Throw msg)
    as [msg Hmsg].
  { unfold validateFileType. cbv zeta. rewrite Hnot. by eexists. }
  split_and!.
  - by exists msg.
  - unfold IngestTool.ingestDocument, IngestTool.ingestBody, IngestTool.prepare,
      IngestTool.fileArgs.
    cbn [file_path text_content arg_metadata arg_tags JS.truthy].
    destruct (bool_decide (file = "")); cbn [negb andb throwIf mbind result_bind];
      [by eexists|].
    change (default "" (Some file)) with file. rewrite Hmsg.
    destruct (validateFilePath h file) as [[]|?]; cbn [mbind result_bind];
      [|by eexists].
    destruct (validateFileSize h file (maxFileSize config)) as [[]|?];
      cbn [mbind result_bind]; by eexists.
  - unfold IngestTool.keepsFile. cbv zeta. rewrite Hnot. apply andb_false_r.
Qed.

(** The theorem at a text file of the example host. *)
Lemma default_file_types_reject_files_witness :
  ∃ msg,
    validateFileType TestHost.host "/docs/one.txt" (loadAllowedFileTypes None)
    = Throw msg.
Proof.
  apply (default_file_types_reject_files TestHost.host
           {| storageDir := "/storage"; chromaDbDir := "/chroma";
              embeddingConfig := embeddingConfig TestHost.config;
              chunkingOptions := fixed_1000_200;
              maxFileSize := 104857600;
              allowedFileTypes := loadAllowedFileTypes None |}
           None "/docs/one.txt" TestHost.empty ["*"]);
    [reflexivity | reflexivity |].
  right. exists "txt". split; vm_compute; reflexivity.
Defined.

(** ** Text files *)

(** X30. A text file (txt, md, markdown) that has been ingested with the
    fixed strategy has at least one chunk: the text processor returns the
    content of the file as it was read and refuses a blank one, the stored
    document holds that content, and a content that is not blank gives at
    least one chunk. *)
Theorem ingested_text_file_has_chunks h config file w r w' :
  JS.toLowerCase (strategy (chunkingOptions config)) = "fixed" →
  0 ≤ chunkOverlap (chunkingOptions config) < chunkSize (chunkingOptions config) →
  JS.includes ["txt"; "md"; "markdown"] (JS.toLowerCase (extension h file)) = true →
  IngestTool.ingestDocument h config (IngestTool.fileArgs file) w = Some (r, w') →
  status r = success →
  ∃ content d,
    fs_readFile h file = Ok content ∧
    JS.blank content = false ∧
    ChromaStorage.getDocument (ir_documentId r) w' = Some d ∧
    doc_content d = content ∧
    1 ≤ chunksCreated r.
Proof.
  intros Hfixed Hopt Htext Hrun Hsuccess.
  destruct (ingestDocument_cases _ _ _ _ _ _ Hrun)
    as [(Herror & _)
       |(p & chunks & embeddings & d & w3 & Hp & Hchunks & _ & _ & _
         & -> & _ & Hid & Hn & _ & Hcontent & _)]; [congruence|].
  assert (Processors.processFile h file = Ok (pr_content p)) as Hprocess.
  { unfold IngestTool.prepare, IngestTool.fileArgs in Hp.
    cbn [file_path text_content arg_metadata arg_tags JS.truthy] in Hp.
    destruct (bool_decide (file = "")); [done|].
    cbn [negb andb throwIf mbind result_bind] in Hp.
    change (default "" (Some file)) with file in Hp.
    apply bind_Ok in Hp as ([[[content name] type] path] & Hsource & Hp).
    apply bind_Ok in Hp as (_ & _ & Hp). injection Hp as <-.
    apply bind_Ok in Hsource as (_ & _ & Hsource).
    apply bind_Ok in Hsource as (_ & _ & Hsource).
    apply bind_Ok in Hsource as (_ & _ & Hsource).
    apply bind_Ok in Hsource as (content' & Hprocess & Hsource).
    injection Hsource as <- _ _ _. exact Hprocess. }
  assert (fs_readFile h file = Ok (pr_content p) ∧ JS.blank (pr_content p) = false)
    as [Hread Hblank].
  { unfold Processors.processFile in Hprocess. cbv zeta in Hprocess.
    unfold JS.includes in Htext. apply bool_decide_eq_true in Htext.
    assert (JS.toLowerCase (extension h file) ≠ "pdf"
            ∧ JS.toLowerCase (extension h file) ≠ "docx") as [Hpdf Hdocx].
    { split; intros Heq; rewrite Heq in Htext;
        repeat (apply elem_of_cons in Htext as [?|Htext]; [done|]);
        by apply elem_of_nil in Htext. }
    rewrite (bool_decide_eq_false_2 _ Hpdf), (bool_decide_eq_false_2 _ Hdocx)
      in Hprocess.
    unfold JS.includes in Hprocess. rewrite bool_decide_eq_true_2 in Hprocess by done.
    unfold Processors.TextProcessor_process in Hprocess.
    destruct (fs_readFile h file) as [content|]; [|done].
    destruct (bool_decide (content = "")) eqn:Hempty; [done|].
    destruct (Z.eqb_spec (JS.length (JS.trim content)) 0) as [Hz|Hnz]; [done|].
    cbn [orb] in Hprocess. injection Hprocess as <-. split; [done|].
    destruct (JS.blank content) eqn:Hb; [|done].
    exfalso. apply Hnz. apply trim_empty_iff in Hb. by rewrite Hb. }
  rewrite chunkWith_fixed in Hchunks by done.
  destruct (FixedChunking.chunk (pr_content p) (chunkingOptions config))
    as [cs|] eqn:Hcs; [|done].
  injection Hchunks as <-.
  pose proof (fixed_nonblank_chunks _ _ _ Hopt Hcs Hblank) as Hne.
  exists (pr_content p), d. rewrite Hid. split_and!; try done.
  - unfold ChromaStorage.getDocument, FileSystemStorage.loadDocument.
    by rewrite storeDocument_files, lookup_insert_eq.
  - rewrite Hn. destruct cs; [done|]. simpl. lia.
Qed.

(** The theorem at the ingestion of a text file of the example host. *)
Lemma ingested_text_file_has_chunks_witness :
  ∃ r w',
    IngestTool.ingestDocument TestHost.host TestHost.config
      (IngestTool.fileArgs "/docs/one.txt") TestHost.empty = Some (r, w') ∧
    1 ≤ chunksCreated r.
Proof.
  assert (∃ r w',
            IngestTool.ingestDocument TestHost.host TestHost.config
              (IngestTool.fileArgs "/docs/one.txt") TestHost.empty = Some (r, w')
            ∧ status r = success)
    as (r & w' & Hrun & Hsuccess)
    by (vm_compute; eexists _, _; split; reflexivity).
  destruct (ingested_text_file_has_chunks TestHost.host TestHost.config
              "/docs/one.txt" TestHost.empty r w')
    as (content & d & _ & _ & _ & _ & Hchunks);
    [reflexivity | cbn; lia | vm_compute; reflexivity | exact Hrun | exact Hsuccess |].
  exists r, w'. split; [exact Hrun | exact Hchunks].
Defined.
